(** * EventStore to SQLite converter: a shallow embedding of [main.py]

    The development follows the layout of the program:

    - [Py]                the Python values the converter handles (text,
                          bytes, containers, datetimes), its exceptions,
                          UTF-8 and the partial arithmetic operators;
    - [Json]              [json.dumps] with its default options, and
                          [json.loads];
    - [RecordedEvent]     an event as the client hands it over;
    - [SQLiteEvent]       the normalisation of one event;
    - [Sqlite3]           the driver: one connection to one database file;
    - [ConversionConfig], [Stats], [Runtime]
                          the configuration, the statistics dictionary, and
                          the state and control of the program (a state and
                          exception monad);
    - [SQLiteEventStore]  the store and its methods;
    - [Main]              [eventstore_client] and [convert_events];
    - [Spec]              the vocabulary of the statements, and sample data;
    - [Namespace], [Cli]  the parsed command line, [create_config_from_args]
                          and [main];
    - [Props]             the vocabulary of the statements about whole runs.

    The statements and their proofs come after the definitions.

    Text is a sequence of Unicode code points, as a Python [str] is; bytes
    are [Byte.byte]; Python integers are [Z].  Floating-point quantities
    (clock readings, throughput) are idealised as exact rationals, and a
    datetime is represented by the integer part of its POSIX timestamp.
    Messages to the logger are left out. *)

From Stdlib Require Import List ZArith NArith QArith Lia Bool String Ascii.
From Stdlib Require Import Strings.Byte DecimalZ DecimalPos DecimalFacts.
Import ListNotations.

Set Implicit Arguments.
Close Scope Q_scope.

(* ================================================================== *)
(** * Python values *)
(* ================================================================== *)

Module Py.

Local Open Scope N_scope.

(** A [str] is a sequence of code points ([0 .. 0x10FFFF]); lone surrogates
    may occur in it, as in Python. *)
Abbreviation codepoint := N (only parsing).
Abbreviation pystr := (list N) (only parsing).
Abbreviation pybytes := (list byte) (only parsing).

(** A literal of the program text (ASCII). *)
Definition lit (s : string) : pystr :=
  List.map (fun a => N_of_ascii a) (list_ascii_of_string s).

Definition pystr_eqb (a b : pystr) : bool :=
  if list_eq_dec N.eq_dec a b then true else false.

(** Dictionary keys.  [KOther] stands for any other hashable object
    (a tuple, a frozenset, ...). *)
Inductive pykey : Type :=
| KStr (s : pystr)
| KInt (z : Z)
| KBool (b : bool)
| KNone
| KOther (tag : N).

(** The values an event attribute can hold.  [PDatetime ts] is a datetime
    whose [int(value.timestamp())] is [ts]; [PObject] is any other object:
    it has no [timestamp] attribute and the JSON encoder does not know it.
    A dictionary keeps its insertion order. *)
#[warnings="-register-all"]
Inductive pyval : Type :=
| PNone
| PBool (b : bool)
| PInt (z : Z)
| PStr (s : pystr)
| PBytes (b : pybytes)
| PList (items : list pyval)
| PTuple (items : list pyval)
| PDict (entries : list (pykey * pyval))
| PDatetime (ts : Z)
| PObject (tag : N).

(** The exceptions of the program. *)
Inductive validation_kind : Type :=
| InvalidEncoding   (* "Invalid UTF-8 data: ..." *)
| Unserializable    (* "Cannot serialize data: ..." *)
| TooLarge.         (* "Event data too large: ..." *)

Inductive sqlite_error : Type :=
| ProgrammingError  (* use of a closed connection *)
| IntegrityError    (* a CHECK constraint failed *)
| OperationalError. (* the database could not carry out the call *)

Inductive exn : Type :=
| EventValidationError (k : validation_kind)
| UnicodeEncodeError
| TypeError
| ValueError
| ZeroDivisionError
| OverflowError
| RuntimeError
| ConnectionError
| Sqlite3Error (e : sqlite_error)
| ReadError (tag : N).   (* whatever the reader raises while iterating *)

Inductive result (A : Type) : Type :=
| Ok (a : A)
| Raise (e : exn).
Arguments Ok {A} a.
Arguments Raise {A} e.

(** ** UTF-8 *)

Definition byte_of (n : N) : byte :=
  match Byte.of_N n with Some b => b | None => x00 end.

Definition is_surrogate (c : codepoint) : bool :=
  (0xD800 <=? c) && (c <=? 0xDFFF).

(** [str.encode("utf-8")] for one code point; [None] is
    [UnicodeEncodeError] (surrogates are not allowed). *)
Definition utf8_encode_char (c : codepoint) : option pybytes :=
  if c <? 0x80 then Some [byte_of c]
  else if c <? 0x800 then
    Some [byte_of (0xC0 + c / 64); byte_of (0x80 + c mod 64)]
  else if c <? 0x10000 then
    if is_surrogate c then None
    else Some [byte_of (0xE0 + c / 4096);
               byte_of (0x80 + (c / 64) mod 64);
               byte_of (0x80 + c mod 64)]
  else if c <? 0x110000 then
    Some [byte_of (0xF0 + c / 262144);
          byte_of (0x80 + (c / 4096) mod 64);
          byte_of (0x80 + (c / 64) mod 64);
          byte_of (0x80 + c mod 64)]
  else None.

Fixpoint utf8_encode (s : pystr) : option pybytes :=
  match s with
  | [] => Some []
  | c :: s' =>
      match utf8_encode_char c, utf8_encode s' with
      | Some b, Some bs => Some (b ++ bs)
      | _, _ => None
      end
  end.

Definition is_cont (b : N) : bool := (0x80 <=? b) && (b <=? 0xBF).
Definition in_range (lo hi b : N) : bool := (lo <=? b) && (b <=? hi).

(** [bytes.decode("utf-8")], strict: overlong forms, surrogates, values
    above [0x10FFFF], stray continuation bytes and truncated sequences are
    rejected.  [None] is [UnicodeDecodeError]. *)
Fixpoint utf8_decode (bs : pybytes) : option pystr :=
  match bs with
  | [] => Some []
  | b0 :: r0 =>
      let n0 := Byte.to_N b0 in
      if n0 <? 0x80 then option_map (cons n0) (utf8_decode r0)
      else if in_range 0xC2 0xDF n0 then
        match r0 with
        | b1 :: r1 =>
            let n1 := Byte.to_N b1 in
            if is_cont n1
            then option_map (cons ((n0 - 0xC0) * 64 + (n1 - 0x80)))
                            (utf8_decode r1)
            else None
        | _ => None
        end
      else if in_range 0xE0 0xEF n0 then
        match r0 with
        | b1 :: b2 :: r2 =>
            let n1 := Byte.to_N b1 in
            let n2 := Byte.to_N b2 in
            let lo := if n0 =? 0xE0 then 0xA0 else 0x80 in
            let hi := if n0 =? 0xED then 0x9F else 0xBF in
            if in_range lo hi n1 && is_cont n2
            then option_map
                   (cons ((n0 - 0xE0) * 4096 + (n1 - 0x80) * 64 + (n2 - 0x80)))
                   (utf8_decode r2)
            else None
        | _ => None
        end
      else if in_range 0xF0 0xF4 n0 then
        match r0 with
        | b1 :: b2 :: b3 :: r3 =>
            let n1 := Byte.to_N b1 in
            let n2 := Byte.to_N b2 in
            let n3 := Byte.to_N b3 in
            let lo := if n0 =? 0xF0 then 0x90 else 0x80 in
            let hi := if n0 =? 0xF4 then 0x8F else 0xBF in
            if in_range lo hi n1 && is_cont n2 && is_cont n3
            then option_map
                   (cons ((n0 - 0xF0) * 262144 + (n1 - 0x80) * 4096
                          + (n2 - 0x80) * 64 + (n3 - 0x80)))
                   (utf8_decode r3)
            else None
        | _ => None
        end
      else None
  end.

(** ** Integers as text: [str(n)] *)

Fixpoint uint_digits (u : Decimal.uint) : pystr :=
  match u with
  | Decimal.Nil => []
  | Decimal.D0 u => 48 :: uint_digits u
  | Decimal.D1 u => 49 :: uint_digits u
  | Decimal.D2 u => 50 :: uint_digits u
  | Decimal.D3 u => 51 :: uint_digits u
  | Decimal.D4 u => 52 :: uint_digits u
  | Decimal.D5 u => 53 :: uint_digits u
  | Decimal.D6 u => 54 :: uint_digits u
  | Decimal.D7 u => 55 :: uint_digits u
  | Decimal.D8 u => 56 :: uint_digits u
  | Decimal.D9 u => 57 :: uint_digits u
  end.

Definition int_str (z : Z) : pystr :=
  match Z.to_int z with
  | Decimal.Pos u => uint_digits u
  | Decimal.Neg u => 45 :: uint_digits u
  end.

(** ** Dictionaries *)

(** Equality of keys, as the dictionary sees it ([True == 1]). *)
Definition pykey_eqb (a b : pykey) : bool :=
  let as_int k :=
    match k with
    | KInt z => Some z
    | KBool true => Some 1%Z
    | KBool false => Some 0%Z
    | _ => None
    end in
  match a, b with
  | KStr x, KStr y => pystr_eqb x y
  | KNone, KNone => true
  | KOther x, KOther y => x =? y
  | _, _ =>
      match as_int a, as_int b with
      | Some x, Some y => (x =? y)%Z
      | _, _ => false
      end
  end.

(** [d[k] = v] *)
Fixpoint dict_set (k : pykey) (v : pyval) (d : list (pykey * pyval))
  : list (pykey * pyval) :=
  match d with
  | [] => [(k, v)]
  | (k', v') :: d' =>
      if pykey_eqb k k' then (k', v) :: d' else (k', v') :: dict_set k v d'
  end.


(** ** Partial arithmetic *)

(** [a % b] on integers: the result has the sign of [b]. *)
Definition py_mod (a b : Z) : result Z :=
  if (b =? 0)%Z then Raise ZeroDivisionError else Ok (a mod b)%Z.

(** [a / b], true division. *)
Definition py_truediv (a b : Q) : result Q :=
  if Qeq_bool b 0 then Raise ZeroDivisionError else Ok (a / b)%Q.

(** [int(x)] on a number: truncation towards zero. *)
Definition py_int (x : Q) : Z := Z.quot (Qnum x) (Zpos (Qden x)).

End Py.

(* ================================================================== *)
(** * The [json] module *)
(* ================================================================== *)

Module Json.
Import Py.
Local Open Scope N_scope.

(** ** [json.dumps(obj)], default options

    [ensure_ascii=True], separators [", "] and [": "], [skipkeys=False].
    [None] is the [TypeError] the encoder raises on an object it does not
    know. *)

Definition hex_digit (n : N) : codepoint :=
  if n <? 10 then 48 + n else 87 + n.

(** ['\\u{0:04x}'.format(n)] *)
Definition u_escape (n : N) : pystr :=
  [92; 117; hex_digit (n / 4096 mod 16); hex_digit (n / 256 mod 16);
   hex_digit (n / 16 mod 16); hex_digit (n mod 16)].

(** The replacement of one character matched by [ESCAPE_ASCII]; the
    characters from the space to [~], the quote and the backslash apart,
    stand for themselves. *)
Definition escape_char (c : codepoint) : pystr :=
  if c =? 34 then [92; 34]
  else if c =? 92 then [92; 92]
  else if c =? 10 then [92; 110]
  else if c =? 13 then [92; 114]
  else if c =? 9 then [92; 116]
  else if c =? 8 then [92; 98]
  else if c =? 12 then [92; 102]
  else if (32 <=? c) && (c <=? 126) then [c]
  else if c <? 0x10000 then u_escape c
  else
    let n := c - 0x10000 in
    u_escape (N.lor 0xd800 (N.land (N.shiftr n 10) 0x3ff))
      ++ u_escape (N.lor 0xdc00 (N.land n 0x3ff)).

Definition encode_basestring_ascii (s : pystr) : pystr :=
  34 :: flat_map escape_char s ++ [34].

(** Keys: text as it is, integers through [str], [True], [False] and
    [None] by name; anything else is a [TypeError]. *)
Definition encode_key (k : pykey) : option pystr :=
  match k with
  | KStr s => Some (encode_basestring_ascii s)
  | KInt z => Some (encode_basestring_ascii (int_str z))
  | KBool true => Some (encode_basestring_ascii (lit "true"))
  | KBool false => Some (encode_basestring_ascii (lit "false"))
  | KNone => Some (encode_basestring_ascii (lit "null"))
  | KOther _ => None
  end.

Fixpoint join (sep : pystr) (parts : list pystr) : pystr :=
  match parts with
  | [] => []
  | [p] => p
  | p :: ps => p ++ sep ++ join sep ps
  end.

Definition item_separator : pystr := [44; 32].
Definition key_separator : pystr := [58; 32].

Fixpoint encode (v : pyval) : option pystr :=
  match v with
  | PNone => Some (lit "null")
  | PBool true => Some (lit "true")
  | PBool false => Some (lit "false")
  | PInt z => Some (int_str z)
  | PStr s => Some (encode_basestring_ascii s)
  | PList items | PTuple items =>
      let parts :=
        (fix encode_items (l : list pyval) : option (list pystr) :=
           match l with
           | [] => Some []
           | x :: xs =>
               match encode x, encode_items xs with
               | Some p, Some ps => Some (p :: ps)
               | _, _ => None
               end
           end) items in
      option_map (fun ps => 91 :: join item_separator ps ++ [93]) parts
  | PDict entries =>
      let parts :=
        (fix encode_entries (l : list (pykey * pyval)) : option (list pystr) :=
           match l with
           | [] => Some []
           | (k, x) :: xs =>
               match encode_key k, encode x, encode_entries xs with
               | Some pk, Some p, Some ps =>
                   Some ((pk ++ key_separator ++ p) :: ps)
               | _, _, _ => None
               end
           end) entries in
      option_map (fun ps => 123 :: join item_separator ps ++ [125]) parts
  | PBytes _ | PDatetime _ | PObject _ => None
  end.

Definition dumps (v : pyval) : result pystr :=
  match encode v with
  | Some text => Ok text
  | None => Raise TypeError
  end.

(** ** [json.loads(text)]

    [None] is a [JSONDecodeError], or a document with a number that is not
    an integer (a fraction, an exponent, [NaN], [Infinity]): the values
    above have no floating-point numbers. *)

Definition is_ws (c : codepoint) : bool :=
  (c =? 32) || (c =? 9) || (c =? 10) || (c =? 13).

Fixpoint skip_ws (s : pystr) : pystr :=
  match s with
  | c :: s' => if is_ws c then skip_ws s' else s
  | [] => []
  end.

Definition hex_val (c : codepoint) : option N :=
  if in_range 48 57 c then Some (c - 48)
  else if in_range 97 102 c then Some (c - 87)
  else if in_range 65 70 c then Some (c - 55)
  else None.

Definition hex4_val (a b c d : codepoint) : option N :=
  match hex_val a, hex_val b, hex_val c, hex_val d with
  | Some x, Some y, Some z, Some w => Some (((x * 16 + y) * 16 + z) * 16 + w)
  | _, _, _, _ => None
  end.

Definition simple_escape (e : codepoint) : option codepoint :=
  if e =? 34 then Some 34
  else if e =? 92 then Some 92
  else if e =? 47 then Some 47
  else if e =? 98 then Some 8
  else if e =? 102 then Some 12
  else if e =? 110 then Some 10
  else if e =? 114 then Some 13
  else if e =? 116 then Some 9
  else None.

Definition push (c : codepoint) (r : option (pystr * pystr))
  : option (pystr * pystr) :=
  match r with
  | Some (t, rest) => Some (c :: t, rest)
  | None => None
  end.

(** [scanstring], strict, from the character after the opening quote: the
    text of the string and what follows its closing quote.  A high
    surrogate escape directly followed by a low surrogate escape is one
    character. *)
Fixpoint scanstring (s : pystr) : option (pystr * pystr) :=
  match s with
  | [] => None
  | c :: s1 =>
      if c =? 34 then Some ([], s1)
      else if c =? 92 then
        match s1 with
        | [] => None
        | e :: s2 =>
            if e =? 117 then
              match s2 with
              | h1 :: h2 :: h3 :: h4 :: s3 =>
                  match hex4_val h1 h2 h3 h4 with
                  | None => None
                  | Some uni =>
                      if in_range 0xd800 0xdbff uni then
                        match s3 with
                        | b :: u :: g1 :: g2 :: g3 :: g4 :: s4 =>
                            if (b =? 92) && (u =? 117) then
                              match hex4_val g1 g2 g3 g4 with
                              | None => None
                              | Some uni2 =>
                                  if in_range 0xdc00 0xdfff uni2
                                  then push
                                         (0x10000 +
                                          N.lor (N.shiftl (uni - 0xd800) 10)
                                                (uni2 - 0xdc00))
                                         (scanstring s4)
                                  else push uni (scanstring s3)
                              end
                            else push uni (scanstring s3)
                        | _ => push uni (scanstring s3)
                        end
                      else push uni (scanstring s3)
                  end
              | _ => None
              end
            else
              match simple_escape e with
              | Some c' => push c' (scanstring s2)
              | None => None
              end
        end
      else if c <? 32 then None
      else push c (scanstring s1)
  end.

Definition digit_val (c : codepoint) : option (Decimal.uint -> Decimal.uint) :=
  if c =? 48 then Some Decimal.D0
  else if c =? 49 then Some Decimal.D1
  else if c =? 50 then Some Decimal.D2
  else if c =? 51 then Some Decimal.D3
  else if c =? 52 then Some Decimal.D4
  else if c =? 53 then Some Decimal.D5
  else if c =? 54 then Some Decimal.D6
  else if c =? 55 then Some Decimal.D7
  else if c =? 56 then Some Decimal.D8
  else if c =? 57 then Some Decimal.D9
  else None.

Fixpoint scan_digits (s : pystr) : Decimal.uint * pystr :=
  match s with
  | [] => (Decimal.Nil, [])
  | c :: s' =>
      match digit_val c with
      | Some d => let (u, r) := scan_digits s' in (d u, r)
      | None => (Decimal.Nil, s)
      end
  end.

(** The integer part of [NUMBER_RE]: an optional minus sign, then a lone
    zero or a digit from 1 to 9 followed by any digits. *)
Definition match_integer (s : pystr) : option (Decimal.int * pystr) :=
  let (neg, s1) :=
    match s with
    | c :: r => if c =? 45 then (true, r) else (false, s)
    | [] => (false, s)
    end in
  let sign := if neg then Decimal.Neg else Decimal.Pos in
  match s1 with
  | d :: r =>
      if d =? 48 then Some (sign (Decimal.D0 Decimal.Nil), r)
      else if in_range 49 57 d
      then let (u, r') := scan_digits s1 in Some (sign u, r')
      else None
  | [] => None
  end.

(** A number; one that goes on with a fraction or an exponent is not an
    integer. *)
Definition scan_number (s : pystr) : option (pyval * pystr) :=
  match match_integer s with
  | Some (i, r) =>
      match r with
      | c :: _ =>
          if (c =? 46) || (c =? 101) || (c =? 69) then None
          else Some (PInt (Z.of_int i), r)
      | [] => Some (PInt (Z.of_int i), r)
      end
  | None => None
  end.

Fixpoint strip_prefix (p s : pystr) : option pystr :=
  match p, s with
  | [], _ => Some s
  | a :: p', b :: s' => if a =? b then strip_prefix p' s' else None
  | _ :: _, [] => None
  end.

Definition dict_of_pairs (ps : list (pystr * pyval)) : list (pykey * pyval) :=
  fold_left (fun d kv => dict_set (KStr (fst kv)) (snd kv) d) ps [].

(** [scan_once]: one value at the head of the text.  The recursion of the
    decoder is bounded by [fuel]; the length of the text is enough. *)
Fixpoint scan_once (fuel : nat) (s : pystr) {struct fuel}
  : option (pyval * pystr) :=
  match fuel with
  | O => None
  | S f =>
      match s with
      | [] => None
      | c :: s1 =>
          if c =? 34 then
            match scanstring s1 with
            | Some (t, r) => Some (PStr t, r)
            | None => None
            end
          else if c =? 123 then
            match skip_ws s1 with
            | c2 :: s2 =>
                if c2 =? 125 then Some (PDict [], s2)
                else
                  match parse_pairs f (c2 :: s2) with
                  | Some (ps, r) => Some (PDict (dict_of_pairs ps), r)
                  | None => None
                  end
            | [] => None
            end
          else if c =? 91 then
            match skip_ws s1 with
            | c2 :: s2 =>
                if c2 =? 93 then Some (PList [], s2)
                else
                  match parse_items f (c2 :: s2) with
                  | Some (vs, r) => Some (PList vs, r)
                  | None => None
                  end
            | [] => None
            end
          else if c =? 110 then
            option_map (pair PNone) (strip_prefix (lit "null") s)
          else if c =? 116 then
            option_map (pair (PBool true)) (strip_prefix (lit "true") s)
          else if c =? 102 then
            option_map (pair (PBool false)) (strip_prefix (lit "false") s)
          else scan_number s
      end
  end

with parse_items (fuel : nat) (s : pystr) {struct fuel}
  : option (list pyval * pystr) :=
  match fuel with
  | O => None
  | S f =>
      match scan_once f s with
      | None => None
      | Some (v, s1) =>
          match skip_ws s1 with
          | c :: s2 =>
              if c =? 93 then Some ([v], s2)
              else if c =? 44 then
                match parse_items f (skip_ws s2) with
                | Some (vs, r) => Some (v :: vs, r)
                | None => None
                end
              else None
          | [] => None
          end
      end
  end

with parse_pairs (fuel : nat) (s : pystr) {struct fuel}
  : option (list (pystr * pyval) * pystr) :=
  match fuel with
  | O => None
  | S f =>
      match s with
      | q :: s1 =>
          if q =? 34 then
            match scanstring s1 with
            | None => None
            | Some (k, s2) =>
                match skip_ws s2 with
                | colon :: s3 =>
                    if colon =? 58 then
                      match scan_once f (skip_ws s3) with
                      | None => None
                      | Some (v, s4) =>
                          match skip_ws s4 with
                          | c :: s5 =>
                              if c =? 125 then Some ([(k, v)], s5)
                              else if c =? 44 then
                                match parse_pairs f (skip_ws s5) with
                                | Some (ps, r) => Some ((k, v) :: ps, r)
                                | None => None
                                end
                              else None
                          | [] => None
                          end
                      end
                    else None
                | [] => None
                end
            end
          else None
      | [] => None
      end
  end.

Definition loads (text : pystr) : option pyval :=
  match scan_once (S (List.length text)) (skip_ws text) with
  | Some (v, r) =>
      match skip_ws r with
      | [] => Some v
      | _ :: _ => None
      end
  | None => None
  end.

End Json.


(* ================================================================== *)
(** * Events *)
(* ================================================================== *)

(** [esdbclient.RecordedEvent], as the converter reads it.  [id] is the text
    of the identifier ([str(event.id)]), [recorded_at] the datetime.  The
    seven positioning attributes are read with [getattr] and a default, so an
    event may lack any of them: [None] here is a missing attribute, and
    [Some PNone] an attribute that is there and holds [None]. *)
Module RecordedEvent.
Import Py.

Definition datetime := Z.
(** [int(d.timestamp())] *)
Definition timestamp (d : datetime) : Z := d.

Record t : Type := {
  id : pystr;
  type : option pystr;
  stream_name : option pystr;
  recorded_at : datetime;
  data : pyval;
  stream_position : option pyval;
  commit_position : option pyval;
  prepare_position : option pyval;
  retry_count : option pyval;
  link : option pyval;
  content_type : option pyval;
  created : option pyval
}.

Definition getattr (a : option pyval) (default : pyval) : pyval :=
  match a with
  | Some v => v
  | None => default
  end.

End RecordedEvent.

Module SQLiteEvent.
Import Py.

Record t : Type := {
  id : pystr;
  recorded_at : Z;
  type : pystr;
  stream_name : pystr;
  data : option pystr;
  eventstore_metadata : pystr
}.

Definition MAX_DATA_SIZE : Z := 1024 * 1024.

Definition bind {A B} (r : result A) (k : A -> result B) : result B :=
  match r with
  | Ok a => k a
  | Raise e => Raise e
  end.

(** [x or "unknown"] on a field that holds [None] or text. *)
Definition or_unknown (x : option pystr) : pystr :=
  match x with
  | Some (c :: s) => c :: s
  | Some [] | None => lit "unknown"
  end.

(** [len(s.encode("utf-8"))] *)
Definition encoded_size (s : pystr) : result Z :=
  match utf8_encode s with
  | Some bs => Ok (Z.of_nat (List.length bs))
  | None => Raise UnicodeEncodeError
  end.

(** The end of [_process_event_data], once the payload is text: the size
    is looked at only when validating. *)
Definition validate_size (data_str : pystr) (validate : bool)
  : result (option pystr) :=
  if validate then
    bind (encoded_size data_str) (fun n =>
    if (n >? MAX_DATA_SIZE)%Z
    then Raise (EventValidationError TooLarge)
    else Ok (Some data_str))
  else Ok (Some data_str).

Definition _process_event_data (data : pyval) (validate : bool)
  : result (option pystr) :=
  match data with
  | PNone => Ok None
  | PBytes b =>
      match utf8_decode b with
      | Some data_str => validate_size data_str validate
      | None =>
          if validate
          then Raise (EventValidationError InvalidEncoding)
          else Ok None
      end
  | PStr data_str => validate_size data_str validate
  | _ =>
      match Json.dumps data with
      | Ok data_str => validate_size data_str validate
      | Raise _ =>
          if validate
          then Raise (EventValidationError Unserializable)
          else Ok None
      end
  end.

(** The [metadata] dictionary of [_serialize_metadata], in the order the
    source writes it. *)
Definition metadata (event : RecordedEvent.t) : list (pystr * pyval) :=
  let g := RecordedEvent.getattr in
  [ (lit "stream_position", g (RecordedEvent.stream_position event) PNone);
    (lit "commit_position", g (RecordedEvent.commit_position event) PNone);
    (lit "prepare_position", g (RecordedEvent.prepare_position event) PNone);
    (lit "retry_count", g (RecordedEvent.retry_count event) (PInt 0));
    (lit "link", g (RecordedEvent.link event) PNone);
    (lit "content_type", g (RecordedEvent.content_type event) PNone);
    (lit "created", g (RecordedEvent.created event) PNone) ].

(** The loop that removes [None] values and converts timestamps. *)
Fixpoint clean (items : list (pystr * pyval))
               (cleaned_metadata : list (pykey * pyval))
  : list (pykey * pyval) :=
  match items with
  | [] => cleaned_metadata
  | (key, value) :: rest =>
      match value with
      | PNone => clean rest cleaned_metadata
      | PDatetime d =>
          clean rest
            (dict_set (KStr key) (PInt (RecordedEvent.timestamp d))
                      cleaned_metadata)
      | _ => clean rest (dict_set (KStr key) value cleaned_metadata)
      end
  end.

Definition cleaned_metadata (event : RecordedEvent.t) : list (pykey * pyval) :=
  clean (metadata event) [].

Definition _serialize_metadata (event : RecordedEvent.t) : result pystr :=
  Json.dumps (PDict (cleaned_metadata event)).

Definition __init__ (event : RecordedEvent.t) (validate : bool) : result t :=
  let id := RecordedEvent.id event in
  let type := or_unknown (RecordedEvent.type event) in
  let stream_name := or_unknown (RecordedEvent.stream_name event) in
  let recorded_at := RecordedEvent.timestamp (RecordedEvent.recorded_at event) in
  bind (_process_event_data (RecordedEvent.data event) validate) (fun data =>
  bind (_serialize_metadata event) (fun eventstore_metadata =>
  Ok {| id := id; recorded_at := recorded_at; type := type;
        stream_name := stream_name; data := data;
        eventstore_metadata := eventstore_metadata |})).

End SQLiteEvent.


(* ================================================================== *)
(** * The [sqlite3] driver *)
(* ================================================================== *)

(** One connection to one database file.  The file holds the committed
    tables; the connection sees its own pending writes on top of them until
    it commits.  Every call of the driver is entered in a journal, and the
    environment may refuse any call ([io_fault], by position in the journal:
    a locked file, a full disk).  The column [processed_at], filled by the
    database with the time of the insertion, is left out of the rows. *)
Module Sqlite3.
Import Py.

Inductive statement : Type :=
| Pragma (setting : string)
| SelectEventsTable           (* SELECT name FROM sqlite_master ... *)
| CreateEvents                (* CREATE TABLE events (...) *)
| CreateConversionMetadata    (* CREATE TABLE conversion_metadata (...) *)
| CreateIndex (name : string) (* CREATE INDEX IF NOT EXISTS ... *)
| ReplaceMetadata (key value : pystr)
| SelectCount                 (* SELECT COUNT( * ) FROM events *)
| SelectRange.                (* SELECT MIN(recorded_at), MAX(recorded_at) *)

Inductive call : Type :=
| Connect
| Execute (sql : statement)
| ExecuteMany (rows : list SQLiteEvent.t)
| Commit
| Close.

(** A table that was never created is [None]. *)
Record Tables : Type := {
  events : option (list SQLiteEvent.t);
  conversion_metadata : option (list (pystr * pystr))
}.

Record Database : Type := {
  disk : Tables;
  view : Tables;
  closed : bool;
  io_fault : nat -> bool;
  journal : list call
}.

Definition set_view (v : Tables) (d : Database) : Database :=
  {| disk := disk d; view := v; closed := closed d;
     io_fault := io_fault d; journal := journal d |}.

Definition log_call (c : call) (d : Database) : Database :=
  {| disk := disk d; view := view d; closed := closed d;
     io_fault := io_fault d; journal := journal d ++ [c] |}.

(** The common part of every call on an open connection: it is journaled,
    refused on a closed connection, and may be refused by the environment. *)
Definition driver_call {A} (c : call)
           (run : Database -> result A * Database) (d : Database)
  : result A * Database :=
  let refused := io_fault d (List.length (journal d)) in
  let d1 := log_call c d in
  if closed d then (Raise (Sqlite3Error ProgrammingError), d1)
  else if refused then (Raise (Sqlite3Error OperationalError), d1)
  else run d1.

(** [sqlite3.connect(path)]: a new connection on the file. *)
Definition connect (d : Database) : result unit * Database :=
  let refused := io_fault d (List.length (journal d)) in
  let d1 := log_call Connect d in
  if refused then (Raise (Sqlite3Error OperationalError), d1)
  else (Ok tt, {| disk := disk d1; view := disk d1; closed := false;
                  io_fault := io_fault d1; journal := journal d1 |}).

(** [length(X)] of SQLite on text: the characters before the first NUL. *)
Fixpoint sql_length (s : pystr) : Z :=
  match s with
  | [] => 0
  | c :: s' => if (c =? 0)%N then 0 else 1 + sql_length s'
  end.

(** The three CHECK constraints of the table [events]. *)
Definition check_constraints (r : SQLiteEvent.t) : bool :=
  ((SQLiteEvent.recorded_at r >? 0) &&
   (sql_length (SQLiteEvent.type r) >? 0) &&
   (sql_length (SQLiteEvent.stream_name r) >? 0))%Z.

Definition encodable (s : pystr) : bool :=
  match utf8_encode s with Some _ => true | None => false end.

(** Binding the six parameters of a row: text goes as UTF-8, integers as
    64-bit signed. *)
Definition bind_parameters (r : SQLiteEvent.t) : result unit :=
  if negb (encodable (SQLiteEvent.id r) &&
           encodable (SQLiteEvent.type r) &&
           encodable (SQLiteEvent.stream_name r) &&
           match SQLiteEvent.data r with
           | Some s => encodable s
           | None => true
           end &&
           encodable (SQLiteEvent.eventstore_metadata r))
  then Raise UnicodeEncodeError
  else if negb ((- 2 ^ 63 <=? SQLiteEvent.recorded_at r) &&
                (SQLiteEvent.recorded_at r <? 2 ^ 63))%Z
  then Raise OverflowError
  else Ok tt.

Definition same_id (r r' : SQLiteEvent.t) : bool :=
  pystr_eqb (SQLiteEvent.id r) (SQLiteEvent.id r').

(** [INSERT OR REPLACE INTO events ... VALUES (?, ?, ?, ?, ?, ?)] for one
    row: a row with the same primary key gives way to the new one; a CHECK
    constraint that fails aborts the statement. *)
Definition insert_or_replace (r : SQLiteEvent.t) (tbl : list SQLiteEvent.t)
  : result (list SQLiteEvent.t) :=
  match bind_parameters r with
  | Raise e => Raise e
  | Ok _ =>
      if check_constraints r
      then Ok (filter (fun r' => negb (same_id r r')) tbl ++ [r])
      else Raise (Sqlite3Error IntegrityError)
  end.

(** The rows of [executemany], one statement after the other; the rows
    written before a failing one stay in the pending transaction. *)
Fixpoint insert_rows (rows : list SQLiteEvent.t) (tbl : list SQLiteEvent.t)
  : result unit * list SQLiteEvent.t :=
  match rows with
  | [] => (Ok tt, tbl)
  | r :: rest =>
      match insert_or_replace r tbl with
      | Ok tbl' => insert_rows rest tbl'
      | Raise e => (Raise e, tbl)
      end
  end.

Definition executemany (rows : list SQLiteEvent.t) : Database -> result unit * Database :=
  driver_call (ExecuteMany rows) (fun d =>
    match events (view d) with
    | None => (Raise (Sqlite3Error OperationalError), d)
    | Some tbl =>
        let (r, tbl') := insert_rows rows tbl in
        (r, set_view {| events := Some tbl';
                        conversion_metadata := conversion_metadata (view d) |} d)
    end).

Definition replace_metadata (key value : pystr) (m : list (pystr * pystr))
  : list (pystr * pystr) :=
  filter (fun kv => negb (pystr_eqb key (fst kv))) m ++ [(key, value)].

(** [execute] of a statement that returns no row. *)
Definition execute (sql : statement) : Database -> result unit * Database :=
  driver_call (Execute sql) (fun d =>
    let v := view d in
    match sql with
    | Pragma _ => (Ok tt, d)
    | CreateEvents =>
        match events v with
        | Some _ => (Raise (Sqlite3Error OperationalError), d)
        | None =>
            (Ok tt, set_view {| events := Some [];
                                conversion_metadata := conversion_metadata v |} d)
        end
    | CreateConversionMetadata =>
        match conversion_metadata v with
        | Some _ => (Raise (Sqlite3Error OperationalError), d)
        | None =>
            (Ok tt, set_view {| events := events v;
                                conversion_metadata := Some [] |} d)
        end
    | CreateIndex _ =>
        match events v with
        | Some _ => (Ok tt, d)
        | None => (Raise (Sqlite3Error OperationalError), d)
        end
    | ReplaceMetadata key value =>
        match conversion_metadata v with
        | Some m =>
            (Ok tt, set_view {| events := events v;
                                conversion_metadata :=
                                  Some (replace_metadata key value m) |} d)
        | None => (Raise (Sqlite3Error OperationalError), d)
        end
    | SelectEventsTable | SelectCount | SelectRange => (Ok tt, d)
    end).

(** The three queries, with the row [fetchone] gives. *)
Definition select_events_table : Database -> result bool * Database :=
  driver_call (Execute SelectEventsTable) (fun d =>
    (Ok (match events (view d) with Some _ => true | None => false end), d)).

Definition select_count : Database -> result Z * Database :=
  driver_call (Execute SelectCount) (fun d =>
    match events (view d) with
    | Some tbl => (Ok (Z.of_nat (List.length tbl)), d)
    | None => (Raise (Sqlite3Error OperationalError), d)
    end).

Definition minimum (l : list Z) : option Z :=
  match l with
  | [] => None
  | x :: xs => Some (fold_left Z.min xs x)
  end.

Definition maximum (l : list Z) : option Z :=
  match l with
  | [] => None
  | x :: xs => Some (fold_left Z.max xs x)
  end.

Definition select_range : Database -> result (option Z * option Z) * Database :=
  driver_call (Execute SelectRange) (fun d =>
    match events (view d) with
    | Some tbl =>
        let ts := List.map SQLiteEvent.recorded_at tbl in
        (Ok (minimum ts, maximum ts), d)
    | None => (Raise (Sqlite3Error OperationalError), d)
    end).

Definition commit : Database -> result unit * Database :=
  driver_call Commit (fun d =>
    (Ok tt, {| disk := view d; view := view d; closed := closed d;
               io_fault := io_fault d; journal := journal d |})).

(** [connection.close()]: pending writes are dropped; closing a closed
    connection does nothing. *)
Definition close (d : Database) : result unit * Database :=
  let refused := io_fault d (List.length (journal d)) in
  let d1 := log_call Close d in
  if closed d then (Ok tt, d1)
  else if refused then (Raise (Sqlite3Error OperationalError), d1)
  else (Ok tt, {| disk := disk d1; view := disk d1; closed := true;
                  io_fault := io_fault d1; journal := journal d1 |}).

End Sqlite3.

(* ================================================================== *)
(** * Configuration, state and control *)
(* ================================================================== *)

Module ConversionConfig.
Import Py.

Record t : Type := {
  eventstore_uri : pystr;
  db_path : pystr;
  batch_size : Z;
  commit_frequency : Z;
  validate_data : bool;
  create_indexes : bool
}.

Definition __post_init__ (self : t) : result unit :=
  match eventstore_uri self with
  | [] => Raise ValueError
  | _ :: _ =>
      if (batch_size self <=? 0)%Z then Raise ValueError
      else if (commit_frequency self <=? 0)%Z then Raise ValueError
      else Ok tt
  end.

End ConversionConfig.

(** The statistics dictionary. *)
Module Stats.

Inductive value : Type :=
| Int (z : Z)
| Float (q : Q)
| Range (low high : option Z).

Definition dict := list (string * value).

Fixpoint get (key : string) (d : dict) : option value :=
  match d with
  | [] => None
  | (k, v) :: d' => if String.eqb key k then Some v else get key d'
  end.

Fixpoint set (key : string) (v : value) (d : dict) : dict :=
  match d with
  | [] => [(key, v)]
  | (k, v') :: d' =>
      if String.eqb key k then (k, v) :: d' else (k, v') :: set key v d'
  end.

(** [d.update(other)] *)
Definition update (d other : dict) : dict :=
  fold_left (fun acc kv => set (fst kv) (snd kv) acc) other d.

(** [v == 0] *)
Definition is_zero (v : value) : bool :=
  match v with
  | Int z => (z =? 0)%Z
  | Float q => Qeq_bool q 0
  | Range _ _ => false
  end.

End Stats.

(** The state the program runs in: the [SQLiteEventStore] instance, the
    connection object it may refer to, the local variables of
    [convert_events], the clock, and the two handles of the event source.
    Messages to the logger are not modelled. *)
Module Runtime.
Import Py.

Inductive connection_ref : Type := the_connection.

(** The attributes of a [SQLiteEventStore]. *)
Record store : Type := {
  config : ConversionConfig.t;
  connection : option connection_ref;
  events_processed : Z;
  batches_processed : Z
}.

(** The local variables of [convert_events]. *)
Record frame : Type := {
  events_batch : list SQLiteEvent.t;
  total_processed : Z;
  skipped_events : Z
}.

Record World : Type := {
  db : store;
  database : Sqlite3.Database;
  locals : frame;
  clock : nat -> Q;      (* the successive readings of [time.time()] *)
  ticks : nat;
  st_size : Z;           (* the size of the database file, in bytes *)
  reader_stops : nat;    (* calls of [read_response.stop()] *)
  client_closed : bool
}.

Definition M (A : Type) : Type := World -> result A * World.

Definition ret {A} (a : A) : M A := fun w => (Ok a, w).
Definition raise {A} (e : exn) : M A := fun w => (Raise e, w).

Definition bind {A B} (m : M A) (k : A -> M B) : M B :=
  fun w =>
    match m w with
    | (Ok a, w') => k a w'
    | (Raise e, w') => (Raise e, w')
    end.

Definition lift {A} (r : result A) : M A := fun w => (r, w).

(** [try: body finally: cleanup] *)
Definition try_finally {A} (body : M A) (cleanup : M unit) : M A :=
  fun w =>
    let (r, w1) := body w in
    match cleanup w1 with
    | (Ok _, w2) => (r, w2)
    | (Raise e, w2) => (Raise e, w2)
    end.

(** [try: body except <class> as e: handler], the class given by a test *)
Definition try_except {A} (body : M A) (caught : exn -> bool)
           (handler : exn -> M A) : M A :=
  fun w =>
    match body w with
    | (Ok a, w1) => (Ok a, w1)
    | (Raise e, w1) => if caught e then handler e w1 else (Raise e, w1)
    end.

Definition is_sqlite3_error (e : exn) : bool :=
  match e with Sqlite3Error _ => true | _ => false end.

Definition is_validation_error (e : exn) : bool :=
  match e with EventValidationError _ => true | _ => false end.

(** Every exception of the model derives from [Exception]. *)
Definition is_exception (e : exn) : bool := true.

Definition get : M World := fun w => (Ok w, w).

Definition set_db (s : store) : M unit :=
  fun w => (Ok tt, {| db := s; database := database w; locals := locals w;
                      clock := clock w; ticks := ticks w; st_size := st_size w;
                      reader_stops := reader_stops w;
                      client_closed := client_closed w |}).

Definition set_locals (f : frame) : M unit :=
  fun w => (Ok tt, {| db := db w; database := database w; locals := f;
                      clock := clock w; ticks := ticks w; st_size := st_size w;
                      reader_stops := reader_stops w;
                      client_closed := client_closed w |}).

(** A call of the driver on the connection object. *)
Definition driver {A} (f : Sqlite3.Database -> result A * Sqlite3.Database)
  : M A :=
  fun w =>
    let (r, d) := f (database w) in
    (r, {| db := db w; database := d; locals := locals w;
           clock := clock w; ticks := ticks w; st_size := st_size w;
           reader_stops := reader_stops w;
           client_closed := client_closed w |}).

(** [time.time()] *)
Definition time : M Q :=
  fun w => (Ok (clock w (ticks w)),
            {| db := db w; database := database w; locals := locals w;
               clock := clock w; ticks := S (ticks w); st_size := st_size w;
               reader_stops := reader_stops w;
               client_closed := client_closed w |}).

(** [read_response.stop()] *)
Definition stop : M unit :=
  fun w => (Ok tt,
            {| db := db w; database := database w; locals := locals w;
               clock := clock w; ticks := ticks w; st_size := st_size w;
               reader_stops := S (reader_stops w);
               client_closed := client_closed w |}).

(** [client.close()] *)
Definition client_close : M unit :=
  fun w => (Ok tt,
            {| db := db w; database := database w; locals := locals w;
               clock := clock w; ticks := ticks w; st_size := st_size w;
               reader_stops := reader_stops w; client_closed := true |}).

Declare Scope py_scope.
Delimit Scope py_scope with py.
Notation "x <- m ;; k" := (bind m (fun x => k))
  (at level 61, m at next level, right associativity) : py_scope.
Notation "m ;; k" := (bind m (fun _ => k))
  (at level 61, right associativity) : py_scope.

End Runtime.

(* ================================================================== *)
(** * [SQLiteEventStore] *)
(* ================================================================== *)

Module SQLiteEventStore.
Import Py Runtime.
Local Open Scope py_scope.
Local Open Scope Z_scope.

Definition with_connection (c : option connection_ref) (s : store) : store :=
  {| config := config s; connection := c;
     events_processed := events_processed s;
     batches_processed := batches_processed s |}.

Definition __init__ (cfg : ConversionConfig.t) : M unit :=
  set_db {| config := cfg; connection := None;
            events_processed := 0; batches_processed := 0 |}.

Definition _create_schema : M unit :=
  w <- get ;;
  match connection (db w) with
  | None => raise RuntimeError
  | Some _ =>
      table_exists <- driver Sqlite3.select_events_table ;;
      if table_exists then ret tt
      else
        driver (Sqlite3.execute Sqlite3.CreateEvents) ;;
        driver (Sqlite3.execute Sqlite3.CreateConversionMetadata) ;;
        driver Sqlite3.commit
  end.

Definition _create_indexes : M unit :=
  w <- get ;;
  match connection (db w) with
  | None => raise RuntimeError
  | Some _ =>
      driver (Sqlite3.execute (Sqlite3.CreateIndex "idx_events_recorded_at")) ;;
      driver (Sqlite3.execute (Sqlite3.CreateIndex "idx_events_type")) ;;
      driver (Sqlite3.execute (Sqlite3.CreateIndex "idx_events_stream")) ;;
      driver (Sqlite3.execute (Sqlite3.CreateIndex "idx_events_processed_at")) ;;
      driver Sqlite3.commit
  end.

Definition connect : M unit :=
  try_except
    (driver Sqlite3.connect ;;
     w <- get ;;
     set_db (with_connection (Some the_connection) (db w)) ;;
     driver (Sqlite3.execute (Sqlite3.Pragma "journal_mode=WAL")) ;;
     driver (Sqlite3.execute (Sqlite3.Pragma "synchronous=NORMAL")) ;;
     driver (Sqlite3.execute (Sqlite3.Pragma "cache_size=10000")) ;;
     driver (Sqlite3.execute (Sqlite3.Pragma "temp_store=MEMORY")) ;;
     _create_schema ;;
     w <- get ;;
     if ConversionConfig.create_indexes (config (db w))
     then _create_indexes
     else ret tt)
    is_sqlite3_error
    (fun e => raise e).

Definition save_events_batch (events : list SQLiteEvent.t) : M unit :=
  w <- get ;;
  match events, connection (db w) with
  | [], _ | _, None => ret tt
  | _ :: _, Some _ =>
      try_except
        (driver (Sqlite3.executemany events) ;;
         w <- get ;;
         let s := db w in
         set_db {| config := config s; connection := connection s;
                   events_processed :=
                     events_processed s + Z.of_nat (List.length events);
                   batches_processed := batches_processed s |} ;;
         w <- get ;;
         let s := db w in
         set_db {| config := config s; connection := connection s;
                   events_processed := events_processed s;
                   batches_processed := batches_processed s + 1 |} ;;
         w <- get ;;
         r <- lift (py_mod (batches_processed (db w))
                           (ConversionConfig.commit_frequency (config (db w)))) ;;
         if r =? 0 then driver Sqlite3.commit else ret tt)
        is_sqlite3_error
        (fun e => raise e)
  end.

Definition update_conversion_metadata (key value : pystr) : M unit :=
  w <- get ;;
  match connection (db w) with
  | None => ret tt
  | Some _ => driver (Sqlite3.execute (Sqlite3.ReplaceMetadata key value))
  end.

Definition get_stats : M Stats.dict :=
  w <- get ;;
  match connection (db w) with
  | None => ret []
  | Some _ =>
      total_events <- driver Sqlite3.select_count ;;
      date_range <- driver Sqlite3.select_range ;;
      w <- get ;;
      ret [ ("total_events"%string, Stats.Int total_events);
            ("events_processed_this_session"%string,
             Stats.Int (events_processed (db w)));
            ("batches_processed"%string,
             Stats.Int (batches_processed (db w)));
            ("date_range"%string,
             Stats.Range (fst date_range) (snd date_range));
            ("database_size_mb"%string,
             Stats.Float (inject_Z (st_size w) / inject_Z (1024 * 1024))%Q) ]
  end.

Definition close : M unit :=
  w <- get ;;
  match connection (db w) with
  | None => ret tt
  | Some _ =>
      try_finally
        (try_except
           (driver Sqlite3.commit ;;
            now <- time ;;
            update_conversion_metadata (lit "last_conversion")
                                       (int_str (py_int now)) ;;
            w <- get ;;
            update_conversion_metadata (lit "total_events")
                                       (int_str (events_processed (db w))) ;;
            driver Sqlite3.commit ;;
            driver Sqlite3.close)
           is_sqlite3_error
           (fun _ => ret tt))
        (w <- get ;; set_db (with_connection None (db w)))
  end.

(** [with SQLiteEventStore(db_path, config) as db: body] *)
Definition with_store {A} (cfg : ConversionConfig.t) (body : M A) : M A :=
  __init__ cfg ;;
  connect ;;
  try_finally body close.

End SQLiteEventStore.

(* ================================================================== *)
(** * [convert_events] *)
(* ================================================================== *)

Module Main.
Import Py Runtime.
Local Open Scope py_scope.
Local Open Scope Z_scope.

(** The event store, as one run sees it: whether the client can be built,
    the events [read_all()] yields, and the exception the reader raises
    after them, if it does. *)
Record EventStore : Type := {
  connect_error : option exn;
  stream : list RecordedEvent.t;
  read_error : option exn
}.

(** [except (ConnectionError, OSError, ValueError)] *)
Definition is_connection_failure (e : exn) : bool :=
  match e with
  | ConnectionError | ValueError | UnicodeEncodeError => true
  | _ => false
  end.

(** [with eventstore_client(uri) as client: body].  The body runs at the
    [yield] of the generator, inside its [try]: the [except] clauses see
    the exceptions of the body too.  The connection test, whose outcome is
    ignored, is left out. *)
Definition eventstore_client {A} (source : EventStore) (body : M A) : M A :=
  match connect_error source with
  | Some e =>
      if is_connection_failure e then raise ConnectionError else raise e
  | None =>
      try_finally
        (try_except body is_connection_failure
                    (fun _ => raise ConnectionError))
        client_close
  end.

Definition set_events_batch (b : list SQLiteEvent.t) : M unit :=
  w <- get ;;
  set_locals {| events_batch := b;
                total_processed := total_processed (locals w);
                skipped_events := skipped_events (locals w) |}.

Definition set_total_processed (n : Z) : M unit :=
  w <- get ;;
  set_locals {| events_batch := events_batch (locals w);
                total_processed := n;
                skipped_events := skipped_events (locals w) |}.

Definition set_skipped_events (n : Z) : M unit :=
  w <- get ;;
  set_locals {| events_batch := events_batch (locals w);
                total_processed := total_processed (locals w);
                skipped_events := n |}.

(** [len(events_batch)] *)
Definition len (b : list SQLiteEvent.t) : Z := Z.of_nat (List.length b).

(** The body of the [for] loop. *)
Definition process_event (config : ConversionConfig.t)
           (event : RecordedEvent.t) : M unit :=
  try_except
    (sqlite_event <- lift (SQLiteEvent.__init__ event
                             (ConversionConfig.validate_data config)) ;;
     w <- get ;;
     set_events_batch (events_batch (locals w) ++ [sqlite_event]) ;;
     w <- get ;;
     if len (events_batch (locals w)) >=? ConversionConfig.batch_size config
     then
       SQLiteEventStore.save_events_batch (events_batch (locals w)) ;;
       set_total_processed
         (total_processed (locals w) + len (events_batch (locals w))) ;;
       w <- get ;;
       (* the progress message *)
       _ <- lift (py_mod (total_processed (locals w))
                         (ConversionConfig.batch_size config * 10)) ;;
       set_events_batch []
     else ret tt)
    is_validation_error
    (fun _ =>
       w <- get ;;
       set_skipped_events (skipped_events (locals w) + 1)).

(** [for event in read_response: ...] *)
Fixpoint for_each_event (config : ConversionConfig.t)
         (events : list RecordedEvent.t) (error : option exn) : M unit :=
  match events with
  | [] =>
      match error with
      | Some e => raise e
      | None => ret tt
      end
  | event :: rest =>
      process_event config event ;;
      for_each_event config rest error
  end.

(** "Process remaining events in the last batch". *)
Definition flush_remaining : M unit :=
  w <- get ;;
  match events_batch (locals w) with
  | [] => ret tt
  | _ :: _ =>
      SQLiteEventStore.save_events_batch (events_batch (locals w)) ;;
      set_total_processed
        (total_processed (locals w) + len (events_batch (locals w)))
  end.

(** The inner [try ... finally] of [convert_events]. *)
Definition ingest (config : ConversionConfig.t) (source : EventStore) : M unit :=
  try_finally
    (for_each_event config (stream source) (read_error source) ;;
     flush_remaining)
    stop.

(** [total_processed / duration if duration > 0 else 0] *)
Definition events_per_second (total_processed : Z) (duration : Q)
  : result Stats.value :=
  if Qlt_le_dec 0 duration
  then match py_truediv (inject_Z total_processed) duration with
       | Ok q => Ok (Stats.Float q)
       | Raise e => Raise e
       end
  else Ok (Stats.Int 0).

(** The [try] block of [convert_events], [start_time] being the reading of
    the clock at the start of the run. *)
Definition conversion (config : ConversionConfig.t) (source : EventStore)
           (start_time : Q) : M Stats.dict :=
  set_locals {| events_batch := [];
                total_processed := 0;
                skipped_events := 0 |} ;;
  ingest config source ;;
  stats <- SQLiteEventStore.get_stats ;;
  now <- time ;;
  let duration := (now - start_time)%Q in
  w <- get ;;
  rate <- lift (events_per_second (total_processed (locals w)) duration) ;;
  ret (Stats.update stats
         [ ("conversion_duration_seconds"%string, Stats.Float duration);
           ("events_per_second"%string, rate);
           ("skipped_events"%string,
            Stats.Int (skipped_events (locals w))) ]).

Definition convert_events (config : ConversionConfig.t) (source : EventStore)
  : M Stats.dict :=
  start_time <- time ;;
  eventstore_client source
    (SQLiteEventStore.with_store config
       (try_except (conversion config source start_time)
                   is_exception
                   (fun e => raise e))).

(** The state a run starts from, given the database file and the
    environment. *)
Definition initial_world (config : ConversionConfig.t)
           (file : Sqlite3.Tables) (io_fault : nat -> bool)
           (clock : nat -> Q) (st_size : Z) : World :=
  {| db := {| config := config; connection := None;
              events_processed := 0; batches_processed := 0 |};
     database := {| Sqlite3.disk := file; Sqlite3.view := file;
                    Sqlite3.closed := true;
                    Sqlite3.io_fault := io_fault;
                    Sqlite3.journal := [] |};
     locals := {| events_batch := []; total_processed := 0;
                  skipped_events := 0 |};
     clock := clock; ticks := 0; st_size := st_size;
     reader_stops := 0; client_closed := false |}.

End Main.


(* ================================================================== *)
(** * Vocabulary of the statements *)
(* ================================================================== *)

Module Spec.
Import Py.

(** The text a payload resolves to, when it does: text as it is, bytes
    decoded, any other value but [None] encoded. *)
Definition payload_text (data : pyval) : option pystr :=
  match data with
  | PNone => None
  | PStr s => Some s
  | PBytes b => utf8_decode b
  | _ => Json.encode data
  end.

(** What the metadata keeps of a looked-up value. *)
Definition converted (value : pyval) : option pyval :=
  match value with
  | PNone => None
  | PDatetime d => Some (PInt (RecordedEvent.timestamp d))
  | v => Some v
  end.

Definition retained (items : list (pystr * pyval)) : list (pykey * pyval) :=
  flat_map (fun kv => match converted (snd kv) with
                      | Some v => [(KStr (fst kv), v)]
                      | None => []
                      end) items.

Definition starts_with_nul (s : pystr) : bool :=
  match s with
  | c :: _ => (c =? 0)%N
  | [] => false
  end.

(** The encoded entries of a dictionary and items of a list, as the two
    inner loops of [Json.encode] compute them. *)
Fixpoint entries_parts (l : list (pykey * pyval)) : option (list pystr) :=
  match l with
  | [] => Some []
  | (k, x) :: xs =>
      match Json.encode_key k, Json.encode x, entries_parts xs with
      | Some pk, Some p, Some ps => Some ((pk ++ Json.key_separator ++ p) :: ps)
      | _, _, _ => None
      end
  end.

Fixpoint items_parts (l : list pyval) : option (list pystr) :=
  match l with
  | [] => Some []
  | x :: xs =>
      match Json.encode x, items_parts xs with
      | Some p, Some ps => Some (p :: ps)
      | _, _ => None
      end
  end.

Fixpoint all_distinct (l : list pystr) : bool :=
  match l with
  | [] => true
  | x :: r => negb (existsb (pystr_eqb x) r) && all_distinct r
  end.



(** Sample events. *)
Definition sample_event (id : pystr) (type : option pystr) (data : pyval)
           (retry_count link : option pyval) : RecordedEvent.t :=
  {| RecordedEvent.id := id;
     RecordedEvent.type := type;
     RecordedEvent.stream_name := Some (lit "orders");
     RecordedEvent.recorded_at := 1672574400%Z;
     RecordedEvent.data := data;
     RecordedEvent.stream_position := Some (PInt 1);
     RecordedEvent.commit_position := Some (PInt 100);
     RecordedEvent.prepare_position := None;
     RecordedEvent.retry_count := retry_count;
     RecordedEvent.link := link;
     RecordedEvent.content_type := Some (PStr (lit "application/json"));
     RecordedEvent.created := Some (PDatetime 1672574400%Z) |}.


(** ** JSON documents *)

Local Open Scope N_scope.

(** A code point that is a Unicode scalar value: in range, and no surrogate. *)
Definition scalar (c : codepoint) : bool :=
  (c <? 0x110000) && negb (is_surrogate c).

Definition scalar_text (s : pystr) : bool := forallb scalar s.

Definition text_key (k : pykey) : option pystr :=
  match k with
  | KStr s => Some s
  | _ => None
  end.

(** The values JSON has a form of its own for: [None], booleans, integers,
    text of scalar values, lists, and dictionaries whose keys are such texts. *)
Fixpoint json_native (v : pyval) : bool :=
  match v with
  | PNone | PBool _ | PInt _ => true
  | PStr s => scalar_text s
  | PList items => forallb json_native items
  | PDict entries =>
      forallb (fun kv => match text_key (fst kv) with
                         | Some s => scalar_text s
                         | None => false
                         end && json_native (snd kv)) entries
  | PTuple _ | PBytes _ | PDatetime _ | PObject _ => false
  end.

Fixpoint keys_of (entries : list (pykey * pyval)) : list pystr :=
  match entries with
  | [] => []
  | (k, _) :: rest =>
      match text_key k with
      | Some s => s :: keys_of rest
      | None => keys_of rest
      end
  end.

(** A dictionary has no two equal keys, at any depth. *)
Fixpoint distinct_keys (v : pyval) : bool :=
  match v with
  | PList items | PTuple items => forallb distinct_keys items
  | PDict entries =>
      all_distinct (keys_of entries)
      && forallb (fun kv => distinct_keys (snd kv)) entries
  | _ => true
  end.


(** What may follow a value in a document: nothing, or a character that no
    number goes on with. *)
Definition delimited (rest : pystr) : Prop :=
  match rest with
  | [] => True
  | c :: _ => Json.digit_val c = None /\ c <> 46 /\ c <> 101 /\ c <> 69
  end.

(** The characters a JSON value can start with. *)
Definition value_start (c : codepoint) : bool :=
  (c =? 34) || (c =? 123) || (c =? 91) || (c =? 110) || (c =? 116)
  || (c =? 102) || (c =? 45) || in_range 48 57 c.

(** A value that comes back from its text, whatever follows the text and
    with any fuel above the length of the text. *)
Definition roundtrips (v : pyval) : Prop :=
  forall text, Json.encode v = Some text ->
  forall rest fuel, delimited rest -> (List.length text <= fuel)%nat ->
  Json.scan_once fuel (text ++ rest) = Some (v, rest).

(** The pairs the decoder reads for the entries of a dictionary. *)
Fixpoint to_pairs (entries : list (pykey * pyval)) : list (pystr * pyval) :=
  match entries with
  | [] => []
  | (k, v) :: rest =>
      match text_key k with
      | Some s => (s, v) :: to_pairs rest
      | None => to_pairs rest
      end
  end.


(** Every key of a dictionary is a text of scalar values. *)
Definition keys_ok (entries : list (pykey * pyval)) : bool :=
  forallb (fun kv => match text_key (fst kv) with
                     | Some s => scalar_text s
                     | None => false
                     end) entries.

Local Close Scope N_scope.

(** ** Runs *)

Import Runtime.

(** A computation that raises nothing but [sqlite3.Error]. *)
Definition raises_only_sqlite3 {A} (m : M A) : Prop :=
  forall w e w', m w = (Raise e, w') -> is_sqlite3_error e = true.

(** The environment refuses no call of the driver. *)
Definition no_fault (w : World) : Prop :=
  forall k, Sqlite3.io_fault (database w) k = false.

(** The store is connected to a database whose table [events] holds
    [rows] rows. *)
Definition ready (rows : Z) (w : World) : Prop :=
  connection (db w) = Some the_connection /\
  Sqlite3.closed (database w) = false /\
  no_fault w /\
  exists tbl, Sqlite3.events (Sqlite3.view (database w)) = Some tbl /\
              Z.of_nat (List.length tbl) = rows.

(** Batches written one after the other. *)
Fixpoint save_all (batches : list (list SQLiteEvent.t)) : M unit :=
  match batches with
  | [] => ret tt
  | b :: bs =>
      bind (SQLiteEventStore.save_events_batch b) (fun _ => save_all bs)
  end.

(** The calls of the driver for a run of batches, the batch counter being
    [counter] before the first: every batch is written, and a commit
    follows the batches whose number is a multiple of [n]. *)
Fixpoint cadence (n counter : Z) (batches : list (list SQLiteEvent.t))
  : list Sqlite3.call :=
  match batches with
  | [] => []
  | b :: bs =>
      Sqlite3.ExecuteMany b
        :: (if ((counter + 1) mod n =? 0)%Z then [Sqlite3.Commit] else [])
        ++ cadence n (counter + 1) bs
  end.

(** The table after the insertion or replacement of one row. *)
Definition upsert (t : list SQLiteEvent.t) (r : SQLiteEvent.t)
  : list SQLiteEvent.t :=
  filter (fun r' => negb (Sqlite3.same_id r r')) t ++ [r].

(** The batches handed to [executemany], in the order of the journal. *)
Definition writes (j : list Sqlite3.call) : list (list SQLiteEvent.t) :=
  flat_map (fun c => match c with
                     | Sqlite3.ExecuteMany rows => [rows]
                     | _ => []
                     end) j.

(** The number of rows of the table [events] of a database file. *)
Definition stored_rows (file : Sqlite3.Tables) : Z :=
  match Sqlite3.events file with
  | Some tbl => Z.of_nat (List.length tbl)
  | None => 0
  end.

Definition empty_source : Main.EventStore :=
  {| Main.connect_error := None; Main.stream := []; Main.read_error := None |}.

(** ** Sample runs *)

Definition sample_config : ConversionConfig.t :=
  {| ConversionConfig.eventstore_uri := lit "esdb://localhost:2113";
     ConversionConfig.db_path := lit "eventstore.db";
     ConversionConfig.batch_size := 2;
     ConversionConfig.commit_frequency := 2;
     ConversionConfig.validate_data := true;
     ConversionConfig.create_indexes := true |}.

Definition sample_record (id data : pystr) : SQLiteEvent.t :=
  {| SQLiteEvent.id := id;
     SQLiteEvent.recorded_at := 1672574400;
     SQLiteEvent.type := lit "OrderPlaced";
     SQLiteEvent.stream_name := lit "orders";
     SQLiteEvent.data := Some data;
     SQLiteEvent.eventstore_metadata := lit "{}" |}.

Definition new_file : Sqlite3.Tables :=
  {| Sqlite3.events := None; Sqlite3.conversion_metadata := None |}.

Definition used_file : Sqlite3.Tables :=
  {| Sqlite3.events := Some [sample_record (lit "e0") (lit "{}")];
     Sqlite3.conversion_metadata := Some [] |}.

(** The clock reads 1700000000 at the start of the run and two seconds
    more afterwards. *)
Definition sample_clock (n : nat) : Q :=
  match n with
  | O => inject_Z 1700000000
  | S _ => inject_Z 1700000002
  end.

Definition sample_world (file : Sqlite3.Tables) : World :=
  Main.initial_world sample_config file (fun _ => false) sample_clock 4096.

(** The world once the store of the sample run is connected. *)
Definition connected_world : World :=
  snd (SQLiteEventStore.connect
         (snd (SQLiteEventStore.__init__ sample_config
                 (sample_world new_file)))).

(** One event, then a failure of the reader. *)
Definition failing_source : Main.EventStore :=
  {| Main.connect_error := None;
     Main.stream := [sample_event (lit "e1") (Some (lit "OrderPlaced"))
                                  (PStr (lit "{}")) None None];
     Main.read_error := Some (ReadError 1%N) |}.

Definition three_batches : list (list SQLiteEvent.t) :=
  [ [sample_record (lit "a") (lit "1"); sample_record (lit "b") (lit "2")];
    [sample_record (lit "c") (lit "3")];
    [sample_record (lit "a") (lit "4")] ].

End Spec.

(* ================================================================== *)
(** * The command line *)
(* ================================================================== *)

(** [argparse.Namespace], with the five options of the parser. *)
Module Namespace.
Import Py.

Record t : Type := {
  db : pystr;
  batch_size : Z;
  commit_frequency : Z;
  skip_validation : bool;
  skip_indexes : bool
}.

End Namespace.

(** [create_config_from_args] and [main].  [environ] is the value of the
    environment variable [EVENTSTORE_URI], if it is set, and [resolve] the
    function [Path(...).resolve()] of the process.  [main] starts here once
    the arguments are parsed; what it prints is left out, but not the
    look-ups in the statistics that the summary makes.  Its value is the
    exit status of the process. *)
Module Cli.
Import Py Runtime.
Local Open Scope Z_scope.

Definition create_config_from_args (environ : option pystr)
           (resolve : pystr -> pystr) (args : Namespace.t)
  : result ConversionConfig.t :=
  match environ with
  | None | Some [] => Raise ValueError
  | Some (c :: uri) =>
      let db_path := resolve (Namespace.db args) in
      let config :=
        {| ConversionConfig.eventstore_uri := c :: uri;
           ConversionConfig.db_path := db_path;
           ConversionConfig.batch_size := Namespace.batch_size args;
           ConversionConfig.commit_frequency := Namespace.commit_frequency args;
           ConversionConfig.validate_data := negb (Namespace.skip_validation args);
           ConversionConfig.create_indexes := negb (Namespace.skip_indexes args) |} in
      match ConversionConfig.__post_init__ config with
      | Ok _ => Ok config
      | Raise e => Raise e
      end
  end.

(** A value the format specifications [:,], [:.2f] and [:.1f] and the
    comparison with 0 accept. *)
Definition is_number (v : Stats.value) : bool :=
  match v with
  | Stats.Int _ | Stats.Float _ => true
  | Stats.Range _ _ => false
  end.

(** [stats[key]] in a formatted line: [None] is the [KeyError] of a key
    that is missing, or the [TypeError] of a value that is no number. *)
Definition formatted (stats : Stats.dict) (key : string) : option Stats.value :=
  match Stats.get key stats with
  | Some v => if is_number v then Some v else None
  | None => None
  end.

(** The summary, line after line; [None] is an exception. *)
Definition print_summary (stats : Stats.dict) : option unit :=
  match formatted stats "total_events" with
  | None => None
  | Some _ =>
  match formatted stats "conversion_duration_seconds" with
  | None => None
  | Some _ =>
  match formatted stats "events_per_second" with
  | None => None
  | Some _ =>
  match formatted stats "database_size_mb" with
  | None => None
  | Some _ =>
  match formatted stats "skipped_events" with
  | None => None
  | Some _ => Some tt
  end end end end end.


End Cli.

(* ================================================================== *)
(** * Vocabulary of further statements *)
(* ================================================================== *)

Module Props.
Import Py Runtime.

(** Text of ASCII characters only. *)
Definition ascii (s : pystr) : bool := forallb (fun c => (c <? 128)%N) s.

(** The records of the events that the normalisation accepts, in the
    order of the events. *)
Definition accepted (validate : bool) (events : list RecordedEvent.t)
  : list SQLiteEvent.t :=
  flat_map (fun event => match SQLiteEvent.__init__ event validate with
                         | Ok r => [r]
                         | Raise _ => []
                         end) events.

(** What holds of the outcome of a computation: [Q] of the value and the
    state when it returns, [E] of the exception and the state when it
    raises. *)
Definition outcome {A} (Q : A -> World -> Prop) (E : exn -> World -> Prop)
           (r : result A * World) : Prop :=
  match r with
  | (Ok a, w) => Q a w
  | (Raise e, w) => E e w
  end.

(** The store refers to its connection, and its configuration is [cfg]. *)
Definition connected (cfg : ConversionConfig.t) (w : World) : Prop :=
  connection (db w) = Some the_connection /\ config (db w) = cfg.

(** The exceptions that the processing of events lets through: those of
    the driver, of the binding of a row, of the serialisation of the
    metadata, of the encoding of a text, and those of the reader. *)
Definition lets_through (source : Main.EventStore) (e : exn) : Prop :=
  is_sqlite3_error e = true \/ e = TypeError \/ e = OverflowError \/
  e = UnicodeEncodeError \/ Main.read_error source = Some e.

(** The exceptions that leave the [with] block of the store: those above,
    and the division by zero that a configuration that was not validated
    brings about. *)
Definition may_raise (cfg : ConversionConfig.t) (source : Main.EventStore)
           (e : exn) : Prop :=
  lets_through source e \/
  (e = ZeroDivisionError /\
   (ConversionConfig.commit_frequency cfg = 0%Z \/
    ConversionConfig.batch_size cfg = 0%Z)).

(** The two handles of the event source: how often the reader was stopped,
    and whether the client is closed. *)
Definition handles (w : World) : nat * bool := (reader_stops w, client_closed w).

(** The store is connected and the handles are [h]. *)
Definition running (cfg : ConversionConfig.t) (h : nat * bool) (w : World)
  : Prop :=
  connected cfg w /\ handles w = h.

(** An exception of the processing, the handles being [h]. *)
Definition failing (cfg : ConversionConfig.t) (source : Main.EventStore)
           (h : nat * bool) (e : exn) (w : World) : Prop :=
  may_raise cfg source e /\ connected cfg w /\ handles w = h.

(** A call of the driver is refused, the store keeping its configuration
    and the handles being [h]. *)
Definition refused (cfg : ConversionConfig.t) (h : nat * bool) (e : exn)
           (w : World) : Prop :=
  is_sqlite3_error e = true /\ config (db w) = cfg /\ handles w = h.

(** The eight entries of the statistics of a run. *)
Definition statistics_keys : list string :=
  [ "total_events"; "events_processed_this_session"; "batches_processed";
    "date_range"; "database_size_mb"; "conversion_duration_seconds";
    "events_per_second"; "skipped_events" ]%string.

(** The progress of the loop from [w] to [w'], having read [events]: the
    batches [new], all full, were handed to the driver; the records the
    normalisation accepted are those written and those in the buffer; the
    counters of the loop and of the store follow. *)
Definition advanced (cfg : ConversionConfig.t) (events : list RecordedEvent.t)
           (w w' : World) (new : list (list SQLiteEvent.t)) : Prop :=
  let size := ConversionConfig.batch_size cfg in
  let validate := ConversionConfig.validate_data cfg in
  (Spec.writes (Sqlite3.journal (database w'))
     = Spec.writes (Sqlite3.journal (database w)) ++ new /\
   Forall (fun b => Main.len b = size) new /\
   List.concat new ++ events_batch (locals w')
     = events_batch (locals w) ++ accepted validate events /\
   total_processed (locals w')
     = total_processed (locals w) + Main.len (List.concat new) /\
   skipped_events (locals w')
     = skipped_events (locals w)
       + (Z.of_nat (List.length events) - Main.len (accepted validate events)) /\
   events_processed (db w')
     = events_processed (db w) + Main.len (List.concat new) /\
   batches_processed (db w')
     = batches_processed (db w) + Z.of_nat (List.length new))%Z.

(** From [w] to [w'] the connection stayed as it was, and [rows] were
    written to the table [events] in the open transaction. *)
Definition pending (w w' : World) (rows : list SQLiteEvent.t) : Prop :=
  Sqlite3.closed (database w') = Sqlite3.closed (database w) /\
  Sqlite3.io_fault (database w') = Sqlite3.io_fault (database w) /\
  Sqlite3.conversion_metadata (Sqlite3.view (database w'))
    = Sqlite3.conversion_metadata (Sqlite3.view (database w)) /\
  forall tbl,
    Sqlite3.events (Sqlite3.view (database w)) = Some tbl ->
    Sqlite3.events (Sqlite3.view (database w'))
      = Some (fold_left Spec.upsert rows tbl).

(** A database file the converter can use: one that is new, or one that
    has the two tables. *)
Definition usable (file : Sqlite3.Tables) : Prop :=
  match Sqlite3.events file, Sqlite3.conversion_metadata file with
  | Some _, Some _ | None, None => True
  | _, _ => False
  end.

(** The tables of a usable file once the schema is there. *)
Definition rows_of (file : Sqlite3.Tables) : list SQLiteEvent.t :=
  match Sqlite3.events file with
  | Some tbl => tbl
  | None => []
  end.

Definition metadata_of (file : Sqlite3.Tables) : list (pystr * pystr) :=
  match Sqlite3.conversion_metadata file with
  | Some m => m
  | None => []
  end.

(** The loop goes past an event: its normalisation succeeds, or fails
    with a validation error. *)
Definition handled (validate : bool) (event : RecordedEvent.t) : Prop :=
  match SQLiteEvent.__init__ event validate with
  | Ok _ => True
  | Raise e => is_validation_error e = true
  end.

(** The batches of a run: full ones, then at most one that is shorter and
    not empty. *)
Definition batched (size : Z) (batches : list (list SQLiteEvent.t)) : Prop :=
  exists full rest,
    batches = full ++ rest /\
    Forall (fun b => Main.len b = size) full /\
    match rest with
    | [] => True
    | [b] => (0 < Main.len b < size)%Z
    | _ => False
    end.

(** ** Sample data *)

(** Four events: the second has a payload that is not UTF-8, the third a
    structured payload, and the fourth the identifier of the first. *)
Definition sample_stream : list RecordedEvent.t :=
  [ Spec.sample_event (lit "e1") (Some (lit "OrderPlaced")) (PStr (lit "{}"))
                      None None;
    Spec.sample_event (lit "e2") (Some (lit "OrderPlaced"))
                      (PBytes [xff; xfe]) None None;
    Spec.sample_event (lit "e3") None
                      (PDict [(KStr (lit "total"), PInt 3)]) (Some (PInt 1)) None;
    Spec.sample_event (lit "e1") (Some (lit "OrderPaid")) (PBytes [x6f; x6b])
                      None None ].

Definition sample_source : Main.EventStore :=
  {| Main.connect_error := None;
     Main.stream := sample_stream;
     Main.read_error := None |}.

(** A file with the metadata table only, and one with the table of events
    only. *)
Definition partial_file : Sqlite3.Tables :=
  {| Sqlite3.events := None; Sqlite3.conversion_metadata := Some [] |}.

Definition legacy_file : Sqlite3.Tables :=
  {| Sqlite3.events := Some []; Sqlite3.conversion_metadata := None |}.

(** A record from before 1970: the table refuses it. *)
Definition early_record : SQLiteEvent.t :=
  {| SQLiteEvent.id := lit "z";
     SQLiteEvent.recorded_at := (-1)%Z;
     SQLiteEvent.type := lit "OrderPlaced";
     SQLiteEvent.stream_name := lit "orders";
     SQLiteEvent.data := None;
     SQLiteEvent.eventstore_metadata := lit "{}" |}.

(** The sample configuration, without validation. *)
Definition unvalidated_config : ConversionConfig.t :=
  {| ConversionConfig.eventstore_uri := lit "esdb://localhost:2113";
     ConversionConfig.db_path := lit "eventstore.db";
     ConversionConfig.batch_size := 2;
     ConversionConfig.commit_frequency := 2;
     ConversionConfig.validate_data := false;
     ConversionConfig.create_indexes := true |}.

(** A run over the sample events, against a file. *)
Definition sample_run (cfg : ConversionConfig.t) (file : Sqlite3.Tables)
  : result Stats.dict * World :=
  Main.convert_events cfg sample_source
    (Main.initial_world cfg file (fun _ => false) Spec.sample_clock 4096).

(** The statistics of a run that returned, and the file it left. *)
Definition statistics_of (run : result Stats.dict * World) : Stats.dict :=
  match fst run with
  | Ok stats => stats
  | Raise _ => []
  end.

Definition file_after (run : result Stats.dict * World) : Sqlite3.Tables :=
  Sqlite3.disk (database (snd run)).

(** The sample store connected to a file. *)
Definition connected_to (file : Sqlite3.Tables) : World :=
  snd (SQLiteEventStore.connect
         (snd (SQLiteEventStore.__init__ Spec.sample_config
                 (Spec.sample_world file)))).

End Props.

(* ================================================================== *)
(** * Induction on values *)
(* ================================================================== *)

(** The induction principle of [pyval], with the induction hypothesis for
    the items of a list or a tuple and for the values of a dictionary. *)
Section PyvalInduction.
Import Py.
Variable P : pyval -> Prop.
Hypothesis HNone : P PNone.
Hypothesis HBool : forall b, P (PBool b).
Hypothesis HInt : forall z, P (PInt z).
Hypothesis HStr : forall s, P (PStr s).
Hypothesis HBytes : forall b, P (PBytes b).
Hypothesis HList : forall items, Forall P items -> P (PList items).
Hypothesis HTuple : forall items, Forall P items -> P (PTuple items).
Hypothesis HDict : forall entries,
    Forall (fun kv => P (snd kv)) entries -> P (PDict entries).
Hypothesis HDatetime : forall d, P (PDatetime d).
Hypothesis HObject : forall n, P (PObject n).

Fixpoint pyval_induction (v : pyval) : P v :=
  match v with
  | PNone => HNone
  | PBool b => HBool b
  | PInt z => HInt z
  | PStr s => HStr s
  | PBytes b => HBytes b
  | PList items =>
      HList ((fix all (l : list pyval) : Forall P l :=
                match l with
                | [] => Forall_nil P
                | x :: xs => Forall_cons x (pyval_induction x) (all xs)
                end) items)
  | PTuple items =>
      HTuple ((fix all (l : list pyval) : Forall P l :=
                 match l with
                 | [] => Forall_nil P
                 | x :: xs => Forall_cons x (pyval_induction x) (all xs)
                 end) items)
  | PDict entries =>
      HDict ((fix all (l : list (pykey * pyval))
               : Forall (fun kv => P (snd kv)) l :=
                match l with
                | [] => Forall_nil _
                | kv :: xs =>
                    Forall_cons kv (pyval_induction (snd kv)) (all xs)
                end) entries)
  | PDatetime d => HDatetime d
  | PObject n => HObject n
  end.
End PyvalInduction.

(* ================================================================== *)
(** * Text and dictionaries *)
(* ================================================================== *)

Import Py.

Lemma pystr_eqb_eq a b : pystr_eqb a b = true <-> a = b.
Proof. unfold pystr_eqb. destruct (list_eq_dec N.eq_dec a b); split; congruence. Qed.

Lemma pystr_eqb_neq a b : pystr_eqb a b = false <-> a <> b.
Proof. unfold pystr_eqb. destruct (list_eq_dec N.eq_dec a b); split; congruence. Qed.

Lemma all_distinct_NoDup l : Spec.all_distinct l = true -> NoDup l.
Proof.
  induction l as [|x r IH]; intros H; constructor.
  - apply andb_true_iff in H as [H _]. apply negb_true_iff in H.
    intros Hin. assert (existsb (pystr_eqb x) r = true); [|congruence].
    apply existsb_exists. exists x. split; [exact Hin | now apply pystr_eqb_eq].
  - apply IH. now apply andb_true_iff in H as [_ H].
Qed.

Lemma dict_set_fresh k v d :
  (forall kv, In kv d -> pykey_eqb k (fst kv) = false) ->
  dict_set k v d = d ++ [(k, v)].
Proof.
  induction d as [|[k' v'] d IH]; intros Hf; [reflexivity|].
  cbn [dict_set]. pose proof (Hf (k', v') (or_introl eq_refl)) as Hk.
  cbn [fst] in Hk. rewrite Hk. cbn [app].
  f_equal. apply IH. intros kv Hin. apply Hf. right; exact Hin.
Qed.

Lemma encode_dict entries :
  Json.encode (PDict entries) =
  option_map (fun ps => 123%N :: Json.join Json.item_separator ps ++ [125%N])
             (Spec.entries_parts entries).
Proof. reflexivity. Qed.

Lemma encode_list items :
  Json.encode (PList items) =
  option_map (fun ps => 91%N :: Json.join Json.item_separator ps ++ [93%N])
             (Spec.items_parts items).
Proof. reflexivity. Qed.

Lemma encode_tuple items : Json.encode (PTuple items) = Json.encode (PList items).
Proof. reflexivity. Qed.

Lemma entries_parts_none entries :
  Spec.entries_parts entries = None <->
  exists k v, In (k, v) entries /\
              (Json.encode_key k = None \/ Json.encode v = None).
Proof.
  induction entries as [|[k x] xs IH]; cbn [Spec.entries_parts].
  - split; [discriminate | intros (k & v & [] & _)].
  - destruct (Json.encode_key k) eqn:Ek.
    + destruct (Json.encode x) eqn:Ex.
      * destruct (Spec.entries_parts xs) eqn:Es.
        -- split; [discriminate|].
           intros (k' & v' & [Heq | Hin] & H).
           ++ injection Heq as <- <-. destruct H; congruence.
           ++ destruct IH as [_ IH]. discriminate IH. eauto.
        -- split; [intros _|reflexivity].
           destruct IH as [IH _]. destruct (IH eq_refl) as (k' & v' & Hin & H).
           exists k', v'. split; [right; exact Hin | exact H].
      * split; [intros _|reflexivity].
        exists k, x. split; [left; reflexivity | right; exact Ex].
    + split; [intros _|reflexivity].
      exists k, x. split; [left; reflexivity | left; exact Ek].
Qed.

(* ================================================================== *)
(** * Normalisation of one event *)
(* ================================================================== *)

Section Normalisation.
Import SQLiteEvent.


Lemma validate_size_on s n :
  encoded_size s = Ok n ->
  validate_size s true =
    if (n >? MAX_DATA_SIZE)%Z then Raise (EventValidationError TooLarge)
    else Ok (Some s).
Proof. unfold validate_size. intros ->. reflexivity. Qed.

Lemma process_text data s v :
  Spec.payload_text data = Some s ->
  _process_event_data data v = validate_size s v.
Proof.
  destruct data; cbn [Spec.payload_text]; intros H;
    unfold _process_event_data, Json.dumps;
    try discriminate; try rewrite H; try reflexivity.
  injection H as <-; reflexivity.
Qed.



(** The too-large error has no other cause. *)
Lemma too_large_only_when_oversized data v :
  _process_event_data data v = Raise (EventValidationError TooLarge) ->
  v = true /\
  exists s n, Spec.payload_text data = Some s /\ encoded_size s = Ok n /\
              (MAX_DATA_SIZE < n)%Z.
Proof.
  destruct (Spec.payload_text data) as [s|] eqn:Ht.
  - rewrite (@process_text data s v Ht). destruct v; [|cbn; discriminate].
    unfold validate_size. destruct (encoded_size s) as [n|e] eqn:Hn; cbn [bind].
    + destruct (Z.gtb_spec n MAX_DATA_SIZE); [|discriminate].
      intros _. split; [reflexivity|]. exists s, n. auto.
    + intros H; injection H as ->. unfold encoded_size in Hn.
      destruct (utf8_encode s); discriminate.
  - destruct data; cbn [Spec.payload_text] in Ht;
      unfold _process_event_data, Json.dumps; try rewrite Ht;
      try discriminate; destruct v; discriminate.
Qed.



Lemma or_unknown_nonempty x : or_unknown x <> [].
Proof. destruct x as [[|c s]|]; discriminate. Qed.

Lemma sql_length_positive s :
  s <> [] -> Spec.starts_with_nul s = false -> (0 < Sqlite3.sql_length s)%Z.
Proof.
  destruct s as [|c s]; [congruence|]. intros _.
  cbn [Spec.starts_with_nul Sqlite3.sql_length]. intros ->.
  assert (0 <= Sqlite3.sql_length s)%Z; [|lia].
  induction s as [|c' s IH]; cbn [Sqlite3.sql_length]; [lia|].
  destruct (c' =? 0)%N; lia.
Qed.

Lemma init_fields event validate r :
  __init__ event validate = Ok r ->
  SQLiteEvent.type r = or_unknown (RecordedEvent.type event) /\
  SQLiteEvent.stream_name r = or_unknown (RecordedEvent.stream_name event).
Proof.
  unfold __init__.
  destruct (_process_event_data _ _); [|discriminate].
  destruct (_serialize_metadata _); [|discriminate].
  cbn [bind]. intros H; injection H as <-. split; reflexivity.
Qed.

(** C9, amended.  The event type and the stream name of a normalised
    record are never empty: ["unknown"] stands in for a field that is
    absent and for one that is the empty text, and any other text is kept.
    The two length constraints of the table hold for the record when
    neither text starts with a NUL character. *)
Theorem normalized_names_nonempty event validate r :
  __init__ event validate = Ok r ->
  (SQLiteEvent.type r <> [] /\ SQLiteEvent.stream_name r <> []) /\
  (RecordedEvent.type event = None \/ RecordedEvent.type event = Some [] ->
     SQLiteEvent.type r = lit "unknown") /\
  (RecordedEvent.stream_name event = None \/
   RecordedEvent.stream_name event = Some [] ->
     SQLiteEvent.stream_name r = lit "unknown") /\
  (forall c s, RecordedEvent.type event = Some (c :: s) ->
               SQLiteEvent.type r = c :: s) /\
  (forall c s, RecordedEvent.stream_name event = Some (c :: s) ->
               SQLiteEvent.stream_name r = c :: s) /\
  (Spec.starts_with_nul (SQLiteEvent.type r) = false ->
     (0 < Sqlite3.sql_length (SQLiteEvent.type r))%Z) /\
  (Spec.starts_with_nul (SQLiteEvent.stream_name r) = false ->
     (0 < Sqlite3.sql_length (SQLiteEvent.stream_name r))%Z).
Proof.
  intros H. destruct (init_fields _ _ H) as [Ht Hs]. rewrite Ht, Hs.
  repeat split.
  - apply or_unknown_nonempty.
  - apply or_unknown_nonempty.
  - intros [-> | ->]; reflexivity.
  - intros [-> | ->]; reflexivity.
  - intros c s ->. reflexivity.
  - intros c s ->. reflexivity.
  - apply sql_length_positive, or_unknown_nonempty.
  - apply sql_length_positive, or_unknown_nonempty.
Qed.

Lemma normalized_names_nonempty_witness :
  exists r,
    __init__ (Spec.sample_event (lit "e1") (Some []) (PStr (lit "{}"))
                                None None) true = Ok r /\
    SQLiteEvent.type r = lit "unknown" /\
    (0 < Sqlite3.sql_length (SQLiteEvent.type r))%Z.
Proof.
  eexists. split; [vm_compute; reflexivity|].
  pose proof (@normalized_names_nonempty
                (Spec.sample_event (lit "e1") (Some []) (PStr (lit "{}"))
                                   None None) true _ eq_refl)
    as (_ & Hu & _ & _ & _ & Hl & _).
  split; [apply Hu; right; reflexivity | apply Hl; reflexivity].
Defined.

(** C9 as it is written fails: a type that is the single character NUL is
    not empty, so it is kept; for SQLite its length is 0, and the
    insertion of the record is refused by the CHECK constraint. *)
Lemma normalized_names_counterexample :
  exists r,
    __init__ (Spec.sample_event (lit "e1") (Some [0%N]) (PStr (lit "{}"))
                                None None) true = Ok r /\
    SQLiteEvent.type r = [0%N] /\
    Sqlite3.sql_length (SQLiteEvent.type r) = 0%Z /\
    Sqlite3.insert_or_replace r [] = Raise (Sqlite3Error IntegrityError).
Proof.
  eexists. split; [vm_compute; reflexivity|].
  vm_compute. repeat split; reflexivity.
Qed.

Lemma clean_retained items : forall acc,
  NoDup (map fst items) ->
  (forall key, In key (map fst items) ->
     forall kv, In kv acc -> pykey_eqb (KStr key) (fst kv) = false) ->
  clean items acc = acc ++ Spec.retained items.
Proof.
  induction items as [|[key value] rest IH]; intros acc Hnd Hfresh.
  - cbn. now rewrite List.app_nil_r.
  - cbn [map fst] in Hnd. inversion Hnd as [|? ? Hnotin Hnd']; subst.
    assert (Hstep : forall cv,
               clean rest (dict_set (KStr key) cv acc)
               = acc ++ (KStr key, cv) :: Spec.retained rest).
    { intros cv. rewrite dict_set_fresh.
      - rewrite IH; [now rewrite <- List.app_assoc | exact Hnd' |].
        intros key' Hin' kv Hkv. apply in_app_or in Hkv as [Hkv | [<- | []]].
        + apply Hfresh; [right; exact Hin' | exact Hkv].
        + cbn. apply pystr_eqb_neq. intros ->. contradiction.
      - intros kv Hkv. apply Hfresh; [left; reflexivity | exact Hkv]. }
    unfold Spec.retained. cbn [flat_map fst snd]. fold (Spec.retained rest).
    destruct value; cbn [clean Spec.converted app]; try apply Hstep.
    apply IH; [exact Hnd'|].
    intros key' Hin'. apply Hfresh. right; exact Hin'.
Qed.

Lemma cleaned_metadata_retained event :
  cleaned_metadata event = Spec.retained (metadata event).
Proof.
  unfold cleaned_metadata. rewrite clean_retained; [reflexivity | |].
  - apply all_distinct_NoDup. vm_compute. reflexivity.
  - intros ? ? ? [].
Qed.

Lemma retained_keys_encode items k v :
  In (k, v) (Spec.retained items) -> Json.encode_key k <> None.
Proof.
  unfold Spec.retained. intros H. apply in_flat_map in H as ([key value] & _ & H).
  cbn [fst snd] in H. destruct (Spec.converted value); [|destruct H].
  destruct H as [H | []]. injection H as <- _. discriminate.
Qed.




End Normalisation.

(* ================================================================== *)
(** * JSON documents read back *)
(* ================================================================== *)

Ltac div_lia := zify; Z.to_euclidean_division_equations; lia.

Section Hex.
Local Open Scope N_scope.

Lemma hex_digit_val d : d < 16 -> Json.hex_val (Json.hex_digit d) = Some d.
Proof.
  intros Hd. unfold Json.hex_digit, Json.hex_val, in_range.
  destruct (N.ltb_spec d 10).
  - replace ((48 <=? 48 + d) && (48 + d <=? 57)) with true.
    + f_equal. lia.
    + symmetry. apply andb_true_iff. split; apply N.leb_le; lia.
  - replace ((48 <=? 87 + d) && (87 + d <=? 57)) with false.
    + replace ((97 <=? 87 + d) && (87 + d <=? 102)) with true.
      * f_equal. lia.
      * symmetry. apply andb_true_iff. split; apply N.leb_le; lia.
    + symmetry. apply andb_false_iff. right. apply N.leb_gt. lia.
Qed.

Lemma hex4_roundtrip n :
  n < 65536 ->
  Json.hex4_val (Json.hex_digit (n / 4096 mod 16))
                (Json.hex_digit (n / 256 mod 16))
                (Json.hex_digit (n / 16 mod 16))
                (Json.hex_digit (n mod 16)) = Some n.
Proof.
  intros Hn. unfold Json.hex4_val.
  rewrite !hex_digit_val by (apply N.mod_lt; discriminate).
  f_equal. div_lia.
Qed.

Lemma lor_shiftl_add a b k :
  b < 2 ^ k -> N.lor (N.shiftl a k) b = a * 2 ^ k + b.
Proof.
  intros Hb. rewrite <- N.shiftl_mul_pow2.
  rewrite <- N.lxor_lor, <- N.add_nocarry_lxor; try reflexivity.
  all: apply N.bits_inj; intros i; rewrite N.land_spec, N.bits_0.
  all: destruct (N.lt_ge_cases i k) as [Hi|Hi];
    [rewrite N.shiftl_spec_low by exact Hi; reflexivity|].
  all: destruct (N.eq_dec b 0) as [->|Hb0];
    [rewrite N.bits_0; apply andb_false_r|].
  all: rewrite (N.bits_above_log2 b i); [apply andb_false_r|].
  all: apply N.lt_le_trans with k; [|exact Hi].
  all: apply N.log2_lt_pow2; [lia | exact Hb].
Qed.

(** The two halves of a surrogate pair, and the code point they make. *)
Lemma high_surrogate n :
  n < 0x100000 ->
  N.lor 0xd800 (N.land (N.shiftr n 10) 0x3ff) = 0xd800 + n / 1024.
Proof.
  intros Hn. change 0x3ff with (N.ones 10). rewrite N.land_ones.
  change 0xd800 with (N.shiftl 54 10). rewrite lor_shiftl_add.
  - rewrite N.shiftr_div_pow2. change (2 ^ 10) with 1024.
    rewrite N.shiftl_mul_pow2. change (2 ^ 10) with 1024. div_lia.
  - apply N.mod_lt. discriminate.
Qed.

Lemma low_surrogate n :
  N.lor 0xdc00 (N.land n 0x3ff) = 0xdc00 + n mod 1024.
Proof.
  change 0x3ff with (N.ones 10). rewrite N.land_ones.
  change 0xdc00 with (N.shiftl 55 10). rewrite lor_shiftl_add.
  - rewrite N.shiftl_mul_pow2. reflexivity.
  - apply N.mod_lt. discriminate.
Qed.

Lemma join_surrogates n :
  n < 0x100000 ->
  0x10000 + N.lor (N.shiftl (0xd800 + n / 1024 - 0xd800) 10)
                  (0xdc00 + n mod 1024 - 0xdc00)
  = 0x10000 + n.
Proof.
  intros Hn.
  replace (0xd800 + n / 1024 - 0xd800) with (n / 1024)
    by (rewrite N.add_comm; symmetry; apply N.add_sub).
  replace (0xdc00 + n mod 1024 - 0xdc00) with (n mod 1024)
    by (rewrite N.add_comm; symmetry; apply N.add_sub).
  rewrite lor_shiftl_add by (apply N.mod_lt; discriminate).
  change (2 ^ 10) with 1024. div_lia.
Qed.
End Hex.

Section Strings.
Local Open Scope N_scope.

Lemma scanstring_u h1 h2 h3 h4 s3 :
  Json.scanstring (92 :: 117 :: h1 :: h2 :: h3 :: h4 :: s3) =
  match Json.hex4_val h1 h2 h3 h4 with
  | None => None
  | Some uni =>
      if in_range 0xd800 0xdbff uni then
        match s3 with
        | b :: u :: g1 :: g2 :: g3 :: g4 :: s4 =>
            if (b =? 92) && (u =? 117) then
              match Json.hex4_val g1 g2 g3 g4 with
              | None => None
              | Some uni2 =>
                  if in_range 0xdc00 0xdfff uni2
                  then Json.push
                         (0x10000 +
                          N.lor (N.shiftl (uni - 0xd800) 10) (uni2 - 0xdc00))
                         (Json.scanstring s4)
                  else Json.push uni (Json.scanstring s3)
              end
            else Json.push uni (Json.scanstring s3)
        | _ => Json.push uni (Json.scanstring s3)
        end
      else Json.push uni (Json.scanstring s3)
  end.
Proof. reflexivity. Qed.

Lemma scanstring_plain c tail :
  (c =? 34) = false -> (c =? 92) = false -> (c <? 32) = false ->
  Json.scanstring (c :: tail) = Json.push c (Json.scanstring tail).
Proof. intros H1 H2 H3. cbn [Json.scanstring]. rewrite H1, H2, H3. reflexivity. Qed.

Lemma scanstring_char (c : codepoint) (tail : pystr) :
  Spec.scalar c = true ->
  Json.scanstring (Json.escape_char c ++ tail)
    = Json.push c (Json.scanstring tail).
Proof.
  unfold Spec.scalar, is_surrogate. intros Hc.
  apply andb_true_iff in Hc as [Hmax Hsur].
  apply N.ltb_lt in Hmax. apply negb_true_iff in Hsur.
  unfold Json.escape_char.
  destruct (N.eqb_spec c 34) as [->|H34]; [reflexivity|].
  destruct (N.eqb_spec c 92) as [->|H92]; [reflexivity|].
  destruct (N.eqb_spec c 10) as [->|H10]; [reflexivity|].
  destruct (N.eqb_spec c 13) as [->|H13]; [reflexivity|].
  destruct (N.eqb_spec c 9) as [->|H9]; [reflexivity|].
  destruct (N.eqb_spec c 8) as [->|H8]; [reflexivity|].
  destruct (N.eqb_spec c 12) as [->|H12]; [reflexivity|].
  destruct ((32 <=? c) && (c <=? 126)) eqn:Hprint.
  - apply andb_true_iff in Hprint as [Hlo _]. apply N.leb_le in Hlo.
    cbn [app]. apply scanstring_plain.
    + now apply N.eqb_neq.
    + now apply N.eqb_neq.
    + apply N.ltb_ge. exact Hlo.
  - destruct (N.ltb_spec c 0x10000) as [Hbmp|Hastral].
    + unfold Json.u_escape. cbn [app]. rewrite scanstring_u.
      rewrite hex4_roundtrip by exact Hbmp.
      assert (in_range 0xd800 0xdbff c = false) as ->; [|reflexivity].
      unfold in_range. apply andb_false_iff.
      apply andb_false_iff in Hsur as [H|H]; [left; exact H|].
      right. apply N.leb_gt. apply N.leb_gt in H. lia.
    + set (n := c - 0x10000).
      assert (Hn : n < 0x100000) by (unfold n; lia).
      rewrite (high_surrogate Hn), low_surrogate.
      unfold Json.u_escape. cbn [app]. rewrite scanstring_u.
      rewrite hex4_roundtrip by div_lia.
      assert (in_range 0xd800 0xdbff (0xd800 + n / 1024) = true) as ->.
      { unfold in_range. apply andb_true_iff.
        split; apply N.leb_le; div_lia. }
      cbn [N.eqb Pos.eqb andb].
      rewrite hex4_roundtrip by div_lia.
      assert (in_range 0xdc00 0xdfff (0xdc00 + n mod 1024) = true) as ->.
      { unfold in_range. apply andb_true_iff.
        split; apply N.leb_le; div_lia. }
      rewrite (join_surrogates Hn). unfold n.
      replace (0x10000 + (c - 0x10000)) with c by lia. reflexivity.
Qed.

Lemma scanstring_roundtrip (s rest : pystr) :
  Spec.scalar_text s = true ->
  Json.scanstring (flat_map Json.escape_char s ++ 34 :: rest) = Some (s, rest).
Proof.
  induction s as [|c s IH]; intros Hs; [reflexivity|].
  cbn [Spec.scalar_text forallb] in Hs. apply andb_true_iff in Hs as [Hc Hs].
  cbn [flat_map]. rewrite <- List.app_assoc, (@scanstring_char c _ Hc).
  unfold Spec.scalar_text in IH. rewrite (IH Hs). reflexivity.
Qed.

Lemma encode_string_roundtrip (s rest : pystr) :
  Spec.scalar_text s = true ->
  exists body,
    Json.encode_basestring_ascii s ++ rest = 34 :: body /\
    Json.scanstring body = Some (s, rest).
Proof.
  intros Hs. exists (flat_map Json.escape_char s ++ 34 :: rest). split.
  - unfold Json.encode_basestring_ascii. cbn [app].
    rewrite <- List.app_assoc. reflexivity.
  - apply scanstring_roundtrip, Hs.
Qed.
End Strings.

Section Integers.
Local Open Scope N_scope.

Lemma scan_digits_roundtrip u (rest : pystr) :
  match rest with [] => True | c :: _ => Json.digit_val c = None end ->
  Json.scan_digits (uint_digits u ++ rest) = (u, rest).
Proof.
  intros Hrest.
  induction u; cbn [uint_digits app Json.scan_digits];
    try (change (Json.digit_val _) with (Some Decimal.D0) ||
         change (Json.digit_val _) with (Some Decimal.D1));
    try (cbv [Json.digit_val N.eqb Pos.eqb]; rewrite IHu; reflexivity).
  destruct rest as [|c r]; [reflexivity|].
  cbn [Json.scan_digits]. rewrite Hrest. reflexivity.
Qed.

Lemma to_uint_head p :
  exists c tail,
    uint_digits (Pos.to_uint p) = c :: tail /\ in_range 49 57 c = true.
Proof.
  pose proof (Unsigned.to_uint_nonzero p) as Hnz.
  pose proof (Unsigned.to_of (Pos.to_uint p)) as Hto.
  rewrite Unsigned.of_to in Hto. cbn [N.to_uint] in Hto.
  assert (Hhead : Decimal.nzhead (Pos.to_uint p) <> Decimal.Nil).
  { intros H. apply Hnz. rewrite Hto at 1. now apply unorm_0. }
  rewrite unorm_nzhead in Hto by exact Hhead.
  pose proof (nzhead_nonzero (Pos.to_uint p)) as H0.
  rewrite <- Hto in H0, Hhead.
  destruct (Pos.to_uint p); cbn [uint_digits];
    try (eexists; eexists; split; [reflexivity | reflexivity]).
  - congruence.
  - exfalso. now apply (H0 u).
Qed.
End Integers.

Section Numbers.
Local Open Scope N_scope.

Lemma delimited_no_digit (rest : pystr) :
  Spec.delimited rest ->
  match rest with [] => True | c :: _ => Json.digit_val c = None end.
Proof. destruct rest; [auto | intros [H _]; exact H]. Qed.

Lemma delimited_scan i (rest : pystr) :
  Spec.delimited rest ->
  match rest with
  | c :: _ =>
      if (c =? 46) || (c =? 101) || (c =? 69) then None
      else Some (PInt (Z.of_int i), rest)
  | [] => Some (PInt (Z.of_int i), rest)
  end = Some (PInt (Z.of_int i), rest).
Proof.
  destruct rest as [|c r]; [reflexivity|]. intros (_ & H1 & H2 & H3).
  apply N.eqb_neq in H1, H2, H3. rewrite H1, H2, H3. reflexivity.
Qed.

Lemma match_integer_digits neg (c : codepoint) (tail rest : pystr) :
  in_range 49 57 c = true ->
  Json.scan_digits (c :: tail ++ rest) = (Pos.to_uint neg, rest) ->
  Json.match_integer (c :: tail ++ rest)
    = Some (Decimal.Pos (Pos.to_uint neg), rest) /\
  Json.match_integer (45 :: c :: tail ++ rest)
    = Some (Decimal.Neg (Pos.to_uint neg), rest).
Proof.
  intros Hc Hs. unfold in_range in Hc.
  apply andb_true_iff in Hc as [Hlo Hhi]. apply N.leb_le in Hlo, Hhi.
  assert (H45 : (c =? 45) = false) by (apply N.eqb_neq; lia).
  assert (H48 : (c =? 48) = false) by (apply N.eqb_neq; lia).
  assert (Hr : in_range 49 57 c = true).
  { unfold in_range. apply andb_true_iff. split; apply N.leb_le; lia. }
  unfold Json.match_integer. rewrite H45.
  change (45 =? 45) with true. cbv iota beta.
  rewrite H48, Hr, Hs. split; reflexivity.
Qed.

Lemma scan_number_roundtrip z (rest : pystr) :
  Spec.delimited rest ->
  Json.scan_number (int_str z ++ rest) = Some (PInt z, rest).
Proof.
  intros Hrest. unfold Json.scan_number, int_str.
  destruct z as [|p|p]; cbn [Z.to_int].
  - change (Json.match_integer (uint_digits Decimal.zero ++ rest))
      with (Some (Decimal.Pos Decimal.zero, rest)).
    apply (@delimited_scan (Decimal.Pos Decimal.zero) rest Hrest).
  - destruct (to_uint_head p) as (c & tail & Hd & Hc).
    pose proof (@scan_digits_roundtrip (Pos.to_uint p) rest
                  (@delimited_no_digit rest Hrest)) as Hs.
    rewrite Hd in *. cbn [app] in *.
    destruct (@match_integer_digits p c tail rest Hc Hs) as [-> _].
    rewrite (@delimited_scan _ rest Hrest).
    change (Decimal.Pos (Pos.to_uint p)) with (Z.to_int (Z.pos p)).
    now rewrite DecimalZ.of_to.
  - destruct (to_uint_head p) as (c & tail & Hd & Hc).
    pose proof (@scan_digits_roundtrip (Pos.to_uint p) rest
                  (@delimited_no_digit rest Hrest)) as Hs.
    rewrite Hd in *. cbn [app] in *.
    destruct (@match_integer_digits p c tail rest Hc Hs) as [_ ->].
    rewrite (@delimited_scan _ rest Hrest).
    change (Decimal.Neg (Pos.to_uint p)) with (Z.to_int (Z.neg p)).
    now rewrite DecimalZ.of_to.
Qed.

Lemma int_str_head z :
  exists c tail, int_str z = c :: tail /\
                 ((c =? 45) || in_range 48 57 c) = true.
Proof.
  unfold int_str. destruct z as [|p|p]; cbn [Z.to_int].
  - exists 48, []. split; reflexivity.
  - destruct (to_uint_head p) as (c & tail & -> & Hc).
    exists c, tail. split; [reflexivity|].
    unfold in_range in *. apply andb_true_iff in Hc as [Hlo Hhi].
    apply N.leb_le in Hlo, Hhi. apply orb_true_iff. right.
    apply andb_true_iff. split; apply N.leb_le; lia.
  - eexists 45, _. split; reflexivity.
Qed.

Lemma scan_once_number f (c : codepoint) (tail : pystr) :
  ((c =? 45) || in_range 48 57 c) = true ->
  Json.scan_once (S f) (c :: tail) = Json.scan_number (c :: tail).
Proof.
  intros Hc.
  assert (c = 45 \/ (48 <= c /\ c <= 57)) as Hr.
  { apply orb_true_iff in Hc as [H|H]; [left; now apply N.eqb_eq|right].
    unfold in_range in H. apply andb_true_iff in H as [Hlo Hhi].
    apply N.leb_le in Hlo, Hhi. auto. }
  cbn [Json.scan_once].
  replace (c =? 34) with false by (symmetry; apply N.eqb_neq; lia).
  replace (c =? 123) with false by (symmetry; apply N.eqb_neq; lia).
  replace (c =? 91) with false by (symmetry; apply N.eqb_neq; lia).
  replace (c =? 110) with false by (symmetry; apply N.eqb_neq; lia).
  replace (c =? 116) with false by (symmetry; apply N.eqb_neq; lia).
  replace (c =? 102) with false by (symmetry; apply N.eqb_neq; lia).
  reflexivity.
Qed.
End Numbers.

Section Heads.
Local Open Scope N_scope.

Lemma value_start_facts c :
  Spec.value_start c = true ->
  Json.is_ws c = false /\ (c =? 93) = false /\ (c =? 125) = false.
Proof.
  unfold Spec.value_start, Json.is_ws, in_range. intros H.
  assert (c = 34 \/ c = 123 \/ c = 91 \/ c = 110 \/ c = 116 \/ c = 102
          \/ c = 45 \/ (48 <= c /\ c <= 57)) as Hc.
  { repeat (apply orb_true_iff in H as [H|H]);
      try (apply N.eqb_eq in H; tauto).
    apply andb_true_iff in H as [Hlo Hhi]. apply N.leb_le in Hlo, Hhi. tauto. }
  repeat split;
    repeat (apply orb_false_iff; split); apply N.eqb_neq; lia.
Qed.

Lemma skip_ws_value (c : codepoint) (s : pystr) :
  Spec.value_start c = true -> Json.skip_ws (c :: s) = c :: s.
Proof.
  intros H. destruct (@value_start_facts c H) as (Hw & _).
  cbn [Json.skip_ws]. rewrite Hw. reflexivity.
Qed.

Lemma encode_head v text :
  Json.encode v = Some text ->
  exists c tail, text = c :: tail /\ Spec.value_start c = true.
Proof.
  destruct v; try discriminate.
  - intros H; injection H as <-. eexists _, _. split; reflexivity.
  - destruct b; intros H; injection H as <-; eexists _, _; split; reflexivity.
  - cbn [Json.encode]. intros H; injection H as <-.
    destruct (int_str_head z) as (c & tail & -> & Hc).
    exists c, tail. split; [reflexivity|]. unfold Spec.value_start.
    apply orb_true_iff in Hc as [Hc|Hc]; rewrite Hc;
      repeat rewrite orb_true_r; reflexivity.
  - cbn [Json.encode]. intros H; injection H as <-.
    eexists _, _. split; reflexivity.
  - rewrite encode_list. destruct (Spec.items_parts items); [|discriminate].
    intros H; injection H as <-. eexists _, _. split; reflexivity.
  - rewrite encode_tuple, encode_list.
    destruct (Spec.items_parts items); [|discriminate].
    intros H; injection H as <-. eexists _, _. split; reflexivity.
  - rewrite encode_dict. destruct (Spec.entries_parts entries); [|discriminate].
    intros H; injection H as <-. eexists _, _. split; reflexivity.
Qed.
End Heads.

Section Documents.
Local Open Scope N_scope.

Lemma delimited_comma (s : pystr) : Spec.delimited (44 :: s).
Proof. cbn. repeat split; discriminate. Qed.

Lemma delimited_bracket (s : pystr) : Spec.delimited (93 :: s).
Proof. cbn. repeat split; discriminate. Qed.

Lemma delimited_brace (s : pystr) : Spec.delimited (125 :: s).
Proof. cbn. repeat split; discriminate. Qed.

Lemma join_cons p q (qs : list pystr) :
  Json.join Json.item_separator (p :: q :: qs)
  = p ++ 44 :: 32 :: Json.join Json.item_separator (q :: qs).
Proof. reflexivity. Qed.

Lemma items_parts_cons x xs parts :
  Spec.items_parts (x :: xs) = Some parts ->
  exists p ps, parts = p :: ps /\ Json.encode x = Some p /\
               Spec.items_parts xs = Some ps.
Proof.
  cbn [Spec.items_parts]. destruct (Json.encode x) as [p|]; [|discriminate].
  destruct (Spec.items_parts xs) as [ps|]; [|discriminate].
  intros H; injection H as <-. eauto.
Qed.

(** The head of the text of a run of items. *)
Lemma join_head x xs p ps :
  Json.encode x = Some p -> Spec.items_parts xs = Some ps ->
  exists c tail, Json.join Json.item_separator (p :: ps) = c :: tail /\
                 Spec.value_start c = true.
Proof.
  intros Hx _. destruct (@encode_head x p Hx) as (c & tail & -> & Hc).
  destruct ps as [|q qs].
  - exists c, tail. auto.
  - rewrite join_cons. cbn [app]. eauto.
Qed.

Lemma parse_items_roundtrip items :
  Forall Spec.roundtrips items ->
  items <> [] ->
  forall parts, Spec.items_parts items = Some parts ->
  forall rest fuel,
    (List.length (Json.join Json.item_separator parts) + 1 <= fuel)%nat ->
    Json.parse_items fuel (Json.join Json.item_separator parts ++ 93 :: rest)
    = Some (items, rest).
Proof.
  induction 1 as [|x xs Hx Hxs IH]; [congruence|]. intros _ parts Hparts.
  destruct (@items_parts_cons x xs parts Hparts) as (p & ps & -> & Hp & Hps).
  intros rest fuel Hfuel. destruct fuel as [|f]; [lia|].
  cbn [Json.parse_items].
  destruct xs as [|y ys].
  - cbn [Spec.items_parts] in Hps. injection Hps as <-.
    cbn [Json.join] in *.
    rewrite (Hx p Hp (93 :: rest) f (delimited_bracket rest)) by lia.
    reflexivity.
  - destruct (@items_parts_cons y ys _ Hps) as (q & qs & -> & Hq & Hqs).
    rewrite join_cons in *. rewrite <- List.app_assoc. cbn [app].
    rewrite List.length_app in Hfuel. cbn [List.length] in Hfuel.
    rewrite (Hx p Hp _ f (delimited_comma _)) by lia.
    cbn [Json.skip_ws Json.is_ws N.eqb Pos.eqb orb].
    destruct (@join_head y ys q qs Hq Hqs) as (c & tail & Hj & Hc).
    rewrite Hj in *. cbn [app]. rewrite (@skip_ws_value c _ Hc).
    change (c :: tail ++ 93 :: rest) with ((c :: tail) ++ 93 :: rest).
    rewrite <- Hj.
    rewrite (IH ltac:(discriminate) (q :: qs) Hps rest f).
    + reflexivity.
    + rewrite Hj. lia.
Qed.
End Documents.

Section Objects.
Local Open Scope N_scope.

Lemma entries_parts_cons k x xs parts :
  Spec.entries_parts ((k, x) :: xs) = Some parts ->
  exists pk p ps,
    parts = (pk ++ 58 :: 32 :: p) :: ps /\ Json.encode_key k = Some pk /\
    Json.encode x = Some p /\ Spec.entries_parts xs = Some ps.
Proof.
  cbn [Spec.entries_parts].
  destruct (Json.encode_key k) as [pk|]; [|discriminate].
  destruct (Json.encode x) as [p|]; [|discriminate].
  destruct (Spec.entries_parts xs) as [ps|]; [|discriminate].
  intros H; injection H as <-. exists pk, p, ps. auto.
Qed.

Lemma key_part_shape (s p tail : pystr) :
  (Json.encode_basestring_ascii s ++ 58 :: 32 :: p) ++ tail
  = 34 :: (flat_map Json.escape_char s ++ 34 :: 58 :: 32 :: p ++ tail).
Proof.
  unfold Json.encode_basestring_ascii. cbn [app].
  rewrite <- !List.app_assoc. reflexivity.
Qed.

Lemma parse_pairs_roundtrip entries :
  Forall (fun kv => Spec.roundtrips (snd kv)) entries ->
  Spec.keys_ok entries = true ->
  entries <> [] ->
  forall parts, Spec.entries_parts entries = Some parts ->
  forall rest fuel,
    (List.length (Json.join Json.item_separator parts) + 1 <= fuel)%nat ->
    Json.parse_pairs fuel (Json.join Json.item_separator parts ++ 125 :: rest)
    = Some (Spec.to_pairs entries, rest).
Proof.
  induction 1 as [|[k x] xs Hx Hxs IH]; [congruence|].
  intros Hkeys _ parts Hparts. cbn [snd] in Hx.
  unfold Spec.keys_ok in Hkeys. cbn [forallb fst] in Hkeys.
  apply andb_true_iff in Hkeys as [Hk Hkeys].
  destruct k as [s| | | |]; try discriminate Hk. cbn [Spec.text_key] in Hk.
  destruct (@entries_parts_cons _ x xs parts Hparts)
    as (pk & p & ps & -> & Hpk & Hp & Hps).
  cbn [Json.encode_key] in Hpk. injection Hpk as <-.
  intros rest fuel Hfuel. destruct fuel as [|f]; [lia|].
  cbn [Spec.to_pairs Spec.text_key].
  destruct (@encode_head x p Hp) as (c & tail & Hpc & Hc).
  destruct xs as [|[k' y] ys].
  - cbn [Spec.entries_parts] in Hps. injection Hps as <-.
    cbn [Json.join] in *. rewrite key_part_shape.
    rewrite List.length_app in Hfuel. cbn [List.length] in Hfuel.
    cbn [Json.parse_pairs N.eqb Pos.eqb].
    rewrite (@scanstring_roundtrip s _ Hk).
    cbn [Json.skip_ws Json.is_ws N.eqb Pos.eqb orb].
    rewrite Hpc at 1. cbn [app]. rewrite (@skip_ws_value c _ Hc).
    change (c :: tail ++ 125 :: rest) with ((c :: tail) ++ 125 :: rest).
    rewrite <- Hpc.
    rewrite (Hx p Hp (125 :: rest) f (delimited_brace rest)) by lia.
    reflexivity.
  - destruct (@entries_parts_cons k' y ys _ Hps)
      as (qk & q & qs & -> & Hqk & Hq & Hqs).
    assert (Hk' : exists s', k' = KStr s').
    { unfold Spec.keys_ok in Hkeys. cbn [forallb fst] in Hkeys.
      apply andb_true_iff in Hkeys as [Hk' _].
      destruct k'; try discriminate Hk'. eauto. }
    destruct Hk' as [s' ->]. cbn [Json.encode_key] in Hqk.
    injection Hqk as <-.
    rewrite join_cons in *. rewrite <- List.app_assoc.
    rewrite key_part_shape.
    rewrite !List.length_app in Hfuel. cbn [List.length] in Hfuel.
    cbn [Json.parse_pairs N.eqb Pos.eqb].
    rewrite (@scanstring_roundtrip s _ Hk).
    cbn [Json.skip_ws Json.is_ws N.eqb Pos.eqb orb].
    rewrite Hpc at 1. cbn [app]. rewrite (@skip_ws_value c _ Hc).
    match goal with
    | |- context [Json.scan_once f (c :: tail ++ ?r)] =>
        change (c :: tail ++ r) with ((c :: tail) ++ r)
    end.
    rewrite <- Hpc.
    rewrite (Hx p Hp _ f (delimited_comma _)) by lia.
    cbn [Json.skip_ws Json.is_ws N.eqb Pos.eqb orb app].
    set (J := Json.join Json.item_separator
                ((Json.encode_basestring_ascii s' ++ 58 :: 32 :: q) :: qs)) in *.
    assert (HJ : exists t, J = 34 :: t).
    { unfold J. destruct qs; [|rewrite join_cons];
        unfold Json.encode_basestring_ascii; cbn [Json.join app]; eauto. }
    destruct HJ as [t HJ]. rewrite HJ at 1. cbn [app].
    rewrite (@skip_ws_value 34 _ eq_refl).
    change (34 :: t ++ 125 :: rest) with ((34 :: t) ++ 125 :: rest).
    rewrite <- HJ. clear HJ. subst J.
    rewrite (IH Hkeys ltac:(discriminate) _ Hps rest f) by lia.
    reflexivity.
Qed.

Lemma fold_dict_set entries : forall acc,
  Spec.keys_ok entries = true ->
  Spec.all_distinct (Spec.keys_of entries) = true ->
  (forall key, In key (Spec.keys_of entries) ->
     forall kv, In kv acc -> pykey_eqb (KStr key) (fst kv) = false) ->
  fold_left (fun d kv => dict_set (KStr (fst kv)) (snd kv) d)
            (Spec.to_pairs entries) acc
  = acc ++ entries.
Proof.
  induction entries as [|[k v] rest IH]; intros acc Hkeys Hd Hfresh.
  - cbn. now rewrite List.app_nil_r.
  - unfold Spec.keys_ok in Hkeys. cbn [forallb fst] in Hkeys.
    apply andb_true_iff in Hkeys as [Hk Hkeys].
    destruct k as [s| | | |]; try discriminate Hk.
    cbn [Spec.to_pairs Spec.keys_of Spec.text_key fold_left fst snd] in *.
    cbn [Spec.all_distinct] in Hd. apply andb_true_iff in Hd as [Hs Hd].
    rewrite dict_set_fresh.
    + rewrite IH; [now rewrite <- List.app_assoc | exact Hkeys | exact Hd |].
      intros key Hin kv Hkv. apply in_app_or in Hkv as [Hkv | [<- | []]].
      * apply Hfresh; [right; exact Hin | exact Hkv].
      * cbn. apply pystr_eqb_neq. intros ->.
        apply negb_true_iff in Hs.
        assert (existsb (pystr_eqb s) (Spec.keys_of rest) = true); [|congruence].
        apply existsb_exists. exists s. split; [exact Hin|].
        now apply pystr_eqb_eq.
    + intros kv Hkv. apply Hfresh; [left; reflexivity | exact Hkv].
Qed.

Lemma dict_of_pairs_roundtrip entries :
  Spec.keys_ok entries = true ->
  Spec.all_distinct (Spec.keys_of entries) = true ->
  Json.dict_of_pairs (Spec.to_pairs entries) = entries.
Proof.
  intros Hk Hd. unfold Json.dict_of_pairs.
  rewrite fold_dict_set; [reflexivity | exact Hk | exact Hd |].
  intros ? ? ? [].
Qed.
End Objects.

Section RoundTrip.
Local Open Scope N_scope.

Lemma Forall_roundtrips (P : pyval -> Prop) items :
  Forall (fun v => Spec.json_native v = true -> Spec.distinct_keys v = true -> Spec.roundtrips v)
         items ->
  forallb Spec.json_native items = true ->
  forallb Spec.distinct_keys items = true ->
  Forall Spec.roundtrips items.
Proof.
  induction 1 as [|x xs Hx _ IH]; cbn [forallb]; intros Hn Hd; constructor.
  - apply andb_true_iff in Hn as [Hn _]. apply andb_true_iff in Hd as [Hd _].
    auto.
  - apply andb_true_iff in Hn as [_ Hn]. apply andb_true_iff in Hd as [_ Hd].
    auto.
Qed.

Lemma Forall_entries_roundtrip entries :
  Forall (fun kv => Spec.json_native (snd kv) = true ->
                    Spec.distinct_keys (snd kv) = true -> Spec.roundtrips (snd kv))
         entries ->
  forallb (fun kv => match Spec.text_key (fst kv) with
                     | Some s => Spec.scalar_text s
                     | None => false
                     end && Spec.json_native (snd kv)) entries = true ->
  forallb (fun kv => Spec.distinct_keys (snd kv)) entries = true ->
  Forall (fun kv => Spec.roundtrips (snd kv)) entries /\ Spec.keys_ok entries = true.
Proof.
  unfold Spec.keys_ok.
  induction 1 as [|x xs Hx _ IH]; cbn [forallb]; intros Hn Hd;
    [split; [constructor | reflexivity]|].
  apply andb_true_iff in Hn as [Hn Hns].
  apply andb_true_iff in Hn as [Hk Hn].
  apply andb_true_iff in Hd as [Hd Hds].
  destruct (IH Hns Hds) as [IH1 IH2]. rewrite Hk, IH2. split; auto.
Qed.

Lemma native_roundtrips v :
  Spec.json_native v = true -> Spec.distinct_keys v = true -> Spec.roundtrips v.
Proof.
  induction v using pyval_induction; intros Hn Hd; try discriminate Hn.
  - intros text H; injection H as <-. intros rest fuel _ Hf.
    destruct fuel as [|f]; [cbn in Hf; lia | reflexivity].
  - intros text H. intros rest fuel _ Hf.
    destruct b; injection H as <-;
      (destruct fuel as [|f]; [cbn in Hf; lia | reflexivity]).
  - intros text H; cbn [Json.encode] in H; injection H as <-.
    intros rest fuel Hrest Hf.
    destruct (int_str_head z) as (c & tail & Hz & Hc).
    destruct fuel as [|f]; [rewrite Hz in Hf; cbn in Hf; lia|].
    rewrite <- (@scan_number_roundtrip z rest Hrest).
    rewrite Hz. cbn [app]. apply scan_once_number, Hc.
  - intros text H; cbn [Json.encode] in H; injection H as <-.
    intros rest fuel _ Hf. cbn [Spec.json_native] in Hn.
    destruct fuel as [|f]; [cbn in Hf; lia|].
    unfold Json.encode_basestring_ascii. cbn [app Json.scan_once N.eqb Pos.eqb].
    rewrite <- List.app_assoc. cbn [app].
    rewrite (@scanstring_roundtrip s rest Hn). reflexivity.
  - cbn [Spec.json_native Spec.distinct_keys] in Hn, Hd.
    pose proof (@Forall_roundtrips Spec.roundtrips items H Hn Hd) as Hall.
    intros text Ht. rewrite encode_list in Ht.
    destruct (Spec.items_parts items) as [parts|] eqn:Hparts; [|discriminate].
    cbn [option_map] in Ht. injection Ht as <-.
    intros rest fuel _ Hf. cbn [List.length] in Hf.
    rewrite List.length_app in Hf. cbn [List.length] in Hf.
    destruct fuel as [|f]; [lia|].
    cbn [app Json.scan_once N.eqb Pos.eqb]. rewrite <- List.app_assoc.
    cbn [app].
    destruct items as [|x xs].
    + cbn [Spec.items_parts] in Hparts. injection Hparts as <-. reflexivity.
    + destruct (@items_parts_cons x xs parts Hparts)
        as (p & ps & -> & Hp & Hps).
      destruct (@join_head x xs p ps Hp Hps) as (c & tail & Hj & Hc).
      destruct (@value_start_facts c Hc) as (_ & H93 & _).
      rewrite Hj at 1. cbn [app]. rewrite (@skip_ws_value c _ Hc), H93.
      change (c :: tail ++ 93 :: rest) with ((c :: tail) ++ 93 :: rest).
      rewrite <- Hj.
      rewrite (@parse_items_roundtrip (x :: xs) Hall ltac:(discriminate)
                 (p :: ps) Hparts rest f) by lia.
      reflexivity.
  - cbn [Spec.json_native Spec.distinct_keys] in Hn, Hd.
    apply andb_true_iff in Hd as [Hkeys Hd].
    destruct (@Forall_entries_roundtrip entries H Hn Hd) as [Hall Hok].
    intros text Ht. rewrite encode_dict in Ht.
    destruct (Spec.entries_parts entries) as [parts|] eqn:Hparts;
      [|discriminate].
    cbn [option_map] in Ht. injection Ht as <-.
    intros rest fuel _ Hf. cbn [List.length] in Hf.
    rewrite List.length_app in Hf. cbn [List.length] in Hf.
    destruct fuel as [|f]; [lia|].
    cbn [app Json.scan_once N.eqb Pos.eqb]. rewrite <- List.app_assoc.
    cbn [app].
    destruct entries as [|[k x] xs].
    + cbn [Spec.entries_parts] in Hparts. injection Hparts as <-. reflexivity.
    + pose proof Hok as Hk. unfold Spec.keys_ok in Hk. cbn [forallb fst] in Hk.
      apply andb_true_iff in Hk as [Hk _].
      destruct k as [s| | | |]; try discriminate Hk.
      destruct (@entries_parts_cons (KStr s) x xs parts Hparts)
        as (pk & p & ps & -> & Hpk & Hp & Hps).
      cbn [Json.encode_key] in Hpk. injection Hpk as <-.
      set (J := Json.join Json.item_separator
                  ((Json.encode_basestring_ascii s ++ 58 :: 32 :: p) :: ps)) in *.
      assert (HJ : exists t, J = 34 :: t).
      { unfold J. destruct ps; [|rewrite join_cons];
          unfold Json.encode_basestring_ascii; cbn [Json.join app]; eauto. }
      destruct HJ as [t HJ]. rewrite HJ at 1. cbn [app].
      rewrite (@skip_ws_value 34 _ eq_refl).
      cbn [N.eqb Pos.eqb].
      change (34 :: t ++ 125 :: rest) with ((34 :: t) ++ 125 :: rest).
      rewrite <- HJ. clear HJ. subst J.
      rewrite (@parse_pairs_roundtrip _ Hall Hok ltac:(discriminate)
                 _ Hparts rest f) by lia.
      rewrite (@dict_of_pairs_roundtrip _ Hok Hkeys). reflexivity.
Qed.


Lemma loads_roundtrip v text :
  Spec.json_native v = true -> Spec.distinct_keys v = true ->
  Json.encode v = Some text -> Json.loads text = Some v.
Proof.
  intros Hn Hd Ht. unfold Json.loads.
  destruct (@encode_head v text Ht) as (c & tail & -> & Hc).
  rewrite (@skip_ws_value c tail Hc).
  pose proof (@native_roundtrips v Hn Hd _ Ht [] (S (List.length (c :: tail)))
                I ltac:(lia)) as H.
  rewrite List.app_nil_r in H. rewrite H. reflexivity.
Qed.

End RoundTrip.



(* ================================================================== *)
(** * The store *)
(* ================================================================== *)

Import Runtime.
Local Open Scope py_scope.

Section Control.

Lemma bind_raises_only A B (m : M A) (k : A -> M B) :
  Spec.raises_only_sqlite3 m -> (forall a, Spec.raises_only_sqlite3 (k a)) ->
  Spec.raises_only_sqlite3 (bind m k).
Proof.
  intros Hm Hk w e w'. unfold bind.
  destruct (m w) as [[a|e0] w1] eqn:E.
  - apply Hk.
  - intros H; injection H as <- <-. exact (Hm _ _ _ E).
Qed.

Lemma ret_raises_only A (a : A) : Spec.raises_only_sqlite3 (ret a).
Proof. intros w e w'. discriminate. Qed.

Lemma get_raises_only : Spec.raises_only_sqlite3 get.
Proof. intros w e w'. discriminate. Qed.

Lemma time_raises_only : Spec.raises_only_sqlite3 time.
Proof. intros w e w'. discriminate. Qed.

Lemma driver_raises_only A (f : Sqlite3.Database -> result A * Sqlite3.Database) :
  (forall d e d', f d = (Raise e, d') -> is_sqlite3_error e = true) ->
  Spec.raises_only_sqlite3 (driver f).
Proof.
  intros Hf w e w'. unfold driver.
  destruct (f (database w)) as [r d] eqn:E.
  intros H; injection H as -> _. exact (Hf _ _ _ E).
Qed.

Lemma driver_call_raises A c (run : Sqlite3.Database -> result A * Sqlite3.Database) :
  (forall d e d', run d = (Raise e, d') -> is_sqlite3_error e = true) ->
  forall d e d', Sqlite3.driver_call c run d = (Raise e, d') ->
                 is_sqlite3_error e = true.
Proof.
  intros Hr d e d'. unfold Sqlite3.driver_call.
  destruct (Sqlite3.closed d); [intros H; injection H as <- _; reflexivity|].
  destruct (Sqlite3.io_fault d _); [intros H; injection H as <- _; reflexivity|].
  apply Hr.
Qed.

Lemma commit_raises d e d' :
  Sqlite3.commit d = (Raise e, d') -> is_sqlite3_error e = true.
Proof. apply driver_call_raises. intros ? ? ?. discriminate. Qed.

Lemma execute_raises sql d e d' :
  Sqlite3.execute sql d = (Raise e, d') -> is_sqlite3_error e = true.
Proof.
  apply driver_call_raises. clear. intros d e d'.
  destruct sql; cbv zeta; try discriminate;
    repeat match goal with
           | |- context [match ?x with _ => _ end] => destruct x
           end;
    try discriminate; intros H; injection H as <- _; reflexivity.
Qed.

Lemma close_raises d e d' :
  Sqlite3.close d = (Raise e, d') -> is_sqlite3_error e = true.
Proof.
  unfold Sqlite3.close. destruct (Sqlite3.closed d); [discriminate|].
  destruct (Sqlite3.io_fault d _); [|discriminate].
  intros H; injection H as <- _; reflexivity.
Qed.

Lemma update_metadata_raises_only key value :
  Spec.raises_only_sqlite3 (SQLiteEventStore.update_conversion_metadata key value).
Proof.
  apply bind_raises_only; [apply get_raises_only|]. intros w.
  destruct (connection (db w)); [|apply ret_raises_only].
  apply driver_raises_only, execute_raises.
Qed.

Lemma try_except_sqlite3_ok A (body : M A) (handler : exn -> M A) :
  Spec.raises_only_sqlite3 body ->
  (forall e w, exists a w', handler e w = (Ok a, w')) ->
  forall w, exists a w', try_except body is_sqlite3_error handler w = (Ok a, w').
Proof.
  intros Hb Hh w. unfold try_except.
  destruct (body w) as [[a|e] w1] eqn:E; [eauto|].
  rewrite (Hb _ _ _ E). apply Hh.
Qed.

Lemma close_without_connection w :
  connection (db w) = None -> SQLiteEventStore.close w = (Ok tt, w).
Proof.
  intros H. unfold SQLiteEventStore.close, bind, get. rewrite H. reflexivity.
Qed.

Lemma close_clears_connection w :
  fst (SQLiteEventStore.close w) = Ok tt /\
  connection (db (snd (SQLiteEventStore.close w))) = None.
Proof.
  destruct (connection (db w)) as [c|] eqn:Hc.
  - unfold SQLiteEventStore.close.
    lazymatch goal with
    | |- context [bind get ?k w] => change (bind get k w) with (k w w)
    end.
    cbv beta. rewrite Hc. unfold try_finally.
    match goal with
    | |- context [try_except ?b _ ?h w] =>
        destruct (@try_except_sqlite3_ok unit b h) with (w := w)
          as ([] & w1 & E)
    end.
    + repeat (cbv beta; lazymatch goal with
              | |- Spec.raises_only_sqlite3 (bind _ _) =>
                  apply bind_raises_only; [|intros ?]
              | |- Spec.raises_only_sqlite3
                     (SQLiteEventStore.update_conversion_metadata _ _) =>
                  apply update_metadata_raises_only
              | |- Spec.raises_only_sqlite3 time => apply time_raises_only
              | |- Spec.raises_only_sqlite3 get => apply get_raises_only
              | |- Spec.raises_only_sqlite3 (driver Sqlite3.commit) =>
                  apply driver_raises_only, commit_raises
              | |- Spec.raises_only_sqlite3 (driver Sqlite3.close) =>
                  apply driver_raises_only, close_raises
              end).
    + intros e w0. exists tt, w0. reflexivity.
    + rewrite E. cbn. split; reflexivity.
  - rewrite (close_without_connection w Hc). cbn. auto.
Qed.

(** C10.  [close()] always returns, without an error, and leaves the store
    without a connection, whatever the driver answered to the calls made
    while closing.  A second [close()] changes nothing: it returns at once,
    and the journal of the driver, so the commits and the writes to the
    metadata table, is what it was. *)
Theorem close_idempotent w :
  fst (SQLiteEventStore.close w) = Ok tt /\
  connection (db (snd (SQLiteEventStore.close w))) = None /\
  SQLiteEventStore.close (snd (SQLiteEventStore.close w))
    = (Ok tt, snd (SQLiteEventStore.close w)) /\
  Sqlite3.journal (database (snd (SQLiteEventStore.close
                                    (snd (SQLiteEventStore.close w)))))
    = Sqlite3.journal (database (snd (SQLiteEventStore.close w))).
Proof.
  destruct (close_clears_connection w) as [H1 H2].
  split; [exact H1|]. split; [exact H2|].
  rewrite (close_without_connection _ H2). cbn. auto.
Qed.
End Control.

Section Driver.
Import Sqlite3.

Lemma driver_call_ok A c (run : Database -> result A * Database) d a d' :
  driver_call c run d = (Ok a, d') ->
  closed d = false /\ run (log_call c d) = (Ok a, d').
Proof.
  unfold driver_call. destruct (closed d); [discriminate|].
  destruct (io_fault d _); [discriminate|]. auto.
Qed.

Lemma insert_rows_ok rows : forall tbl tbl',
  insert_rows rows tbl = (Ok tt, tbl') -> tbl' = fold_left Spec.upsert rows tbl.
Proof.
  induction rows as [|r rows IH]; intros tbl tbl'; cbn [insert_rows fold_left].
  - intros H; injection H as <-. reflexivity.
  - unfold insert_or_replace.
    destruct (bind_parameters r); [|discriminate].
    destruct (check_constraints r); [|discriminate].
    apply IH.
Qed.

Lemma executemany_ok rows d d' :
  executemany rows d = (Ok tt, d') ->
  journal d' = journal d ++ [ExecuteMany rows] /\
  closed d' = false /\ io_fault d' = io_fault d /\ disk d' = disk d /\
  conversion_metadata (view d') = conversion_metadata (view d) /\
  exists tbl, events (view d) = Some tbl /\
              events (view d') = Some (fold_left Spec.upsert rows tbl).
Proof.
  unfold executemany. intros H. apply driver_call_ok in H as [Hc H].
  cbn [view log_call] in H.
  destruct (events (view d)) as [tbl|] eqn:Ht; [|discriminate].
  destruct (insert_rows rows tbl) as [r tbl'] eqn:Hi.
  injection H as -> <-. cbn. rewrite Hc.
  apply insert_rows_ok in Hi as ->. repeat split; eauto.
Qed.

Lemma commit_ok d d' :
  commit d = (Ok tt, d') ->
  journal d' = journal d ++ [Commit] /\
  closed d' = false /\ io_fault d' = io_fault d /\
  view d' = view d /\ disk d' = view d.
Proof.
  unfold commit. intros H. apply driver_call_ok in H as [Hc H].
  injection H as <-. cbn. rewrite Hc. repeat split.
Qed.
End Driver.

Section Batches.
Import SQLiteEventStore.

Lemma save_events_batch_ok b w w' :
  b <> [] ->
  connection (db w) = Some the_connection ->
  save_events_batch b w = (Ok tt, w') ->
  let n := ConversionConfig.commit_frequency (config (db w)) in
  let k := (batches_processed (db w) + 1)%Z in
  n <> 0%Z /\
  Sqlite3.journal (database w') =
    Sqlite3.journal (database w)
      ++ Sqlite3.ExecuteMany b
      :: (if (k mod n =? 0)%Z then [Sqlite3.Commit] else []) /\
  config (db w') = config (db w) /\
  connection (db w') = Some the_connection /\
  batches_processed (db w') = k /\
  events_processed (db w') =
    (events_processed (db w) + Z.of_nat (List.length b))%Z /\
  ((k mod n = 0)%Z ->
     Sqlite3.disk (database w') = Sqlite3.view (database w')) /\
  ((k mod n <> 0)%Z ->
     Sqlite3.disk (database w') = Sqlite3.disk (database w)) /\
  exists tbl, Sqlite3.events (Sqlite3.view (database w)) = Some tbl /\
              Sqlite3.events (Sqlite3.view (database w'))
                = Some (fold_left Spec.upsert b tbl).
Proof.
  intros Hb Hc. unfold save_events_batch.
  lazymatch goal with
  | |- context [bind get ?k w] => change (bind get k w) with (k w w)
  end.
  cbv beta. rewrite Hc. destruct b as [|r b']; [congruence|].
  set (rows := r :: b'). unfold try_except.
  unfold bind at 1. unfold driver at 1.
  destruct (Sqlite3.executemany rows (database w)) as [[[]|e] d1] eqn:He.
  2:{ destruct (is_sqlite3_error e); discriminate. }
  apply executemany_ok in He as (Hj & Hcl & Hf & Hd & Hm & tbl & Ht & Ht').
  cbn [bind get set_db lift db config connection events_processed
       batches_processed database].
  unfold py_mod.
  destruct (Z.eqb_spec (ConversionConfig.commit_frequency (config (db w))) 0)
    as [Hn|Hn].
  { discriminate. }
  cbn [bind lift].
  destruct (Z.eqb_spec ((batches_processed (db w) + 1)
                          mod ConversionConfig.commit_frequency (config (db w))) 0)
    as [Hk|Hk].
  - unfold driver. cbn [database].
    destruct (Sqlite3.commit d1) as [[[]|e] d2] eqn:Hcm.
    2:{ destruct (is_sqlite3_error e); discriminate. }
    apply commit_ok in Hcm as (Hj2 & Hcl2 & Hf2 & Hv2 & Hd2).
    intros H; injection H as <-. cbn.
    rewrite Hj2, Hj, <- List.app_assoc, Hv2. cbn [app].
    repeat split; eauto. intros; contradiction.
  - intros H; injection H as <-. cbn.
    rewrite Hj. repeat split; eauto. intros; contradiction.
Qed.
End Batches.

Section Cadence.
Import SQLiteEventStore.

Lemma save_all_ok batches : forall w w',
  Forall (fun b => b <> []) batches ->
  connection (db w) = Some the_connection ->
  Spec.save_all batches w = (Ok tt, w') ->
  let n := ConversionConfig.commit_frequency (config (db w)) in
  Sqlite3.journal (database w') =
    Sqlite3.journal (database w)
      ++ Spec.cadence n (batches_processed (db w)) batches /\
  config (db w') = config (db w) /\
  connection (db w') = Some the_connection /\
  batches_processed (db w') =
    (batches_processed (db w) + Z.of_nat (List.length batches))%Z /\
  forall tbl, Sqlite3.events (Sqlite3.view (database w)) = Some tbl ->
              Sqlite3.events (Sqlite3.view (database w'))
                = Some (fold_left Spec.upsert (List.concat batches) tbl).
Proof.
  induction batches as [|b bs IH]; intros w w' Hne Hc; cbn [Spec.save_all].
  - intros H; injection H as <-. cbn. rewrite List.app_nil_r, Z.add_0_r. auto.
  - inversion Hne as [|? ? Hb Hbs]; subst. unfold bind at 1.
    destruct (save_events_batch b w) as [[[]|e] w1] eqn:E1; [|discriminate].
    intros E2.
    destruct (@save_events_batch_ok b w w1 Hb Hc E1)
      as (Hn & Hj & Hcfg & Hc1 & Hk & _ & _ & _ & tbl0 & Ht0 & Ht1).
    destruct (IH _ _ Hbs Hc1 E2) as (Hj2 & Hcfg2 & Hc2 & Hk2 & Ht2).
    rewrite Hcfg in Hj2. rewrite Hk in Hj2, Hk2.
    cbn zeta. rewrite Hj2, Hj, <- List.app_assoc. cbn [Spec.cadence app List.length List.concat].
    repeat split.
    + congruence.
    + exact Hc2.
    + rewrite Hk2. lia.
    + intros tbl Ht. rewrite Ht in Ht0. injection Ht0 as <-.
      rewrite fold_left_app. apply Ht2. exact Ht1.
Qed.

(** C3.  With a commit frequency [n > 0], a run of writes of non-empty
    batches that all succeed makes the driver calls [Spec.cadence] lists:
    each batch is handed to [executemany], and a commit follows exactly
    the batches at which the batch counter is a multiple of [n]; no other
    call is made.  At such a batch the pending writes become durable; at
    any other batch the file is left as it was, the rows staying in the
    open transaction. *)
Theorem commit_cadence batches w w' :
  (0 < ConversionConfig.commit_frequency (config (db w)))%Z ->
  connection (db w) = Some the_connection ->
  Forall (fun b => b <> []) batches ->
  Spec.save_all batches w = (Ok tt, w') ->
  Sqlite3.journal (database w') =
    Sqlite3.journal (database w)
      ++ Spec.cadence (ConversionConfig.commit_frequency (config (db w)))
                 (batches_processed (db w)) batches /\
  (forall b, batches = [b] ->
     if ((batches_processed (db w) + 1)
           mod ConversionConfig.commit_frequency (config (db w)) =? 0)%Z
     then Sqlite3.disk (database w') = Sqlite3.view (database w')
     else Sqlite3.disk (database w') = Sqlite3.disk (database w)).
Proof.
  intros _ Hc Hne H. split.
  - exact (proj1 (@save_all_ok batches w w' Hne Hc H)).
  - intros b ->. cbn [Spec.save_all] in H. unfold bind in H.
    destruct (SQLiteEventStore.save_events_batch b w) as [[[]|e] w1] eqn:E;
      [|discriminate].
    injection H as <-.
    inversion Hne as [|? ? Hb _]; subst.
    destruct (@save_events_batch_ok b w w1 Hb Hc E)
      as (_ & _ & _ & _ & _ & _ & Hcommit & Hkeep & _).
    destruct (Z.eqb_spec
                ((batches_processed (db w) + 1)
                   mod ConversionConfig.commit_frequency (config (db w))) 0);
      auto.
Qed.

Lemma same_id_refl r : Sqlite3.same_id r r = true.
Proof. unfold Sqlite3.same_id. now apply pystr_eqb_eq. Qed.

Lemma filter_upsert_same t r :
  filter (Sqlite3.same_id r) (Spec.upsert t r) = [r].
Proof.
  unfold Spec.upsert. rewrite filter_app. cbn [filter]. rewrite same_id_refl.
  assert (filter (Sqlite3.same_id r)
            (filter (fun r' => negb (Sqlite3.same_id r r')) t) = []) as ->;
    [|reflexivity].
  induction t as [|x t IH]; [reflexivity|]. cbn [filter].
  destruct (Sqlite3.same_id r x) eqn:E; cbn [negb filter]; [exact IH|].
  rewrite E. exact IH.
Qed.

Lemma filter_upsert_other t r r2 :
  SQLiteEvent.id r <> SQLiteEvent.id r2 ->
  filter (Sqlite3.same_id r2) (Spec.upsert t r) = filter (Sqlite3.same_id r2) t.
Proof.
  intros Hne. unfold Spec.upsert. rewrite filter_app. cbn [filter].
  assert (Sqlite3.same_id r2 r = false) as ->.
  { unfold Sqlite3.same_id. apply pystr_eqb_neq. congruence. }
  rewrite List.app_nil_r.
  induction t as [|x t IH]; [reflexivity|]. cbn [filter].
  destruct (Sqlite3.same_id r x) eqn:E; cbn [negb filter].
  - assert (Sqlite3.same_id r2 x = false) as ->; [|exact IH].
    unfold Sqlite3.same_id in *. apply pystr_eqb_eq in E.
    apply pystr_eqb_neq. congruence.
  - destruct (Sqlite3.same_id r2 x); [f_equal|]; exact IH.
Qed.

Lemma fold_upsert_other rows r2 : forall t,
  (forall r, In r rows -> SQLiteEvent.id r <> SQLiteEvent.id r2) ->
  filter (Sqlite3.same_id r2) (fold_left Spec.upsert rows t)
    = filter (Sqlite3.same_id r2) t.
Proof.
  induction rows as [|r rows IH]; intros t H; [reflexivity|].
  cbn [fold_left]. rewrite IH by (intros; apply H; right; assumption).
  apply filter_upsert_other. apply H. left; reflexivity.
Qed.

Lemma save_empty_batch w : save_events_batch [] w = (Ok tt, w).
Proof. reflexivity. Qed.

Lemma save_all_view batches : forall w w',
  connection (db w) = Some the_connection ->
  Spec.save_all batches w = (Ok tt, w') ->
  (List.concat batches <> [] ->
     exists tbl, Sqlite3.events (Sqlite3.view (database w)) = Some tbl) /\
  forall tbl, Sqlite3.events (Sqlite3.view (database w)) = Some tbl ->
              Sqlite3.events (Sqlite3.view (database w'))
                = Some (fold_left Spec.upsert (List.concat batches) tbl).
Proof.
  induction batches as [|b bs IH]; intros w w' Hc; cbn [Spec.save_all List.concat].
  - intros H; injection H as <-. split; [congruence | auto].
  - unfold bind at 1.
    destruct (save_events_batch b w) as [[[]|e] w1] eqn:E1; [|discriminate].
    intros E2. destruct b as [|r b'].
    + rewrite save_empty_batch in E1. injection E1 as <-.
      cbn [app]. exact (IH _ _ Hc E2).
    + assert (Hb : r :: b' <> []) by discriminate.
      destruct (@save_events_batch_ok (r :: b') w w1 Hb Hc E1)
        as (_ & _ & _ & Hc1 & _ & _ & _ & _ & tbl0 & Ht0 & Ht1).
      destruct (IH _ _ Hc1 E2) as [_ Ht2].
      split; [eauto|]. intros tbl Ht. rewrite Ht in Ht0. injection Ht0 as <-.
      rewrite fold_left_app. apply Ht2. exact Ht1.
Qed.

(** C6.  When a record is written and a record with the same id is written
    later, in the same batch or in another, and no write of that id
    follows, the table holds exactly one row for the id, and it is the
    later record. *)
Theorem replace_on_conflict batches w w' r1 r2 before between after :
  connection (db w) = Some the_connection ->
  Spec.save_all batches w = (Ok tt, w') ->
  List.concat batches = before ++ r1 :: between ++ r2 :: after ->
  SQLiteEvent.id r1 = SQLiteEvent.id r2 ->
  (forall r, In r after -> SQLiteEvent.id r <> SQLiteEvent.id r2) ->
  exists tbl,
    Sqlite3.events (Sqlite3.view (database w')) = Some tbl /\
    filter (Sqlite3.same_id r2) tbl = [r2].
Proof.
  intros Hc H Hrows _ Hafter.
  destruct (@save_all_view batches w w' Hc H) as [Hex Hview].
  destruct Hex as [tbl Ht].
  { rewrite Hrows. destruct before; discriminate. }
  exists (fold_left Spec.upsert (List.concat batches) tbl).
  split; [exact (Hview _ Ht)|].
  rewrite Hrows.
  replace (before ++ r1 :: between ++ r2 :: after)
    with ((before ++ r1 :: between) ++ r2 :: after)
    by (rewrite <- List.app_assoc; reflexivity).
  rewrite fold_left_app. cbn [fold_left].
  rewrite fold_upsert_other by exact Hafter.
  apply filter_upsert_same.
Qed.
End Cadence.

Section Drain.
Import SQLiteEventStore.

Lemma driver_call_journal A c (run : Sqlite3.Database -> result A * Sqlite3.Database) d :
  (forall d0, Sqlite3.journal (snd (run d0)) = Sqlite3.journal d0) ->
  Sqlite3.journal (snd (Sqlite3.driver_call c run d)) = Sqlite3.journal d ++ [c].
Proof.
  intros Hr. unfold Sqlite3.driver_call.
  destruct (Sqlite3.closed d); [reflexivity|].
  destruct (Sqlite3.io_fault d _); [reflexivity|].
  rewrite Hr. reflexivity.
Qed.

Lemma executemany_journal rows d :
  Sqlite3.journal (snd (Sqlite3.executemany rows d))
    = Sqlite3.journal d ++ [Sqlite3.ExecuteMany rows].
Proof.
  apply driver_call_journal. intros d0.
  destruct (Sqlite3.events (Sqlite3.view d0)); [|reflexivity].
  destruct (Sqlite3.insert_rows rows l). reflexivity.
Qed.

Lemma commit_journal d :
  Sqlite3.journal (snd (Sqlite3.commit d)) = Sqlite3.journal d ++ [Sqlite3.Commit].
Proof. apply driver_call_journal. reflexivity. Qed.

(** Whatever its outcome, a call of [save_events_batch] with a batch and a
    connection hands the batch to the driver once. *)
Lemma save_events_batch_writes b w :
  b <> [] ->
  connection (db w) = Some the_connection ->
  Spec.writes (Sqlite3.journal (database (snd (save_events_batch b w))))
    = Spec.writes (Sqlite3.journal (database w)) ++ [b] /\
  locals (snd (save_events_batch b w)) = locals w /\
  reader_stops (snd (save_events_batch b w)) = reader_stops w.
Proof.
  intros Hb Hc.
  destruct (save_events_batch b w) as [res w'] eqn:E. cbn [snd].
  revert E. unfold save_events_batch.
  lazymatch goal with
  | |- context [bind get ?k w] => change (bind get k w) with (k w w)
  end.
  cbv beta. rewrite Hc. destruct b as [|r b']; [congruence|].
  set (rows := r :: b'). unfold try_except.
  unfold bind at 1. unfold driver at 1.
  pose proof (executemany_journal rows (database w)) as Hj.
  destruct (Sqlite3.executemany rows (database w)) as [[[]|e] d1];
    cbn [snd] in Hj.
  2:{ destruct (is_sqlite3_error e); intros E; injection E as <- <-;
      cbn; rewrite Hj; unfold Spec.writes; rewrite flat_map_app; auto. }
  cbn [bind get set_db lift db config connection events_processed
       batches_processed database].
  unfold py_mod.
  destruct (_ =? 0)%Z.
  { intros E; injection E as <- <-.
    cbn; rewrite Hj; unfold Spec.writes; rewrite flat_map_app; auto. }
  cbn [bind lift].
  destruct (_ =? 0)%Z.
  - unfold driver. cbn [database].
    pose proof (commit_journal d1) as Hj2.
    destruct (Sqlite3.commit d1) as [[[]|e] d2]; cbn [snd] in Hj2;
      [|destruct (is_sqlite3_error e)]; intros E; injection E as <- <-;
      cbn; rewrite Hj2, Hj;
      unfold Spec.writes; rewrite !flat_map_app; cbn; rewrite List.app_nil_r; auto.
  - intros E; injection E as <- <-.
    cbn. rewrite Hj. unfold Spec.writes; rewrite flat_map_app; auto.
Qed.

(** C1, amended.  The reader is stopped however the loop ends.  When the
    loop ends because the source is exhausted, a buffer that is not empty
    is handed to the store once (with the store connected, the batch is
    the one new write in the journal) and an empty buffer is not; when the
    loop ends by an exception, the exception goes on to the caller and
    nothing is written: the buffer stays as it was. *)
Theorem remainder_flushed_on_exhaustion cfg source w :
  let loop := Main.for_each_event cfg (Main.stream source) (Main.read_error source) in
  let w1 := snd (loop w) in
  let w2 := snd (Main.ingest cfg source w) in
  reader_stops w2 = S (reader_stops w1) /\
  (forall e, fst (loop w) = Raise e ->
     fst (Main.ingest cfg source w) = Raise e /\
     Sqlite3.journal (database w2) = Sqlite3.journal (database w1) /\
     events_batch (locals w2) = events_batch (locals w1)) /\
  (fst (loop w) = Ok tt -> events_batch (locals w1) = [] ->
     fst (Main.ingest cfg source w) = Ok tt /\
     Sqlite3.journal (database w2) = Sqlite3.journal (database w1)) /\
  (fst (loop w) = Ok tt -> events_batch (locals w1) <> [] ->
     connection (db w1) = Some the_connection ->
     Spec.writes (Sqlite3.journal (database w2))
       = Spec.writes (Sqlite3.journal (database w1)) ++ [events_batch (locals w1)]).
Proof.
  cbv zeta.
  destruct (Main.ingest cfg source w) as [res w2] eqn:E. cbn [fst snd].
  revert E. unfold Main.ingest, try_finally. unfold bind at 1.
  destruct (Main.for_each_event cfg (Main.stream source)
              (Main.read_error source) w) as [[[]|e] w1]; cbn [fst snd].
  - unfold Main.flush_remaining.
    lazymatch goal with
    | |- context [bind get ?k w1] => change (bind get k w1) with (k w1 w1)
    end.
    cbv beta.
    destruct (events_batch (locals w1)) as [|r b] eqn:Hb.
    + intros E; injection E as <- <-. cbn.
      repeat split; try discriminate; congruence.
    + set (rows := r :: b).
      assert (Hrows : rows <> []) by discriminate.
      unfold bind.
      destruct (connection (db w1)) as [[]|] eqn:Hc.
      * destruct (@save_events_batch_writes rows w1 Hrows Hc) as (Hw & Hl & Hs).
        destruct (save_events_batch rows w1) as [[[]|e] w1']; cbn [snd] in *;
          intros E; injection E as <- <-; cbn; rewrite Hs;
          repeat split; try discriminate; try congruence.
      * assert (E : save_events_batch rows w1 = (Ok tt, w1)).
        { unfold save_events_batch, bind, get. rewrite Hc. reflexivity. }
        rewrite E. intros E'; injection E' as <- <-. cbn.
        repeat split; try discriminate; congruence.
  - intros E; injection E as <- <-. cbn.
    repeat split; try discriminate; try congruence.
Qed.
End Drain.

Ltac run_driver Hio :=
  repeat (progress (cbv beta iota zeta delta
            [bind ret raise get set_db driver try_except time
               SQLiteEventStore.with_connection
               Sqlite3.connect Sqlite3.execute Sqlite3.commit
               Sqlite3.select_events_table Sqlite3.driver_call
               Sqlite3.log_call Sqlite3.set_view
               Sqlite3.closed Sqlite3.io_fault Sqlite3.journal
               Sqlite3.view Sqlite3.disk Sqlite3.events
               Sqlite3.conversion_metadata
               db database locals clock ticks st_size reader_stops
               client_closed config connection events_processed
               batches_processed is_sqlite3_error fst snd];
          rewrite ?Hio)).

Section EmptyRun.

Lemma connect_ready cfg w :
  Spec.no_fault w ->
  (Sqlite3.events (Sqlite3.disk (database w)) = None ->
   Sqlite3.conversion_metadata (Sqlite3.disk (database w)) = None) ->
  exists w1,
    SQLiteEventStore.connect (snd (SQLiteEventStore.__init__ cfg w)) = (Ok tt, w1) /\
    Spec.ready (Spec.stored_rows (Sqlite3.disk (database w))) w1 /\
    locals w1 = locals w /\ clock w1 = clock w /\ ticks w1 = ticks w /\
    st_size w1 = st_size w.
Proof.
  destruct w as [s [[ev md] vw cl io j] l c t sz rs cc].
  unfold Spec.no_fault, Spec.ready, Spec.stored_rows.
  cbn [database Sqlite3.io_fault Sqlite3.disk Sqlite3.events
       Sqlite3.conversion_metadata locals clock ticks st_size].
  intros Hio Hfile.
  unfold SQLiteEventStore.__init__, SQLiteEventStore.connect,
    SQLiteEventStore._create_schema, SQLiteEventStore._create_indexes.
  destruct ev as [tbl|]; [|rewrite (Hfile eq_refl)];
    destruct (ConversionConfig.create_indexes cfg) eqn:Hidx;
    run_driver Hio; rewrite Hidx; run_driver Hio;
    (eexists; split; [reflexivity|]); run_driver Hio; repeat split; eauto.
Qed.
Ltac run_body Hio :=
repeat (progress (cbv beta iota zeta delta
          [bind ret raise get set_db set_locals driver try_except try_finally
             time stop lift is_exception
             Main.ingest Main.for_each_event Main.flush_remaining
             Main.stream Main.read_error Main.connect_error
             SQLiteEventStore.get_stats
             Sqlite3.select_count Sqlite3.select_range Sqlite3.driver_call
             Sqlite3.log_call Sqlite3.set_view
             Sqlite3.closed Sqlite3.io_fault Sqlite3.journal
             Sqlite3.view Sqlite3.disk Sqlite3.events
             Sqlite3.conversion_metadata
             db database locals clock ticks st_size reader_stops
             client_closed config connection events_processed
             batches_processed events_batch total_processed skipped_events
             fst snd];
        rewrite ?Hio)).


Lemma events_per_second_total total duration :
  exists v, Main.events_per_second total duration = Ok v.
Proof.
  unfold Main.events_per_second, py_truediv.
  destruct (Qlt_le_dec 0 duration) as [Hlt|Hle]; [|eauto].
  destruct (Qeq_bool duration 0) eqn:E; [|eauto].
  apply Qeq_bool_iff in E. rewrite E in Hlt. now apply Qlt_irrefl in Hlt.
Qed.

Lemma events_per_second_none duration :
  exists v, Main.events_per_second 0 duration = Ok v /\ Stats.is_zero v = true.
Proof.
  unfold Main.events_per_second, py_truediv.
  destruct (Qlt_le_dec 0 duration) as [Hlt|Hle].
  - destruct (Qeq_bool duration 0) eqn:E.
    + apply Qeq_bool_iff in E. rewrite E in Hlt. now apply Qlt_irrefl in Hlt.
    + eexists. split; [reflexivity|]. cbn [Stats.is_zero].
      apply Qeq_bool_iff. unfold Qdiv. apply Qmult_0_l.
  - eexists. split; reflexivity.
Qed.

Lemma reporting_empty cfg start rows w :
  Spec.ready rows w ->
  exists stats w',
    Main.conversion cfg Spec.empty_source start w = (Ok stats, w') /\
    Stats.get "total_events" stats = Some (Stats.Int rows) /\
    exists v, Stats.get "events_per_second" stats = Some v /\
              Stats.is_zero v = true.
Proof.
  destruct w as [[cf cn ep bp] [dk [ev md] cl io j] l c t sz rs cc].
  unfold Spec.ready, Spec.no_fault.
  cbn [db database connection Sqlite3.closed Sqlite3.io_fault Sqlite3.view
       Sqlite3.events].
  intros (-> & -> & Hio & tbl & -> & Hrows).
  unfold Main.conversion, Spec.empty_source. run_body Hio.
  destruct (events_per_second_none (c t - start)%Q) as (v & -> & Hz).
  eexists. eexists. split; [reflexivity|]. rewrite Hrows.
  split; [reflexivity|]. exists v. split; [reflexivity | exact Hz].
Qed.

(** C8, amended.  A run over an empty source, against a database file that
    the environment lets it use, returns statistics in which
    [total_events] is the number of rows the table held before the run
    (0 for a new file) and [events_per_second] is zero.  The throughput
    is computed without a division by zero, for every count and every
    elapsed time. *)
Theorem empty_source_stats cfg file io readings size :
  (forall k, io k = false) ->
  (Sqlite3.events file = None -> Sqlite3.conversion_metadata file = None) ->
  (exists stats w',
     Main.convert_events cfg Spec.empty_source
       (Main.initial_world cfg file io readings size) = (Ok stats, w') /\
     Stats.get "total_events" stats = Some (Stats.Int (Spec.stored_rows file)) /\
     exists v, Stats.get "events_per_second" stats = Some v /\
               Stats.is_zero v = true) /\
  (forall total duration,
     exists v, Main.events_per_second total duration = Ok v).
Proof.
  intros Hio Hfile. split; [|apply events_per_second_total].
  unfold Main.convert_events, Main.initial_world.
  unfold bind at 1. unfold time at 1.
  cbn [db database locals clock ticks st_size reader_stops client_closed].
  set (w0 := {| db := _ |}).
  unfold Main.eventstore_client. cbn [Main.connect_error Spec.empty_source].
  unfold try_finally at 1, try_except at 1.
  unfold SQLiteEventStore.with_store. unfold bind at 1.
  change (SQLiteEventStore.__init__ cfg w0)
    with (Ok tt, snd (SQLiteEventStore.__init__ cfg w0)).
  unfold bind at 1.
  destruct (@connect_ready cfg w0) as (w1 & -> & Hready & _).
  { intros k. apply Hio. }
  { exact Hfile. }
  unfold try_finally at 1, try_except at 1.
  destruct (@reporting_empty cfg (readings 0%nat) _ w1 Hready)
    as (stats & w2 & -> & Ht & Hv).
  destruct (close_clears_connection w2) as (Hc & _).
  destruct (SQLiteEventStore.close w2) as [rc w3]. cbn [fst] in Hc. subst rc.
  eexists. eexists. split; [reflexivity|]. split; assumption.
Qed.
End EmptyRun.

(* ================================================================== *)
(** * Sample runs *)
(* ================================================================== *)

Lemma commit_cadence_witness :
  Sqlite3.journal
    (database (snd (Spec.save_all Spec.three_batches Spec.connected_world)))
  = Sqlite3.journal (database Spec.connected_world)
      ++ [ Sqlite3.ExecuteMany
             [Spec.sample_record (lit "a") (lit "1");
              Spec.sample_record (lit "b") (lit "2")];
           Sqlite3.ExecuteMany [Spec.sample_record (lit "c") (lit "3")];
           Sqlite3.Commit;
           Sqlite3.ExecuteMany [Spec.sample_record (lit "a") (lit "4")] ].
Proof.
  refine (proj1 (@commit_cadence Spec.three_batches Spec.connected_world
                   (snd (Spec.save_all Spec.three_batches Spec.connected_world))
                   _ _ _ _)).
  - vm_compute. reflexivity.
  - vm_compute. reflexivity.
  - repeat constructor; discriminate.
  - vm_compute. reflexivity.
Defined.

Lemma replace_on_conflict_witness :
  exists tbl,
    Sqlite3.events
      (Sqlite3.view
         (database (snd (Spec.save_all Spec.three_batches Spec.connected_world))))
    = Some tbl /\
    filter (Sqlite3.same_id (Spec.sample_record (lit "a") (lit "4"))) tbl
    = [Spec.sample_record (lit "a") (lit "4")].
Proof.
  refine (@replace_on_conflict Spec.three_batches Spec.connected_world
            (snd (Spec.save_all Spec.three_batches Spec.connected_world))
            (Spec.sample_record (lit "a") (lit "1"))
            (Spec.sample_record (lit "a") (lit "4"))
            [] [Spec.sample_record (lit "b") (lit "2");
                Spec.sample_record (lit "c") (lit "3")] []
            _ _ _ _ _).
  - vm_compute. reflexivity.
  - vm_compute. reflexivity.
  - reflexivity.
  - reflexivity.
  - intros r [].
Defined.

Lemma empty_source_stats_witness :
  exists stats w',
    Main.convert_events Spec.sample_config Spec.empty_source
      (Spec.sample_world Spec.new_file) = (Ok stats, w') /\
    Stats.get "total_events" stats = Some (Stats.Int 0) /\
    exists v, Stats.get "events_per_second" stats = Some v /\
              Stats.is_zero v = true.
Proof.
  refine (proj1 (@empty_source_stats Spec.sample_config Spec.new_file
                   (fun _ => false) Spec.sample_clock 4096 _ _)).
  - reflexivity.
  - reflexivity.
Defined.

(** C8 as it is written fails: against a file that already holds one row, a
    run over an empty source reports one event. *)
Lemma empty_source_stats_counterexample :
  match fst (Main.convert_events Spec.sample_config Spec.empty_source
               (Spec.sample_world Spec.used_file)) with
  | Ok stats => Stats.get "total_events" stats
  | Raise _ => None
  end = Some (Stats.Int 1).
Proof. vm_compute. reflexivity. Qed.

Lemma remainder_flushed_witness :
  Spec.writes
    (Sqlite3.journal
       (database (snd (Main.ingest Spec.sample_config
                         {| Main.connect_error := None;
                            Main.stream := Main.stream Spec.failing_source;
                            Main.read_error := None |}
                         Spec.connected_world))))
  = [ events_batch
        (locals (snd (Main.for_each_event Spec.sample_config
                        (Main.stream Spec.failing_source) None
                        Spec.connected_world))) ].
Proof.
  pose proof (@remainder_flushed_on_exhaustion Spec.sample_config
                {| Main.connect_error := None;
                   Main.stream := Main.stream Spec.failing_source;
                   Main.read_error := None |}
                Spec.connected_world) as (_ & _ & _ & H).
  cbn [Main.stream Main.read_error] in H.
  rewrite H.
  - vm_compute. reflexivity.
  - vm_compute. reflexivity.
  - vm_compute. discriminate.
  - vm_compute. reflexivity.
Defined.

(** C1 as it is written fails: the reader yields one event and then raises;
    the loop ends with that event in the buffer, the exception goes on to
    the caller, and neither the rest of [ingest] nor the rest of the run
    writes the buffer: the table of the store is empty at the end. *)
Lemma remainder_flushed_counterexample :
  let loop := Main.for_each_event Spec.sample_config
                (Main.stream Spec.failing_source)
                (Main.read_error Spec.failing_source) in
  fst (loop Spec.connected_world) = Raise (ReadError 1%N) /\
  List.length (events_batch (locals (snd (loop Spec.connected_world)))) = 1%nat /\
  fst (Main.ingest Spec.sample_config Spec.failing_source Spec.connected_world)
    = Raise (ReadError 1%N) /\
  Spec.writes
    (Sqlite3.journal
       (database (snd (Main.ingest Spec.sample_config Spec.failing_source
                         Spec.connected_world)))) = [] /\
  fst (Main.convert_events Spec.sample_config Spec.failing_source
         (Spec.sample_world Spec.new_file)) = Raise (ReadError 1%N) /\
  Sqlite3.events
    (Sqlite3.disk
       (database (snd (Main.convert_events Spec.sample_config
                         Spec.failing_source
                         (Spec.sample_world Spec.new_file))))) = Some [].
Proof. vm_compute. repeat split; reflexivity. Qed.

(* ================================================================== *)
(** * Payloads: UTF-8 and the size limit *)
(* ================================================================== *)

Section Utf8.
Local Open Scope N_scope.

Lemma byte_of_to_N b : byte_of (Byte.to_N b) = b.
Proof. unfold byte_of. now rewrite Byte.of_to_N. Qed.

Lemma in_range_spec lo hi n : in_range lo hi n = true <-> lo <= n <= hi.
Proof.
  unfold in_range. rewrite andb_true_iff, !N.leb_le. reflexivity.
Qed.

Lemma is_cont_spec n : is_cont n = true <-> 0x80 <= n <= 0xBF.
Proof. unfold is_cont. rewrite andb_true_iff, !N.leb_le. reflexivity. Qed.

Lemma encode_two n0 n1 :
  0xC2 <= n0 <= 0xDF -> 0x80 <= n1 <= 0xBF ->
  utf8_encode_char ((n0 - 0xC0) * 64 + (n1 - 0x80))
  = Some [byte_of n0; byte_of n1].
Proof.
  intros H0 H1. unfold utf8_encode_char.
  set (c := (n0 - 0xC0) * 64 + (n1 - 0x80)).
  assert (Hc : 0x80 <= c < 0x800) by (unfold c; lia).
  destruct (N.ltb_spec c 0x80); [lia|].
  destruct (N.ltb_spec c 0x800); [|lia].
  assert (0xC0 + c / 64 = n0) as -> by (unfold c; div_lia).
  assert (0x80 + c mod 64 = n1) as -> by (unfold c; div_lia).
  reflexivity.
Qed.

Lemma encode_three n0 n1 n2 :
  0xE0 <= n0 <= 0xEF ->
  (if n0 =? 0xE0 then 0xA0 else 0x80) <= n1
    <= (if n0 =? 0xED then 0x9F else 0xBF) ->
  0x80 <= n2 <= 0xBF ->
  utf8_encode_char ((n0 - 0xE0) * 4096 + (n1 - 0x80) * 64 + (n2 - 0x80))
  = Some [byte_of n0; byte_of n1; byte_of n2].
Proof.
  intros H0 H1 H2. unfold utf8_encode_char, is_surrogate.
  set (c := (n0 - 0xE0) * 4096 + (n1 - 0x80) * 64 + (n2 - 0x80)).
  destruct (N.eqb_spec n0 0xE0), (N.eqb_spec n0 0xED); try lia;
  (assert (Hc : 0x800 <= c < 0x10000 /\ ~ (0xD800 <= c <= 0xDFFF))
     by (unfold c; lia));
  (destruct (N.ltb_spec c 0x80); [lia|]);
  (destruct (N.ltb_spec c 0x800); [lia|]);
  (destruct (N.ltb_spec c 0x10000); [|lia]);
  (destruct (N.leb_spec 0xD800 c), (N.leb_spec c 0xDFFF); cbn [andb]; try lia);
  (assert (0xE0 + c / 4096 = n0) as -> by (unfold c; div_lia));
  (assert (0x80 + (c / 64) mod 64 = n1) as -> by (unfold c; div_lia));
  (assert (0x80 + c mod 64 = n2) as -> by (unfold c; div_lia));
  reflexivity.
Qed.

Lemma encode_four n0 n1 n2 n3 :
  0xF0 <= n0 <= 0xF4 ->
  (if n0 =? 0xF0 then 0x90 else 0x80) <= n1
    <= (if n0 =? 0xF4 then 0x8F else 0xBF) ->
  0x80 <= n2 <= 0xBF -> 0x80 <= n3 <= 0xBF ->
  utf8_encode_char ((n0 - 0xF0) * 262144 + (n1 - 0x80) * 4096
                    + (n2 - 0x80) * 64 + (n3 - 0x80))
  = Some [byte_of n0; byte_of n1; byte_of n2; byte_of n3].
Proof.
  intros H0 H1 H2 H3. unfold utf8_encode_char.
  set (c := (n0 - 0xF0) * 262144 + (n1 - 0x80) * 4096
            + (n2 - 0x80) * 64 + (n3 - 0x80)).
  destruct (N.eqb_spec n0 0xF0), (N.eqb_spec n0 0xF4); try lia;
  (assert (Hc : 0x10000 <= c < 0x110000) by (unfold c; lia));
  (destruct (N.ltb_spec c 0x80); [lia|]);
  (destruct (N.ltb_spec c 0x800); [lia|]);
  (destruct (N.ltb_spec c 0x10000); [lia|]);
  (destruct (N.ltb_spec c 0x110000); [|lia]);
  (assert (0xF0 + c / 262144 = n0) as -> by (unfold c; div_lia));
  (assert (0x80 + (c / 4096) mod 64 = n1) as -> by (unfold c; div_lia));
  (assert (0x80 + (c / 64) mod 64 = n2) as -> by (unfold c; div_lia));
  (assert (0x80 + c mod 64 = n3) as -> by (unfold c; div_lia));
  reflexivity.
Qed.

Lemma utf8_decode_encode_bounded n : forall b s,
  (List.length b <= n)%nat -> utf8_decode b = Some s -> utf8_encode s = Some b.
Proof.
  induction n as [|n IH]; intros b s Hlen.
  - destruct b; [|cbn in Hlen; lia]. intros H; injection H as <-. reflexivity.
  - destruct b as [|b0 r0]; [intros H; injection H as <-; reflexivity|].
    cbn [utf8_decode]. cbv zeta.
    destruct (N.ltb_spec (Byte.to_N b0) 0x80) as [Hlt|_].
    { destruct (utf8_decode r0) as [t|] eqn:Hr; [|discriminate].
      intros H; injection H as <-. cbn [utf8_encode].
      rewrite (IH r0 t) by (cbn in Hlen; lia || exact Hr).
      unfold utf8_encode_char. destruct (N.ltb_spec (Byte.to_N b0) 0x80); [|lia].
      now rewrite byte_of_to_N. }
    destruct (in_range 0xC2 0xDF (Byte.to_N b0)) eqn:H2.
    { destruct r0 as [|b1 r1]; [discriminate|].
      destruct (is_cont (Byte.to_N b1)) eqn:Hc1; [|discriminate].
      destruct (utf8_decode r1) as [t|] eqn:Hr; [|discriminate].
      intros H; injection H as <-. cbn [utf8_encode].
      rewrite (IH r1 t) by (cbn in Hlen; lia || exact Hr).
      apply in_range_spec in H2. apply is_cont_spec in Hc1.
      rewrite encode_two by assumption. now rewrite !byte_of_to_N. }
    destruct (in_range 0xE0 0xEF (Byte.to_N b0)) eqn:H3.
    { destruct r0 as [|b1 [|b2 r2]]; try discriminate.
      destruct (in_range _ _ (Byte.to_N b1)) eqn:Hc1; [|discriminate].
      destruct (is_cont (Byte.to_N b2)) eqn:Hc2; [|discriminate].
      cbn [andb].
      destruct (utf8_decode r2) as [t|] eqn:Hr; [|discriminate].
      intros H; injection H as <-. cbn [utf8_encode].
      rewrite (IH r2 t) by (cbn in Hlen; lia || exact Hr).
      apply in_range_spec in H3, Hc1. apply is_cont_spec in Hc2.
      rewrite encode_three by assumption. now rewrite !byte_of_to_N. }
    destruct (in_range 0xF0 0xF4 (Byte.to_N b0)) eqn:H4; [|discriminate].
    destruct r0 as [|b1 [|b2 [|b3 r3]]]; try discriminate.
    destruct (in_range _ _ (Byte.to_N b1)) eqn:Hc1; [|discriminate].
    destruct (is_cont (Byte.to_N b2)) eqn:Hc2; [|discriminate].
    destruct (is_cont (Byte.to_N b3)) eqn:Hc3; [|discriminate].
    cbn [andb].
    destruct (utf8_decode r3) as [t|] eqn:Hr; [|discriminate].
    intros H; injection H as <-. cbn [utf8_encode].
    rewrite (IH r3 t) by (cbn in Hlen; lia || exact Hr).
    apply in_range_spec in H4, Hc1. apply is_cont_spec in Hc2, Hc3.
    rewrite encode_four by assumption. now rewrite !byte_of_to_N.
Qed.

Lemma utf8_decode_encode b s :
  utf8_decode b = Some s -> utf8_encode s = Some b.
Proof. apply (@utf8_decode_encode_bounded (List.length b)). lia. Qed.

End Utf8.

Section Payloads.
Import SQLiteEvent.

(** X1.  A payload of bytes that are valid UTF-8 is kept as the decoded
    text, and the size the validation looks at is the number of bytes of
    the payload, since encoding the decoded text gives the bytes back:
    with validation the payload is refused as too large exactly when it
    has more than 1,048,576 bytes; without validation it is always kept. *)
Theorem bytes_payload_size b s :
  utf8_decode b = Some s ->
  encoded_size s = Ok (Z.of_nat (List.length b)) /\
  _process_event_data (PBytes b) true
    = (if (Z.of_nat (List.length b) >? MAX_DATA_SIZE)%Z
       then Raise (EventValidationError TooLarge)
       else Ok (Some s)) /\
  _process_event_data (PBytes b) false = Ok (Some s).
Proof.
  intros Hd.
  assert (Hs : encoded_size s = Ok (Z.of_nat (List.length b))).
  { unfold encoded_size. now rewrite (utf8_decode_encode _ Hd). }
  split; [exact Hs|].
  unfold _process_event_data. rewrite Hd.
  rewrite (@validate_size_on s _ Hs). split; reflexivity.
Qed.

Lemma bytes_payload_size_witness :
  _process_event_data (PBytes [x68; xc3; xa9]) true = Ok (Some [104; 233]%N).
Proof.
  exact (proj1 (proj2 (@bytes_payload_size [x68; xc3; xa9] [104; 233]%N eq_refl))).
Defined.

Local Open Scope N_scope.

Lemma ascii_app a b : Props.ascii (a ++ b) = Props.ascii a && Props.ascii b.
Proof. apply forallb_app. Qed.

Lemma hex_digit_ascii n : n < 16 -> Json.hex_digit n < 128.
Proof. intros H. unfold Json.hex_digit. destruct (n <? 10); lia. Qed.

Lemma u_escape_ascii n : Props.ascii (Json.u_escape n) = true.
Proof.
  unfold Json.u_escape, Props.ascii. cbn [forallb].
  rewrite !andb_true_iff, !N.ltb_lt.
  repeat split; try lia; apply hex_digit_ascii; apply N.mod_lt; lia.
Qed.

Lemma escape_char_ascii c : Props.ascii (Json.escape_char c) = true.
Proof.
  unfold Json.escape_char; cbv zeta.
  repeat match goal with
         | |- context [if ?b then _ else _] => destruct b eqn:?
         end;
    try reflexivity; try apply u_escape_ascii;
    try (rewrite ascii_app, !u_escape_ascii; reflexivity).
  match goal with
  | H : _ && _ = true |- _ =>
      apply andb_true_iff in H as [_ H]; apply N.leb_le in H;
      unfold Props.ascii; cbn [forallb]; rewrite andb_true_r;
      apply N.ltb_lt; lia
  end.
Qed.

Lemma basestring_ascii s : Props.ascii (Json.encode_basestring_ascii s) = true.
Proof.
  unfold Json.encode_basestring_ascii.
  change (34 :: flat_map Json.escape_char s ++ [34])
    with ([34] ++ flat_map Json.escape_char s ++ [34]).
  rewrite !ascii_app. cbn [Props.ascii forallb N.ltb N.compare Pos.compare Pos.compare_cont andb].
  rewrite andb_true_r.
  induction s as [|c s IH]; [reflexivity|].
  cbn [flat_map]. now rewrite ascii_app, escape_char_ascii, IH.
Qed.

Lemma uint_digits_ascii u : Props.ascii (uint_digits u) = true.
Proof. induction u; cbn [uint_digits]; try reflexivity; exact IHu. Qed.

Lemma int_str_ascii z : Props.ascii (int_str z) = true.
Proof.
  unfold int_str. destruct (Z.to_int z); [apply uint_digits_ascii|].
  change (45 :: uint_digits d) with ([45] ++ uint_digits d).
  now rewrite ascii_app, uint_digits_ascii.
Qed.

Lemma encode_key_ascii k p : Json.encode_key k = Some p -> Props.ascii p = true.
Proof.
  destruct k as [s|z|[]| |t]; cbn [Json.encode_key]; intros H;
    try discriminate; injection H as <-; apply basestring_ascii.
Qed.

Lemma join_ascii parts :
  forallb Props.ascii parts = true ->
  Props.ascii (Json.join Json.item_separator parts) = true.
Proof.
  induction parts as [|p ps IH]; [reflexivity|].
  cbn [forallb]. intros H. apply andb_true_iff in H as [Hp Hps].
  destruct ps as [|q qs]; [exact Hp|].
  change (Json.join Json.item_separator (p :: q :: qs))
    with (p ++ Json.item_separator ++ Json.join Json.item_separator (q :: qs)).
  rewrite !ascii_app, Hp, (IH Hps). reflexivity.
Qed.

Lemma wrap_ascii (a z : N) (body : pystr) :
  a < 128 -> z < 128 -> Props.ascii body = true ->
  Props.ascii (a :: body ++ [z]) = true.
Proof.
  intros Ha Hz Hb. change (a :: body ++ [z]) with ([a] ++ body ++ [z]).
  rewrite !ascii_app, Hb. unfold Props.ascii. cbn [forallb].
  apply N.ltb_lt in Ha, Hz. now rewrite Ha, Hz.
Qed.

Lemma encode_ascii v : forall text,
  Json.encode v = Some text -> Props.ascii text = true.
Proof.
  induction v as [ |b|z|s|b|items IH|items IH|entries IH|d|n]
    using pyval_induction; intros text; try discriminate.
  - intros H; injection H as <-; reflexivity.
  - destruct b; intros H; injection H as <-; reflexivity.
  - intros H; injection H as <-. apply int_str_ascii.
  - intros H; injection H as <-. apply basestring_ascii.
  - rewrite encode_list.
    destruct (Spec.items_parts items) as [ps|] eqn:Hp; [|discriminate].
    intros H; injection H as <-. apply wrap_ascii; [lia | lia |].
    apply join_ascii. revert ps Hp.
    induction IH as [|x xs Hx _ IHxs]; intros ps; cbn [Spec.items_parts].
    + intros H; injection H as <-. reflexivity.
    + destruct (Json.encode x) as [p|]; [|discriminate].
      destruct (Spec.items_parts xs) as [qs|]; [|discriminate].
      intros H; injection H as <-. cbn [forallb].
      now rewrite (Hx _ eq_refl), (IHxs _ eq_refl).
  - rewrite encode_tuple, encode_list.
    destruct (Spec.items_parts items) as [ps|] eqn:Hp; [|discriminate].
    intros H; injection H as <-. apply wrap_ascii; [lia | lia |].
    apply join_ascii. revert ps Hp.
    induction IH as [|x xs Hx _ IHxs]; intros ps; cbn [Spec.items_parts].
    + intros H; injection H as <-. reflexivity.
    + destruct (Json.encode x) as [p|]; [|discriminate].
      destruct (Spec.items_parts xs) as [qs|]; [|discriminate].
      intros H; injection H as <-. cbn [forallb].
      now rewrite (Hx _ eq_refl), (IHxs _ eq_refl).
  - rewrite encode_dict.
    destruct (Spec.entries_parts entries) as [ps|] eqn:Hp; [|discriminate].
    intros H; injection H as <-. apply wrap_ascii; [lia | lia |].
    apply join_ascii. revert ps Hp.
    induction IH as [|[k x] xs Hx _ IHxs]; intros ps; cbn [Spec.entries_parts].
    + intros H; injection H as <-. reflexivity.
    + cbn [snd] in Hx.
      destruct (Json.encode_key k) as [pk|] eqn:Hk; [|discriminate].
      destruct (Json.encode x) as [p|]; [|discriminate].
      destruct (Spec.entries_parts xs) as [qs|]; [|discriminate].
      intros H; injection H as <-. cbn [forallb].
      rewrite (IHxs _ eq_refl), !ascii_app, (encode_key_ascii _ Hk).
      change (58 :: 32 :: p) with ([58; 32] ++ p).
      rewrite ascii_app, (Hx _ eq_refl). reflexivity.
Qed.




End Payloads.

(* ================================================================== *)
(** * Failures of the normalisation *)
(* ================================================================== *)

Section Failures.
Import SQLiteEvent.

Lemma encoded_size_raises s e :
  encoded_size s = Raise e -> e = UnicodeEncodeError /\ utf8_encode s = None.
Proof.
  unfold encoded_size. destruct (utf8_encode s); [discriminate|].
  intros H; injection H as <-. auto.
Qed.

Lemma validate_size_raises s v e :
  validate_size s v = Raise e ->
  v = true /\
  (e = UnicodeEncodeError /\ utf8_encode s = None \/
   e = EventValidationError TooLarge /\
   exists n, encoded_size s = Ok n /\ (MAX_DATA_SIZE < n)%Z).
Proof.
  destruct v; [|discriminate]. unfold validate_size.
  destruct (encoded_size s) as [n|e0] eqn:Hn; cbn [bind].
  - destruct (Z.gtb_spec n MAX_DATA_SIZE) as [Hlt|_]; [|discriminate].
    intros H; injection H as <-. split; [reflexivity|]. right. eauto.
  - intros H; injection H as <-. apply encoded_size_raises in Hn as [-> Hs].
    auto.
Qed.

Lemma payload_raises data validate e :
  _process_event_data data validate = Raise e ->
  validate = true /\ (e = UnicodeEncodeError \/ exists k, e = EventValidationError k).
Proof.
  destruct (Spec.payload_text data) as [s|] eqn:Ht.
  - rewrite (@process_text data s validate Ht). intros H.
    apply validate_size_raises in H as [-> [[-> _] | [-> _]]]; eauto.
  - destruct data; cbn [Spec.payload_text] in Ht;
      unfold _process_event_data, Json.dumps; try rewrite Ht;
      try discriminate; destruct validate; try discriminate;
      intros H; injection H as <-; eauto.
Qed.

Lemma unvalidated_payload data :
  _process_event_data data false = Ok (Spec.payload_text data).
Proof.
  destruct (Spec.payload_text data) as [s|] eqn:Ht.
  - rewrite (@process_text data s false Ht). reflexivity.
  - destruct data; cbn [Spec.payload_text] in Ht;
      unfold _process_event_data, Json.dumps; try rewrite Ht;
      try discriminate; reflexivity.
Qed.



Lemma serialize_metadata_raises event e :
  _serialize_metadata event = Raise e ->
  e = TypeError /\
  exists k v, In (k, v) (cleaned_metadata event) /\ Json.encode v = None.
Proof.
  unfold _serialize_metadata, Json.dumps. rewrite encode_dict.
  destruct (Spec.entries_parts (cleaned_metadata event)) as [ps|] eqn:Hp;
    [discriminate|].
  intros H; injection H as <-. split; [reflexivity|].
  apply entries_parts_none in Hp as (k & v & Hin & [Hk | Hv]); [|eauto].
  rewrite cleaned_metadata_retained in Hin.
  now apply retained_keys_encode in Hin.
Qed.



End Failures.

(* ================================================================== *)
(** * The metadata read back *)
(* ================================================================== *)

Section Metadata.
Import SQLiteEvent.

Lemma NoDup_all_distinct l : NoDup l -> Spec.all_distinct l = true.
Proof.
  induction 1 as [|x r Hx _ IH]; [reflexivity|].
  cbn [Spec.all_distinct]. rewrite IH, andb_true_r. apply negb_true_iff.
  destruct (existsb (pystr_eqb x) r) eqn:E; [|reflexivity].
  apply existsb_exists in E as (y & Hy & E). apply pystr_eqb_eq in E.
  subst y. contradiction.
Qed.

Lemma keys_of_retained items :
  Spec.keys_of (Spec.retained items)
  = List.map fst (filter (fun kv => match Spec.converted (snd kv) with
                                    | Some _ => true
                                    | None => false
                                    end) items).
Proof.
  induction items as [|[key value] rest IH]; [reflexivity|].
  unfold Spec.retained. cbn [flat_map filter fst snd].
  fold (Spec.retained rest).
  destruct (Spec.converted value); cbn [app Spec.keys_of Spec.text_key List.map fst];
    rewrite IH; reflexivity.
Qed.

Lemma NoDup_map_filter A B (f : A -> B) (p : A -> bool) l :
  NoDup (List.map f l) -> NoDup (List.map f (filter p l)).
Proof.
  induction l as [|a l IH]; cbn [List.map filter]; [auto|].
  intros H. inversion H as [|? ? Hn Hd]; subst.
  destruct (p a); [|auto]. cbn [List.map]. constructor; [|auto].
  intros Hin. apply Hn. apply in_map_iff in Hin as (y & <- & Hy).
  apply filter_In in Hy as [Hy _]. now apply in_map.
Qed.

Lemma metadata_keys event :
  List.map fst (metadata event)
  = [lit "stream_position"; lit "commit_position"; lit "prepare_position";
     lit "retry_count"; lit "link"; lit "content_type"; lit "created"].
Proof. reflexivity. Qed.

Lemma retained_entry items k v :
  In (k, v) (Spec.retained items) ->
  exists key value, In (key, value) items /\ k = KStr key /\
                    Spec.converted value = Some v.
Proof.
  unfold Spec.retained. intros H.
  apply in_flat_map in H as ([key value] & Hin & H). cbn [fst snd] in H.
  destruct (Spec.converted value) as [cv|] eqn:Hcv; [|destruct H].
  destruct H as [H | []]. injection H as <- <-. eauto.
Qed.

(** X5.  The metadata text is pure ASCII, and when every retained value
    is made of [None], booleans, integers, texts of Unicode scalar values,
    lists and dictionaries with distinct such texts as keys, reading the
    text back with [json.loads] gives the mapping that was serialised,
    keys in the same order. *)
Theorem metadata_roundtrip event text :
  _serialize_metadata event = Ok text ->
  (forall k v, In (k, v) (cleaned_metadata event) ->
               Spec.json_native v = true /\ Spec.distinct_keys v = true) ->
  Props.ascii text = true /\
  Json.loads text = Some (PDict (cleaned_metadata event)).
Proof.
  unfold _serialize_metadata, Json.dumps.
  destruct (Json.encode (PDict (cleaned_metadata event))) as [t|] eqn:He;
    [|discriminate].
  intros H; injection H as <-. intros Hv.
  split; [exact (encode_ascii _ He)|].
  apply loads_roundtrip; [| |exact He].
  - cbn [Spec.json_native]. apply forallb_forall. intros [k v] Hin.
    cbn [fst snd]. rewrite (proj1 (Hv _ _ Hin)), andb_true_r.
    rewrite cleaned_metadata_retained in Hin.
    apply retained_entry in Hin as (key & value & Hin & -> & _).
    cbn [Spec.text_key].
    assert (F : forallb Spec.scalar_text (List.map fst (metadata event)) = true)
      by (vm_compute; reflexivity).
    rewrite forallb_forall in F. apply F.
    apply in_map_iff. exists (key, value). auto.
  - cbn [Spec.distinct_keys]. apply andb_true_iff. split.
    + rewrite cleaned_metadata_retained, keys_of_retained.
      apply NoDup_all_distinct, NoDup_map_filter.
      apply all_distinct_NoDup. vm_compute. reflexivity.
    + apply forallb_forall. intros [k v] Hin. exact (proj2 (Hv _ _ Hin)).
Qed.

End Metadata.

(* ================================================================== *)
(** * The command line *)
(* ================================================================== *)

Section CommandLine.
Local Open Scope Z_scope.

Lemma post_init_ok config :
  ConversionConfig.__post_init__ config = Ok tt <->
  ConversionConfig.eventstore_uri config <> [] /\
  0 < ConversionConfig.batch_size config /\
  0 < ConversionConfig.commit_frequency config.
Proof.
  unfold ConversionConfig.__post_init__.
  destruct (ConversionConfig.eventstore_uri config).
  - split; [discriminate | intros ([] & _); reflexivity].
  - destruct (Z.leb_spec (ConversionConfig.batch_size config) 0).
    + split; [discriminate | lia].
    + destruct (Z.leb_spec (ConversionConfig.commit_frequency config) 0).
      * split; [discriminate | lia].
      * split; [intros _; repeat split; (discriminate || lia) | reflexivity].
Qed.

Lemma post_init_raises config e :
  ConversionConfig.__post_init__ config = Raise e -> e = ValueError.
Proof.
  unfold ConversionConfig.__post_init__.
  destruct (ConversionConfig.eventstore_uri config); [congruence|].
  destruct (_ <=? 0); [congruence|]. destruct (_ <=? 0); congruence.
Qed.

(** X6.  [create_config_from_args] returns a configuration exactly when
    [EVENTSTORE_URI] is set and not empty and the batch size and the commit
    frequency are positive; the configuration then has that URI, the
    resolved path, the two numbers of the command line, and validation and
    indexes on unless the matching skip flag is given, and it passes
    [__post_init__].  Otherwise the function raises [ValueError].  (The
    creation of the directory of the database is not modelled.) *)
Theorem configuration_from_arguments environ resolve args :
  match Cli.create_config_from_args environ resolve args with
  | Ok config =>
      environ = Some (ConversionConfig.eventstore_uri config) /\
      ConversionConfig.eventstore_uri config <> [] /\
      ConversionConfig.db_path config = resolve (Namespace.db args) /\
      ConversionConfig.batch_size config = Namespace.batch_size args /\
      ConversionConfig.commit_frequency config = Namespace.commit_frequency args /\
      ConversionConfig.validate_data config = negb (Namespace.skip_validation args) /\
      ConversionConfig.create_indexes config = negb (Namespace.skip_indexes args) /\
      0 < ConversionConfig.batch_size config /\
      0 < ConversionConfig.commit_frequency config /\
      ConversionConfig.__post_init__ config = Ok tt
  | Raise e =>
      e = ValueError /\
      (environ = None \/ environ = Some [] \/
       Namespace.batch_size args <= 0 \/ Namespace.commit_frequency args <= 0)
  end.
Proof.
  unfold Cli.create_config_from_args.
  destruct environ as [[|c uri]|]; [auto | | auto]. cbv zeta.
  match goal with
  | |- context [ConversionConfig.__post_init__ ?c] =>
      destruct (ConversionConfig.__post_init__ c) as [[]|e] eqn:E
  end.
  - pose proof (proj1 (post_init_ok _) E) as (Hu & Hb & Hc).
    cbn in Hb, Hc |- *. repeat split; solve [assumption | discriminate].
  - split; [exact (post_init_raises _ E)|].
    unfold ConversionConfig.__post_init__ in E.
    cbn [ConversionConfig.eventstore_uri ConversionConfig.batch_size
         ConversionConfig.commit_frequency] in E.
    destruct (Z.leb_spec (Namespace.batch_size args) 0); [auto|].
    destruct (Z.leb_spec (Namespace.commit_frequency args) 0); [auto|].
    discriminate.
Qed.

End CommandLine.

(* ================================================================== *)
(** * Outcomes of computations *)
(* ================================================================== *)

Section Outcomes.
Import Props.

Lemma outcome_weaken A (Q Q' : A -> World -> Prop) (E E' : exn -> World -> Prop) r :
  outcome Q E r ->
  (forall a w, Q a w -> Q' a w) -> (forall e w, E e w -> E' e w) ->
  outcome Q' E' r.
Proof. destruct r as [[a|e] w]; cbn; auto. Qed.

Lemma outcome_bind A B (m : M A) (k : A -> M B)
      (R : A -> World -> Prop) (Q : B -> World -> Prop)
      (E : exn -> World -> Prop) w :
  outcome R E (m w) ->
  (forall a w1, R a w1 -> outcome Q E (k a w1)) ->
  outcome Q E (bind m k w).
Proof.
  unfold bind. destruct (m w) as [[a|e] w1]; cbn [outcome]; auto.
Qed.

Lemma outcome_try_except A (body : M A) (caught : exn -> bool)
      (handler : exn -> M A)
      (Q : A -> World -> Prop) (E1 E : exn -> World -> Prop) w :
  outcome Q E1 (body w) ->
  (forall e w1, E1 e w1 ->
     if caught e then outcome Q E (handler e w1) else E e w1) ->
  outcome Q E (try_except body caught handler w).
Proof.
  unfold try_except. destruct (body w) as [[a|e] w1]; cbn [outcome]; [auto|].
  intros H1 Hh. specialize (Hh _ _ H1). destruct (caught e); exact Hh.
Qed.

Lemma outcome_try_finally A (body : M A) (cleanup : M unit)
      (Q1 Q : A -> World -> Prop) (E1 E : exn -> World -> Prop) w :
  outcome Q1 E1 (body w) ->
  (forall a w1, Q1 a w1 -> outcome (fun _ => Q a) E (cleanup w1)) ->
  (forall e w1, E1 e w1 -> outcome (fun _ => E e) E (cleanup w1)) ->
  outcome Q E (try_finally body cleanup w).
Proof.
  unfold try_finally. destruct (body w) as [[a|e] w1]; cbn [outcome].
  - intros H1 Hq _. specialize (Hq _ _ H1).
    destruct (cleanup w1) as [[[]|e'] w2]; exact Hq.
  - intros H1 _ He. specialize (He _ _ H1).
    destruct (cleanup w1) as [[[]|e'] w2]; exact He.
Qed.

Lemma outcome_driver A (f : Sqlite3.Database -> result A * Sqlite3.Database)
      (Q : A -> World -> Prop) (E : exn -> World -> Prop) w :
  (forall r d, f (database w) = (r, d) ->
     outcome Q E
       (r, {| db := db w; database := d; locals := locals w;
              clock := clock w; ticks := ticks w; st_size := st_size w;
              reader_stops := reader_stops w;
              client_closed := client_closed w |})) ->
  outcome Q E (driver f w).
Proof.
  unfold driver. destruct (f (database w)) as [r d]. intros H. now apply H.
Qed.

End Outcomes.

(* ================================================================== *)
(** * The store during a run *)
(* ================================================================== *)

Section Writes.
Import Sqlite3.

Lemma insert_rows_raises rows : forall tbl e tbl',
  insert_rows rows tbl = (Raise e, tbl') ->
  e = Sqlite3Error IntegrityError \/ e = UnicodeEncodeError \/ e = OverflowError.
Proof.
  induction rows as [|r rows IH]; intros tbl e tbl'; cbn [insert_rows];
    [discriminate|].
  unfold insert_or_replace, bind_parameters.
  destruct (negb _).
  { intros H; injection H as <- _. auto. }
  destruct (negb _).
  { intros H; injection H as <- _. auto. }
  destruct (check_constraints r); [apply IH|].
  intros H; injection H as <- _. auto.
Qed.

Lemma driver_call_disk A c (run : Database -> result A * Database) d :
  (forall d0, disk (snd (run d0)) = disk d0) ->
  disk (snd (driver_call c run d)) = disk d.
Proof.
  intros Hr. unfold driver_call.
  destruct (closed d); [reflexivity|].
  destruct (io_fault d _); [reflexivity|].
  rewrite Hr. reflexivity.
Qed.

Lemma executemany_disk rows d : disk (snd (executemany rows d)) = disk d.
Proof.
  apply driver_call_disk. intros d0.
  destruct (events (view d0)); [|reflexivity].
  destruct (insert_rows rows l). reflexivity.
Qed.

Lemma executemany_raises rows d e d' :
  executemany rows d = (Raise e, d') ->
  is_sqlite3_error e = true \/ e = UnicodeEncodeError \/ e = OverflowError.
Proof.
  unfold executemany, driver_call.
  destruct (closed d); [intros H; injection H as <- _; auto|].
  destruct (io_fault d _); [intros H; injection H as <- _; auto|].
  cbn [view log_call].
  destruct (events (view d)) as [tbl|]; [|intros H; injection H as <- _; auto].
  destruct (insert_rows rows tbl) as [r tbl'] eqn:Hi.
  intros H; injection H as -> _.
  apply insert_rows_raises in Hi as [-> | [-> | ->]]; auto.
Qed.

Lemma commit_raises_disk d e d' :
  commit d = (Raise e, d') -> disk d' = disk d.
Proof.
  unfold commit, driver_call.
  destruct (closed d); [intros H; injection H as _ <-; reflexivity|].
  destruct (io_fault d _); [intros H; injection H as _ <-; reflexivity|].
  discriminate.
Qed.

End Writes.

Section Frame.
Import SQLiteEventStore.

(** What a call of [save_events_batch] leaves as it was, and what it
    raises. *)
Lemma save_events_batch_frame b w :
  config (db (snd (save_events_batch b w))) = config (db w) /\
  connection (db (snd (save_events_batch b w))) = connection (db w) /\
  locals (snd (save_events_batch b w)) = locals w /\
  Props.handles (snd (save_events_batch b w)) = Props.handles w /\
  forall e, fst (save_events_batch b w) = Raise e ->
    Sqlite3.disk (database (snd (save_events_batch b w)))
      = Sqlite3.disk (database w) /\
    (is_sqlite3_error e = true \/ e = UnicodeEncodeError \/ e = OverflowError \/
     (e = ZeroDivisionError /\
      ConversionConfig.commit_frequency (config (db w)) = 0%Z)).
Proof.
  destruct (save_events_batch b w) as [res w'] eqn:E. cbn [fst snd].
  revert E. unfold save_events_batch.
  lazymatch goal with
  | |- context [bind get ?k w] => change (bind get k w) with (k w w)
  end.
  cbv beta.
  destruct b as [|r b'].
  { intros E; injection E as <- <-.
    refine (conj _ (conj _ (conj _ (conj _ _)))); try reflexivity.
    discriminate. }
  destruct (connection (db w)) as [c|] eqn:Hc.
  2:{ intros E; injection E as <- <-.
      refine (conj _ (conj _ (conj _ (conj _ _)))); auto. discriminate. }
  set (rows := r :: b'). unfold try_except.
  unfold bind at 1. unfold driver at 1.
  pose proof (executemany_disk rows (database w)) as Hd.
  destruct (Sqlite3.executemany rows (database w)) as [[[]|e] d1] eqn:He;
    cbn [snd] in Hd.
  2:{ apply executemany_raises in He.
      destruct (is_sqlite3_error e) eqn:Hs; intros E; injection E as <- <-;
        (refine (conj _ (conj _ (conj _ (conj _ _)))); [auto ..|]);
        intros e0 H0; injection H0 as <-; (split; [exact Hd|]);
        rewrite Hs; destruct He as [He | [He | He]]; auto. }
  cbn [bind get set_db lift db config connection events_processed
       batches_processed database].
  unfold py_mod.
  destruct (Z.eqb_spec (ConversionConfig.commit_frequency (config (db w))) 0)
    as [Hz|Hz].
  { intros E; injection E as <- <-.
    refine (conj _ (conj _ (conj _ (conj _ _)))); [auto ..|].
    intros e0 H0; injection H0 as <-. split; [exact Hd | auto]. }
  cbn [bind lift].
  destruct (_ =? 0)%Z.
  - unfold driver. cbn [database].
    destruct (Sqlite3.commit d1) as [[[]|e] d2] eqn:Hcm.
    + intros E; injection E as <- <-.
      refine (conj _ (conj _ (conj _ (conj _ _)))); [auto ..|]. discriminate.
    + pose proof (commit_raises _ Hcm) as Hs.
      apply commit_raises_disk in Hcm. rewrite Hs.
      intros E; injection E as <- <-.
      refine (conj _ (conj _ (conj _ (conj _ _)))); [auto ..|].
      intros e0 H0; injection H0 as <-. cbn. split; [congruence | auto].
  - intros E; injection E as <- <-.
    refine (conj _ (conj _ (conj _ (conj _ _)))); [auto ..|]. discriminate.
Qed.

End Frame.

Section Run.
Import Props.
Variable cfg : ConversionConfig.t.
Variable source : Main.EventStore.

Lemma save_running b h w :
  running cfg h w ->
  outcome (fun _ w' => running cfg h w' /\ locals w' = locals w)
          (failing cfg source h)
          (SQLiteEventStore.save_events_batch b w).
Proof.
  intros [[Hc Hcfg] Hh].
  destruct (save_events_batch_frame b w) as (H1 & H2 & H3 & H4 & H5).
  destruct (SQLiteEventStore.save_events_batch b w) as [[[]|e] w'];
    cbn [fst snd] in *; cbn [outcome]; unfold running, failing, connected.
  - repeat split; congruence.
  - destruct (H5 e eq_refl) as [_ He].
    repeat split; try congruence. unfold may_raise, lets_through.
    rewrite Hcfg in He. tauto.
Qed.

Lemma init_raises event validate e :
  SQLiteEvent.__init__ event validate = Raise e ->
  is_validation_error e = true \/ e = UnicodeEncodeError \/ e = TypeError.
Proof.
  unfold SQLiteEvent.__init__.
  destruct (SQLiteEvent._process_event_data _ validate) as [d|e0] eqn:Hp;
    cbn [SQLiteEvent.bind].
  - destruct (SQLiteEvent._serialize_metadata event) as [m|e1] eqn:Hm;
      cbn [SQLiteEvent.bind]; [discriminate|].
    intros H; injection H as <-.
    apply serialize_metadata_raises in Hm as [-> _]. auto.
  - intros H; injection H as <-.
    apply payload_raises in Hp as [_ [-> | [k ->]]]; auto.
Qed.

Lemma process_event_running event h w :
  running cfg h w ->
  outcome (fun _ => running cfg h) (failing cfg source h)
          (Main.process_event cfg event w).
Proof.
  intros Hr. unfold Main.process_event.
  apply outcome_try_except
    with (E1 := fun e w1 => (is_validation_error e = true \/
                             may_raise cfg source e) /\ running cfg h w1).
  - apply outcome_bind with (R := fun _ w1 => w1 = w).
    + unfold lift.
      destruct (SQLiteEvent.__init__ event _) as [r|e] eqn:Hi; cbn [outcome];
        [reflexivity|].
      split; [|exact Hr]. unfold may_raise, lets_through.
      apply init_raises in Hi. tauto.
    + intros r w1 ->.
      cbn [bind get Main.set_events_batch set_locals locals events_batch
           total_processed skipped_events].
      destruct (_ >=? _)%Z; [|cbn [ret outcome]; exact Hr].
      match goal with
      | |- outcome _ _ (bind (SQLiteEventStore.save_events_batch ?b) _ ?w2) =>
          apply outcome_bind
            with (R := fun _ w' => running cfg h w' /\ locals w' = locals w2);
          [ apply outcome_weaken
              with (Q := fun _ w' => running cfg h w' /\ locals w' = locals w2)
                   (E := failing cfg source h);
            [apply save_running; exact Hr | auto |
             intros e w3 (He & Hc3 & Hh3); split; [auto | split; assumption]]
          |]
      end.
      intros [] w3 [Hr3 Hl3].
      cbn [bind get Main.set_total_processed Main.set_events_batch set_locals
           locals events_batch total_processed skipped_events lift].
      unfold py_mod.
      destruct (Z.eqb_spec (ConversionConfig.batch_size cfg * 10) 0) as [Hz|Hz];
        cbn [bind lift outcome].
      * split; [|exact Hr3]. right. right. split; [reflexivity|]. right. lia.
      * exact Hr3.
  - intros e w1 [He Hr1]. destruct (is_validation_error e) eqn:Hv.
    + cbn [bind get Main.set_skipped_events set_locals outcome]. exact Hr1.
    + destruct Hr1 as [Hc1 Hh1].
      destruct He as [He | He]; [discriminate|].
      exact (conj He (conj Hc1 Hh1)).
Qed.

Lemma for_each_running events h : forall w,
  running cfg h w ->
  outcome (fun _ => running cfg h) (failing cfg source h)
          (Main.for_each_event cfg events (Main.read_error source) w).
Proof.
  induction events as [|event rest IH]; intros w Hr; cbn [Main.for_each_event].
  - destruct (Main.read_error source) as [e|] eqn:He; cbn [outcome raise ret];
      [|exact Hr].
    destruct Hr as [Hc Hh]. split; [|split; assumption].
    left. unfold lets_through. tauto.
  - apply outcome_bind with (R := fun _ => running cfg h).
    + now apply process_event_running.
    + intros _ w1 Hr1. now apply IH.
Qed.

Lemma flush_running h w :
  running cfg h w ->
  outcome (fun _ => running cfg h) (failing cfg source h)
          (Main.flush_remaining w).
Proof.
  intros Hr. unfold Main.flush_remaining.
  change (outcome (fun _ => running cfg h) (failing cfg source h)
            (match events_batch (locals w) with
             | [] => ret tt
             | _ :: _ =>
                 SQLiteEventStore.save_events_batch (events_batch (locals w)) ;;
                 Main.set_total_processed
                   (total_processed (locals w)
                    + Main.len (events_batch (locals w)))
             end w)).
  destruct (events_batch (locals w)) as [|r b]; [exact Hr|].
  apply outcome_bind with (R := fun _ w' => running cfg h w' /\ locals w' = locals w).
  - now apply save_running.
  - intros _ w1 [Hr1 _]. exact Hr1.
Qed.

Lemma stop_running (n : nat) (c : bool) w :
  running cfg (n, c) w -> running cfg (S n, c) (snd (stop w)).
Proof.
  unfold running, connected, handles. cbn.
  intros [Hc Hh]. injection Hh as <- <-. auto.
Qed.

Lemma ingest_running (n : nat) (c : bool) w :
  running cfg (n, c) w ->
  outcome (fun _ => running cfg (S n, c)) (failing cfg source (S n, c))
          (Main.ingest cfg source w).
Proof.
  intros Hr. unfold Main.ingest.
  apply outcome_try_finally
    with (Q1 := fun _ => running cfg (n, c)) (E1 := failing cfg source (n, c)).
  - apply outcome_bind with (R := fun _ => running cfg (n, c)).
    + now apply for_each_running.
    + intros _ w1 Hr1. now apply flush_running.
  - intros _ w1 Hr1. exact (stop_running Hr1).
  - intros e w1 (He & Hc & Hh).
    destruct (@stop_running n c w1 (conj Hc Hh)) as [Hc' Hh'].
    exact (conj He (conj Hc' Hh')).
Qed.

Lemma driver_running A (f : Sqlite3.Database -> result A * Sqlite3.Database) h w :
  (forall d e d', f d = (Raise e, d') -> is_sqlite3_error e = true) ->
  running cfg h w ->
  outcome (fun _ => running cfg h) (failing cfg source h) (driver f w).
Proof.
  intros Hf Hr. apply outcome_driver. intros [a|e] d Hd; cbn [outcome].
  - exact Hr.
  - destruct Hr as [Hc Hh]. split; [|split; assumption].
    left. left. exact (Hf _ _ _ Hd).
Qed.

Lemma select_count_raises d e d' :
  Sqlite3.select_count d = (Raise e, d') -> is_sqlite3_error e = true.
Proof.
  apply driver_call_raises. clear. intros d e d'.
  destruct (Sqlite3.events (Sqlite3.view d)); [discriminate|].
  intros H; injection H as <- _; reflexivity.
Qed.

Lemma select_range_raises d e d' :
  Sqlite3.select_range d = (Raise e, d') -> is_sqlite3_error e = true.
Proof.
  apply driver_call_raises. clear. intros d e d'.
  destruct (Sqlite3.events (Sqlite3.view d)); [discriminate|].
  intros H; injection H as <- _; reflexivity.
Qed.

Lemma get_stats_running h w :
  running cfg h w ->
  outcome (fun stats w' =>
             running cfg h w' /\
             exists total range,
               stats = [ ("total_events"%string, Stats.Int total);
                         ("events_processed_this_session"%string,
                          Stats.Int (events_processed (db w')));
                         ("batches_processed"%string,
                          Stats.Int (batches_processed (db w')));
                         ("date_range"%string,
                          Stats.Range (fst range) (snd range));
                         ("database_size_mb"%string,
                          Stats.Float (inject_Z (st_size w')
                                       / inject_Z (1024 * 1024))%Q) ])
          (failing cfg source h)
          (SQLiteEventStore.get_stats w).
Proof.
  intros Hr. unfold SQLiteEventStore.get_stats.
  lazymatch goal with
  | |- context [bind get ?k w] => change (bind get k w) with (k w w)
  end.
  cbv beta. rewrite (proj1 (proj1 Hr)).
  apply outcome_bind with (R := fun _ => running cfg h).
  { apply driver_running; [apply select_count_raises | exact Hr]. }
  intros total w1 Hr1.
  apply outcome_bind with (R := fun _ => running cfg h).
  { apply driver_running; [apply select_range_raises | exact Hr1]. }
  intros range w2 Hr2. cbn [bind get ret outcome].
  split; [exact Hr2|]. exists total, range. reflexivity.
Qed.

Lemma events_per_second_number total duration :
  exists v, Main.events_per_second total duration = Ok v /\
            Cli.is_number v = true.
Proof.
  unfold Main.events_per_second, py_truediv.
  destruct (Qlt_le_dec 0 duration) as [Hlt|Hle]; [|eauto].
  destruct (Qeq_bool duration 0) eqn:E; [|eauto].
  apply Qeq_bool_iff in E. rewrite E in Hlt. now apply Qlt_irrefl in Hlt.
Qed.

Lemma conversion_running start (n : nat) (c : bool) w :
  running cfg (n, c) w ->
  outcome (fun stats w' =>
             running cfg (S n, c) w' /\
             Forall (fun key => Stats.get key stats <> None) statistics_keys /\
             Cli.print_summary stats = Some tt /\
             Stats.get "events_processed_this_session" stats
               = Some (Stats.Int (events_processed (db w'))) /\
             Stats.get "batches_processed" stats
               = Some (Stats.Int (batches_processed (db w'))) /\
             Stats.get "skipped_events" stats
               = Some (Stats.Int (skipped_events (locals w'))))
          (failing cfg source (S n, c))
          (Main.conversion cfg source start w).
Proof.
  intros Hr. unfold Main.conversion.
  apply outcome_bind with (R := fun _ => running cfg (n, c)).
  { cbn [set_locals outcome]. exact Hr. }
  intros _ w1 Hr1.
  apply outcome_bind with (R := fun _ => running cfg (S n, c)).
  { now apply ingest_running. }
  intros _ w2 Hr2.
  eapply outcome_bind; [apply get_stats_running; exact Hr2|].
  cbv beta. intros stats w3 (Hr3 & total & range & ->).
  cbn [bind time get].
  match goal with
  | |- context [Main.events_per_second ?t ?d] =>
      destruct (events_per_second_number t d) as (v & -> & Hv)
  end.
  cbn [bind lift ret outcome locals db].
  split; [exact Hr3|].
  destruct v as [z|q|lo hi]; [| |discriminate Hv];
    (split; [repeat constructor; discriminate|]);
    (split; [reflexivity|]); (split; [reflexivity|]); split; reflexivity.
Qed.

End Run.

Section Store.
Import Props.
Variable cfg : ConversionConfig.t.

Lemma driver_refused A (f : Sqlite3.Database -> result A * Sqlite3.Database) h w :
  (forall d e d', f d = (Raise e, d') -> is_sqlite3_error e = true) ->
  running cfg h w ->
  outcome (fun _ => running cfg h) (refused cfg h) (driver f w).
Proof.
  intros Hf Hr. apply outcome_driver. intros [a|e] d Hd; cbn [outcome].
  - exact Hr.
  - destruct Hr as [[Hc Hcfg] Hh]. split; [exact (Hf _ _ _ Hd)|]. auto.
Qed.

Lemma select_events_table_raises d e d' :
  Sqlite3.select_events_table d = (Raise e, d') -> is_sqlite3_error e = true.
Proof. apply driver_call_raises. intros ? ? ?. discriminate. Qed.

Lemma connect_raises d e d' :
  Sqlite3.connect d = (Raise e, d') -> is_sqlite3_error e = true.
Proof.
  unfold Sqlite3.connect. destruct (Sqlite3.io_fault d _); [|discriminate].
  intros H; injection H as <- _. reflexivity.
Qed.

Ltac drive h :=
  lazymatch goal with
  | Hr : running _ h ?w
    |- outcome _ _ (bind (driver (Sqlite3.execute _)) _ ?w) =>
      apply outcome_bind with (R := fun _ => running cfg h);
      [apply driver_refused; [apply execute_raises | exact Hr]
      |clear Hr; intros _ ? ?]
  | Hr : running _ h ?w |- outcome _ _ (driver (Sqlite3.execute _) ?w) =>
      apply driver_refused; [apply execute_raises | exact Hr]
  | Hr : running _ h ?w |- outcome _ _ (driver Sqlite3.commit ?w) =>
      apply driver_refused; [apply commit_raises | exact Hr]
  end.

Lemma create_schema_running h w :
  running cfg h w ->
  outcome (fun _ => running cfg h) (refused cfg h)
          (SQLiteEventStore._create_schema w).
Proof.
  intros Hr. unfold SQLiteEventStore._create_schema.
  lazymatch goal with
  | |- context [bind get ?k w] => change (bind get k w) with (k w w)
  end.
  cbv beta. rewrite (proj1 (proj1 Hr)).
  apply outcome_bind with (R := fun _ => running cfg h).
  { apply driver_refused; [apply select_events_table_raises | exact Hr]. }
  clear Hr. intros [|] w1 Hr; [exact Hr|].
  repeat drive h.
Qed.

Lemma create_indexes_running h w :
  running cfg h w ->
  outcome (fun _ => running cfg h) (refused cfg h)
          (SQLiteEventStore._create_indexes w).
Proof.
  intros Hr. unfold SQLiteEventStore._create_indexes.
  lazymatch goal with
  | |- context [bind get ?k w] => change (bind get k w) with (k w w)
  end.
  cbv beta. rewrite (proj1 (proj1 Hr)).
  repeat drive h.
Qed.

Lemma connect_running h w :
  config (db w) = cfg -> handles w = h ->
  outcome (fun _ => running cfg h) (refused cfg h) (SQLiteEventStore.connect w).
Proof.
  intros Hcfg Hh. unfold SQLiteEventStore.connect.
  apply outcome_try_except with (E1 := refused cfg h).
  2:{ intros e w1 H. destruct (is_sqlite3_error e); exact H. }
  apply outcome_bind
    with (R := fun _ w1 => config (db w1) = cfg /\ handles w1 = h).
  { apply outcome_driver. intros [a|e] d Hd; cbn [outcome]; [auto|].
    split; [exact (connect_raises _ Hd) | auto]. }
  intros _ w1 [Hcfg1 Hh1].
  lazymatch goal with
  | |- context [bind get ?k w1] => change (bind get k w1) with (k w1 w1)
  end.
  cbv beta.
  apply outcome_bind with (R := fun _ => running cfg h).
  { cbn [set_db outcome]. unfold running, connected. cbn. auto. }
  intros _ w2 Hr.
  repeat drive h.
  apply outcome_bind with (R := fun _ => running cfg h).
  { apply create_schema_running. assumption. }
  intros _ wc Hr3.
  lazymatch goal with
  | |- context [bind get ?k wc] => change (bind get k wc) with (k wc wc)
  end.
  cbv beta. destruct (ConversionConfig.create_indexes _).
  - now apply create_indexes_running.
  - exact Hr3.
Qed.

Lemma close_handles w :
  handles (snd (SQLiteEventStore.close w)) = handles w.
Proof.
  assert (H : outcome (fun _ w' => handles w' = handles w)
                      (fun _ w' => handles w' = handles w)
                      (SQLiteEventStore.close w)).
  2:{ destruct (SQLiteEventStore.close w) as [[a|e] w']; exact H. }
  set (P := fun w' : World => handles w' = handles w).
  assert (Hd : forall A (f : Sqlite3.Database -> result A * Sqlite3.Database) w1,
             P w1 -> outcome (fun _ => P) (fun _ => P) (driver f w1)).
  { intros A f w1 H1. apply outcome_driver. intros [a|e] d _; exact H1. }
  assert (Hu : forall key value w1,
             P w1 ->
             outcome (fun _ => P) (fun _ => P)
                     (SQLiteEventStore.update_conversion_metadata key value w1)).
  { intros key value w1 H1. unfold SQLiteEventStore.update_conversion_metadata.
    change (outcome (fun _ => P) (fun _ => P)
              (match connection (db w1) with
               | None => ret tt
               | Some _ => driver (Sqlite3.execute
                                     (Sqlite3.ReplaceMetadata key value))
               end w1)).
    destruct (connection (db w1)); [now apply Hd | exact H1]. }
  unfold SQLiteEventStore.close.
  lazymatch goal with
  | |- context [bind get ?k w] => change (bind get k w) with (k w w)
  end.
  cbv beta. destruct (connection (db w)); [|reflexivity].
  apply outcome_try_finally with (Q1 := fun _ => P) (E1 := fun _ => P).
  - apply outcome_try_except with (E1 := fun _ => P).
    + apply outcome_bind with (R := fun _ => P); [apply Hd; reflexivity|].
      intros _ w1 H1.
      apply outcome_bind with (R := fun _ => P); [exact H1|].
      intros now w2 H2.
      apply outcome_bind with (R := fun _ => P); [now apply Hu|].
      intros _ w3 H3.
      lazymatch goal with
      | |- context [bind get ?k w3] => change (bind get k w3) with (k w3 w3)
      end.
      cbv beta.
      apply outcome_bind with (R := fun _ => P); [now apply Hu|].
      intros _ w4 H4.
      apply outcome_bind with (R := fun _ => P); [now apply Hd|].
      intros _ w5 H5. now apply Hd.
    + intros e w1 H1. destruct (is_sqlite3_error e); exact H1.
  - intros _ w1 H1. exact H1.
  - intros e w1 H1. exact H1.
Qed.

End Store.

(* ================================================================== *)
(** * The whole run *)
(* ================================================================== *)

Section WholeRun.
Import Props.
Variable cfg : ConversionConfig.t.
Variable source : Main.EventStore.

Lemma with_store_conversion start (n : nat) (c : bool) w :
  handles w = (n, c) ->
  outcome (fun stats w' =>
             connection (db w') = None /\ handles w' = (S n, c) /\
             Forall (fun key => Stats.get key stats <> None) statistics_keys /\
             Cli.print_summary stats = Some tt)
          (fun e w' =>
             (is_sqlite3_error e = true /\ handles w' = (n, c)) \/
             (may_raise cfg source e /\ connection (db w') = None /\
              handles w' = (S n, c)))
          (SQLiteEventStore.with_store cfg
             (try_except (Main.conversion cfg source start) is_exception
                         (fun e => raise e)) w).
Proof.
  intros Hh. unfold SQLiteEventStore.with_store.
  apply outcome_bind
    with (R := fun _ w1 => config (db w1) = cfg /\ handles w1 = (n, c)).
  { cbn. auto. }
  intros _ w1 [Hcfg1 Hh1].
  apply outcome_bind with (R := fun _ => running cfg (n, c)).
  { eapply outcome_weaken; [apply (connect_running Hcfg1 Hh1) | auto |].
    intros e w2 (He & _ & Hh2). left. auto. }
  intros _ w2 Hr2.
  apply outcome_try_finally
    with (Q1 := fun stats w' =>
                  handles w' = (S n, c) /\
                  Forall (fun key => Stats.get key stats <> None)
                         statistics_keys /\
                  Cli.print_summary stats = Some tt)
         (E1 := fun e w' => may_raise cfg source e /\ handles w' = (S n, c)).
  - apply outcome_try_except with (E1 := failing cfg source (S n, c)).
    + eapply outcome_weaken;
        [apply (@conversion_running cfg source start n c w2 Hr2) | |auto].
      cbv beta. intros stats w3 ([_ H1] & H2 & H3 & _). auto.
    + intros e w3 (He & _ & Hh3). cbn [is_exception raise outcome]. auto.
  - intros stats w3 (Hh3 & Hk & Hp).
    pose proof (close_clears_connection w3) as [Hok Hnone].
    pose proof (close_handles w3) as Hsame.
    destruct (SQLiteEventStore.close w3) as [[[]|e] w4];
      cbn [fst snd] in *; [|discriminate].
    cbn [outcome]. rewrite Hsame. auto.
  - intros e w3 (He & Hh3).
    pose proof (close_clears_connection w3) as [Hok Hnone].
    pose proof (close_handles w3) as Hsame.
    destruct (SQLiteEventStore.close w3) as [[[]|e'] w4];
      cbn [fst snd] in *; [|discriminate].
    cbn [outcome]. rewrite Hsame. auto.
Qed.

(** Every outcome of a run whose client could be built. *)
Lemma convert_events_outcome w :
  Main.connect_error source = None ->
  outcome (fun stats w' =>
             connection (db w') = None /\
             reader_stops w' = S (reader_stops w) /\
             client_closed w' = true /\
             Forall (fun key => Stats.get key stats <> None) statistics_keys /\
             Cli.print_summary stats = Some tt)
          (fun e w' =>
             client_closed w' = true /\
             ((is_sqlite3_error e = true /\ reader_stops w' = reader_stops w) \/
              ((e = ConnectionError \/
                may_raise cfg source e /\ Main.is_connection_failure e = false) /\
               connection (db w') = None /\
               reader_stops w' = S (reader_stops w))))
          (Main.convert_events cfg source w).
Proof.
  intros Hsrc. unfold Main.convert_events.
  apply outcome_bind
    with (R := fun _ w0 => handles w0 = (reader_stops w, client_closed w)).
  { reflexivity. }
  intros start w0 Hh0. unfold Main.eventstore_client. rewrite Hsrc.
  apply outcome_try_finally
    with (Q1 := fun stats w' =>
                  connection (db w') = None /\
                  reader_stops w' = S (reader_stops w) /\
                  Forall (fun key => Stats.get key stats <> None)
                         statistics_keys /\
                  Cli.print_summary stats = Some tt)
         (E1 := fun e w' =>
                  (is_sqlite3_error e = true /\ reader_stops w' = reader_stops w) \/
                  ((e = ConnectionError \/
                    may_raise cfg source e /\
                    Main.is_connection_failure e = false) /\
                   connection (db w') = None /\
                   reader_stops w' = S (reader_stops w))).
  - apply outcome_try_except
      with (E1 := fun e w' =>
                    (is_sqlite3_error e = true /\
                     handles w' = (reader_stops w, client_closed w)) \/
                    (may_raise cfg source e /\ connection (db w') = None /\
                     handles w' = (S (reader_stops w), client_closed w))).
    + eapply outcome_weaken; [apply (with_store_conversion start Hh0) | |auto].
      cbv beta. intros stats w1 (H1 & H2 & H3 & H4).
      injection H2 as H2 _. auto.
    + intros e w1 H. destruct (Main.is_connection_failure e) eqn:Hf.
      * cbn [raise outcome].
        destruct H as [[He _] | (_ & Hn & Hh1)].
        -- destruct e; discriminate.
        -- injection Hh1 as Hs _. right. auto.
      * destruct H as [[He Hh1] | (He & Hn & Hh1)];
          injection Hh1 as Hs _; [left | right]; auto.
  - intros stats w1 (H1 & H2 & H3 & H4). cbn. auto.
  - intros e w1 H. cbn. auto.
Qed.

End WholeRun.

Section RunTheorems.

(** X7.  Once the client is built, it is closed however the run ends.
    The reader is stopped exactly once and the store ends without a
    connection, but when the store could not connect: then the run raises
    the [sqlite3.Error] of [connect], and the reader was never started. *)
Theorem run_cleanup cfg source w :
  Main.connect_error source = None ->
  client_closed (snd (Main.convert_events cfg source w)) = true /\
  ((connection (db (snd (Main.convert_events cfg source w))) = None /\
    reader_stops (snd (Main.convert_events cfg source w)) = S (reader_stops w)) \/
   (reader_stops (snd (Main.convert_events cfg source w)) = reader_stops w /\
    exists e, fst (Main.convert_events cfg source w) = Raise e /\
              is_sqlite3_error e = true)) /\
  (forall stats,
     fst (Main.convert_events cfg source w) = Ok stats ->
     connection (db (snd (Main.convert_events cfg source w))) = None /\
     reader_stops (snd (Main.convert_events cfg source w)) = S (reader_stops w)).
Proof.
  intros Hsrc. pose proof (@convert_events_outcome cfg source w Hsrc) as H.
  destruct (Main.convert_events cfg source w) as [[stats|e] w'];
    cbn [Props.outcome fst snd] in *.
  - destruct H as (H1 & H2 & H3 & _). repeat split; auto.
  - destruct H as (H1 & [[He Hs] | (_ & Hn & Hs)]).
    + split; [exact H1|]. split; [right; eauto | discriminate].
    + split; [exact H1|]. split; [left; auto | discriminate].
Qed.


(** X9.  [convert_events] never raises [ValueError] or
    [UnicodeEncodeError]: the body of the [with] block runs inside the
    [try] of [eventstore_client], which turns them into [ConnectionError].
    When the client cannot be built, the exception is translated in the
    same way, and nothing else happens: the store is never opened. *)
Theorem connection_failures_translated cfg source w :
  fst (Main.convert_events cfg source w) <> Raise ValueError /\
  fst (Main.convert_events cfg source w) <> Raise UnicodeEncodeError /\
  (forall e, Main.connect_error source = Some e ->
     Main.convert_events cfg source w
     = (Raise (if Main.is_connection_failure e then ConnectionError else e),
        snd (time w))).
Proof.
  assert (H : forall e, fst (Main.convert_events cfg source w) = Raise e ->
                        e = ConnectionError \/
                        Main.is_connection_failure e = false).
  { intros e. destruct (Main.connect_error source) as [e0|] eqn:Hsrc.
    - unfold Main.convert_events, Main.eventstore_client. rewrite Hsrc.
      cbn [bind time fst]. destruct (Main.is_connection_failure e0) eqn:Hf;
        cbn [raise fst]; intros E; injection E as <-; auto.
    - pose proof (@convert_events_outcome cfg source w Hsrc) as H.
      destruct (Main.convert_events cfg source w) as [[stats|e1] w'];
        cbn [Props.outcome fst snd] in *; [discriminate|].
      intros E; injection E as <-.
      destruct H as (_ & [[He _] | ([-> | [_ Hf]] & _)]); auto.
      right. destruct e1; try discriminate He; reflexivity. }
  split; [|split].
  - intros E. destruct (H _ E); discriminate.
  - intros E. destruct (H _ E); discriminate.
  - intros e Hsrc. unfold Main.convert_events, Main.eventstore_client.
    rewrite Hsrc. cbn [bind time]. destruct (Main.is_connection_failure e);
      reflexivity.
Qed.

(** X10.  The statistics of a run that returns have the eight entries,
    so the summary [main] prints finds every key it looks up, each with a
    number. *)
Theorem run_statistics cfg source w stats w' :
  Main.convert_events cfg source w = (Ok stats, w') ->
  Forall (fun key => Stats.get key stats <> None) Props.statistics_keys /\
  Cli.print_summary stats = Some tt.
Proof.
  intros E. destruct (Main.connect_error source) as [e0|] eqn:Hsrc.
  - revert E. unfold Main.convert_events, Main.eventstore_client. rewrite Hsrc.
    cbn [bind time]. destruct (Main.is_connection_failure e0); discriminate.
  - pose proof (@convert_events_outcome cfg source w Hsrc) as H.
    rewrite E in H. cbn [Props.outcome] in H. tauto.
Qed.



End RunTheorems.

(* ================================================================== *)
(** * Batching *)
(* ================================================================== *)

Section Batching.
Import Props.
Local Open Scope Z_scope.
Variable cfg : ConversionConfig.t.
Local Abbreviation size := (ConversionConfig.batch_size cfg).
Local Abbreviation validate := (ConversionConfig.validate_data cfg).

Lemma len_app a b : Main.len (a ++ b) = Main.len a + Main.len b.
Proof. unfold Main.len. rewrite List.length_app. lia. Qed.

Lemma writes_app j1 j2 : Spec.writes (j1 ++ j2) = Spec.writes j1 ++ Spec.writes j2.
Proof. unfold Spec.writes. apply flat_map_app. Qed.

Lemma save_not_validation b w e :
  fst (SQLiteEventStore.save_events_batch b w) = Raise e ->
  is_validation_error e = false.
Proof.
  intros H. destruct (save_events_batch_frame b w) as (_ & _ & _ & _ & Hf).
  destruct (Hf _ H) as [_ [He | [-> | [-> | [-> _]]]]]; try reflexivity.
  destruct e; try discriminate He; reflexivity.
Qed.

Lemma pending_same w w' : database w' = database w -> pending w w' [].
Proof. unfold pending. intros ->. auto. Qed.

Lemma pending_trans w w1 w2 rows1 rows2 :
  pending w w1 rows1 -> pending w1 w2 rows2 -> pending w w2 (rows1 ++ rows2).
Proof.
  unfold pending. intros (A1 & A2 & A3 & A4) (B1 & B2 & B3 & B4).
  repeat split; try congruence.
  intros tbl Ht. rewrite fold_left_app. apply B4, A4, Ht.
Qed.

Lemma save_events_batch_pending b w w' :
  b <> [] ->
  connection (db w) = Some the_connection ->
  SQLiteEventStore.save_events_batch b w = (Ok tt, w') ->
  pending w w' b.
Proof.
  intros Hb Hc. unfold SQLiteEventStore.save_events_batch.
  lazymatch goal with
  | |- context [bind get ?k w] => change (bind get k w) with (k w w)
  end.
  cbv beta. rewrite Hc. destruct b as [|r b']; [congruence|].
  set (rows := r :: b'). unfold try_except.
  unfold bind at 1. unfold driver at 1.
  destruct (Sqlite3.executemany rows (database w)) as [[[]|e] d1] eqn:He.
  2:{ destruct (is_sqlite3_error e); discriminate. }
  pose proof (driver_call_ok _ _ _ He) as [Hcl0 _].
  apply executemany_ok in He as (_ & Hcl & Hf & _ & Hm & tbl & Ht & Ht').
  cbn [bind get set_db lift db config connection events_processed
       batches_processed database].
  unfold py_mod. destruct (_ =? 0)%Z; [discriminate|].
  cbn [bind lift]. destruct (_ =? 0)%Z.
  - unfold driver. cbn [database].
    destruct (Sqlite3.commit d1) as [[[]|e] d2] eqn:Hcm.
    2:{ destruct (is_sqlite3_error e); discriminate. }
    apply commit_ok in Hcm as (_ & Hcl2 & Hf2 & Hv2 & _).
    intros H; injection H as <-. unfold pending. cbn [database].
    rewrite Hv2. repeat split; try congruence; intros; congruence.
  - intros H; injection H as <-. unfold pending. cbn [database].
    repeat split; try congruence; intros; congruence.
Qed.

Lemma process_event_step event w w' :
  connected cfg w ->
  0 < size ->
  Main.len (events_batch (locals w)) < size ->
  Main.process_event cfg event w = (Ok tt, w') ->
  connected cfg w' /\
  Main.len (events_batch (locals w')) < size /\
  exists new, advanced cfg [event] w w' new /\ pending w w' (List.concat new).
Proof.
  intros [Hc Hcfg] Hpos Hlen. unfold Main.process_event, try_except.
  unfold bind at 1. unfold lift at 1. unfold advanced, accepted. cbv zeta.
  cbn [flat_map].
  destruct (SQLiteEvent.__init__ event validate) as [r|e] eqn:Hi.
  - cbn [bind get Main.set_events_batch set_locals locals events_batch
         total_processed skipped_events].
    set (b := events_batch (locals w) ++ [r]).
    assert (Hb : Main.len b = Main.len (events_batch (locals w)) + 1).
    { unfold b. rewrite len_app. reflexivity. }
    destruct (Z.geb_spec (Main.len b) size) as [Hge|Hlt].
    + match goal with
      | |- context [bind (SQLiteEventStore.save_events_batch b) _ ?wx] =>
          set (w2 := wx)
      end.
      unfold bind at 1.
      assert (Hne : b <> []) by (unfold b; destruct (events_batch (locals w)); discriminate).
      pose proof (@save_events_batch_writes b w2 Hne Hc) as (Hw & Hl & _).
      pose proof (@save_not_validation b w2) as Hnv.
      destruct (SQLiteEventStore.save_events_batch b w2) as [[[]|e] w3] eqn:Hs;
        cbn [fst snd] in *.
      2:{ rewrite (Hnv e eq_refl). discriminate. }
      destruct (@save_events_batch_ok b w2 w3 Hne Hc Hs)
        as (_ & _ & Hcfg3 & Hc3 & Hbp & Hep & _).
      cbn [bind get Main.set_total_processed Main.set_events_batch set_locals
           locals events_batch total_processed skipped_events lift].
      unfold py_mod.
      destruct (Z.eqb_spec (size * 10) 0) as [Hz|Hz]; [lia|].
      cbn [bind lift]. intros E; injection E as <-.
      cbn [db database locals events_batch total_processed skipped_events].
      split; [exact (conj Hc3 (eq_trans Hcfg3 Hcfg))|].
      split; [exact Hpos|].
      exists [b]. cbn [List.concat List.length app]. rewrite !List.app_nil_r.
      split; [|exact (@save_events_batch_pending b w2 w3 Hne Hc Hs)].
      rewrite Hl. cbn [locals total_processed skipped_events events_batch].
      refine (conj Hw (conj _ (conj eq_refl (conj eq_refl (conj _ (conj Hep Hbp)))))).
      * constructor; [lia | constructor].
      * unfold Main.len, w2. cbn [List.length locals skipped_events]. lia.
    + cbn [ret]. intros E; injection E as <-.
      cbn [db database locals events_batch total_processed skipped_events].
      split; [split; assumption|]. split; [lia|].
      exists []. cbn [List.concat List.length app]. unfold Main.len.
      cbn [List.length]. rewrite !List.app_nil_r.
      split; [|apply pending_same; reflexivity].
      refine (conj eq_refl (conj _ (conj eq_refl (conj _ (conj _ (conj _ _))))));
        [constructor | lia ..].
  - destruct (is_validation_error e); [|discriminate].
    cbn [bind get Main.set_skipped_events set_locals].
    intros E; injection E as <-.
    cbn [db database locals events_batch total_processed skipped_events].
    split; [split; assumption|]. split; [exact Hlen|].
    exists []. cbn [List.concat List.length app]. unfold Main.len.
    cbn [List.length]. rewrite !List.app_nil_r.
    split; [|apply pending_same; reflexivity].
    refine (conj eq_refl (conj _ (conj eq_refl (conj _ (conj _ (conj _ _))))));
      [constructor | lia ..].
Qed.

Lemma accepted_cons v event rest :
  accepted v (event :: rest) = accepted v [event] ++ accepted v rest.
Proof. unfold accepted. cbn [flat_map]. now rewrite List.app_nil_r. Qed.

Lemma advanced_nil w : advanced cfg [] w w [].
Proof.
  unfold advanced, accepted, Main.len. cbn.
  rewrite !List.app_nil_r. repeat split; try constructor; lia.
Qed.

Lemma advanced_trans event rest w w1 w2 new1 new2 :
  advanced cfg [event] w w1 new1 ->
  advanced cfg rest w1 w2 new2 ->
  advanced cfg (event :: rest) w w2 (new1 ++ new2).
Proof.
  unfold advanced. cbv zeta.
  intros (A1 & A2 & A3 & A4 & A5 & A6 & A7) (B1 & B2 & B3 & B4 & B5 & B6 & B7).
  rewrite (accepted_cons _ event rest), List.concat_app, !len_app,
    List.length_app.
  cbn [List.length] in *.
  refine (conj _ (conj _ (conj _ (conj _ (conj _ (conj _ _)))))); try lia.
  - rewrite B1, A1. now rewrite List.app_assoc.
  - apply Forall_app. auto.
  - rewrite <- List.app_assoc, B3, !List.app_assoc, A3. reflexivity.
Qed.

Lemma for_each_event_advanced events error : forall w w',
  connected cfg w ->
  0 < size ->
  Main.len (events_batch (locals w)) < size ->
  Main.for_each_event cfg events error w = (Ok tt, w') ->
  connected cfg w' /\
  Main.len (events_batch (locals w')) < size /\
  exists new, advanced cfg events w w' new /\ pending w w' (List.concat new).
Proof.
  induction events as [|event rest IH]; intros w w' Hc Hpos Hlen;
    cbn [Main.for_each_event].
  - destruct error; [discriminate|]. intros E; injection E as <-.
    split; [exact Hc|]. split; [exact Hlen|]. exists [].
    split; [apply advanced_nil | apply pending_same; reflexivity].
  - unfold bind at 1.
    destruct (Main.process_event cfg event w) as [[[]|e] w1] eqn:E1;
      [|discriminate].
    intros E2.
    destruct (@process_event_step event w w1 Hc Hpos Hlen E1)
      as (Hc1 & Hlen1 & new1 & A1 & P1).
    destruct (IH _ _ Hc1 Hpos Hlen1 E2) as (Hc2 & Hlen2 & new2 & A2 & P2).
    split; [exact Hc2|]. split; [exact Hlen2|].
    exists (new1 ++ new2). rewrite List.concat_app.
    split; [exact (@advanced_trans event rest w w1 w' new1 new2 A1 A2)|].
    exact (pending_trans P1 P2).
Qed.

Lemma process_event_handled event w w' :
  Main.process_event cfg event w = (Ok tt, w') -> handled validate event.
Proof.
  unfold Main.process_event, try_except, handled. unfold bind at 1.
  unfold lift at 1.
  destruct (SQLiteEvent.__init__ event validate) as [r|e]; [auto|].
  destruct (is_validation_error e); [reflexivity | discriminate].
Qed.

Lemma for_each_event_handled events error : forall w w',
  Main.for_each_event cfg events error w = (Ok tt, w') ->
  Forall (handled validate) events.
Proof.
  induction events as [|event rest IH]; intros w w'; cbn [Main.for_each_event];
    [constructor|].
  unfold bind at 1.
  destruct (Main.process_event cfg event w) as [[[]|e] w1] eqn:E1;
    [|discriminate].
  intros E2. constructor.
  - exact (@process_event_handled event w w1 E1).
  - exact (IH _ _ E2).
Qed.

(** The effect of the inner [try] block when it returns. *)
Lemma ingest_progress source w w' :
  0 < ConversionConfig.batch_size cfg ->
  connected cfg w ->
  events_batch (locals w) = [] ->
  Main.ingest cfg source w = (Ok tt, w') ->
  connected cfg w' /\
  exists new,
    (Spec.writes (Sqlite3.journal (database w'))
       = Spec.writes (Sqlite3.journal (database w)) ++ new /\
     List.concat new
       = accepted (ConversionConfig.validate_data cfg) (Main.stream source) /\
     batched (ConversionConfig.batch_size cfg) new /\
     total_processed (locals w')
       = total_processed (locals w) + Main.len (List.concat new) /\
     skipped_events (locals w')
       = skipped_events (locals w)
         + (Z.of_nat (List.length (Main.stream source))
            - Main.len (List.concat new)) /\
     events_processed (db w')
       = events_processed (db w) + Main.len (List.concat new) /\
     batches_processed (db w')
       = batches_processed (db w) + Z.of_nat (List.length new)) /\
    pending w w' (List.concat new) /\
    Forall (handled (ConversionConfig.validate_data cfg)) (Main.stream source).
Proof.
  intros Hpos Hc Hempty. unfold Main.ingest, try_finally.
  unfold bind at 1.
  destruct (Main.for_each_event cfg (Main.stream source)
              (Main.read_error source) w) as [[[]|e] w1] eqn:E1.
  2:{ cbn. discriminate. }
  pose proof (@for_each_event_handled (Main.stream source)
                (Main.read_error source) w w1 E1) as Hh.
  assert (Hlen : Main.len (events_batch (locals w)) < size).
  { rewrite Hempty. exact Hpos. }
  destruct (@for_each_event_advanced (Main.stream source)
              (Main.read_error source) w w1 Hc Hpos Hlen E1)
    as (Hc1 & Hlen1 & new & A & P).
  unfold advanced in A. cbv zeta in A. rewrite Hempty in A. cbn [app] in A.
  destruct A as (A1 & A2 & A3 & A4 & A5 & A6 & A7).
  unfold Main.flush_remaining.
  lazymatch goal with
  | |- context [bind get ?k w1] => change (bind get k w1) with (k w1 w1)
  end.
  cbv beta.
  destruct (events_batch (locals w1)) as [|r b'] eqn:Hb.
  - cbn [ret stop]. intros E; injection E as <-.
    cbn [db database locals]. rewrite ?Hb, List.app_nil_r in A3.
    split; [exact Hc1|].
    exists new. rewrite <- A3 in A5. split; [|exact (conj P Hh)].
    refine (conj A1 (conj A3 (conj _ (conj A4 (conj A5 (conj A6 A7)))))).
    exists new, []. rewrite List.app_nil_r. auto.
  - rewrite ?Hb in A3, Hlen1. set (b := r :: b') in *.
    assert (Hne : b <> []) by discriminate.
    unfold bind at 1.
    pose proof (@save_events_batch_writes b w1 Hne (proj1 Hc1)) as (Hw & Hl & _).
    destruct (SQLiteEventStore.save_events_batch b w1) as [[[]|e] w2] eqn:Hs;
      cbn [fst snd] in *; [|cbn; discriminate].
    destruct (@save_events_batch_ok b w1 w2 Hne (proj1 Hc1) Hs)
      as (_ & _ & Hcfg2 & Hc2 & Hbp & Hep & _).
    pose proof (@save_events_batch_pending b w1 w2 Hne (proj1 Hc1) Hs) as P2.
    cbn [bind get Main.set_total_processed set_locals stop].
    intros E; injection E as <-.
    cbn [db database locals total_processed skipped_events].
    split; [exact (conj Hc2 (eq_trans Hcfg2 (proj2 Hc1)))|].
    exists (new ++ [b]).
    assert (Hcat : List.concat (new ++ [b])
                   = accepted (ConversionConfig.validate_data cfg)
                              (Main.stream source)).
    { rewrite List.concat_app. cbn [List.concat]. now rewrite List.app_nil_r. }
    assert (Hacc : Main.len (accepted (ConversionConfig.validate_data cfg)
                                      (Main.stream source))
                   = Main.len (List.concat new) + Main.len b).
    { rewrite <- A3. apply len_app. }
    split.
    2:{ rewrite Hcat, <- A3. exact (conj (pending_trans P P2) Hh). }
    rewrite Hcat, List.length_app, Hacc. cbn [List.length].
    fold (Main.len b) in Hep.
    refine (conj _ (conj eq_refl (conj _ (conj _ (conj _ (conj _ _)))))).
    + rewrite Hw, A1. now rewrite List.app_assoc.
    + exists new, [b]. split; [reflexivity|]. split; [exact A2|].
      unfold Main.len in Hlen1 |- *. unfold b in Hlen1 |- *.
      cbn [List.length] in Hlen1 |- *. lia.
    + lia.
    + rewrite Hl, A5, Hacc. reflexivity.
    + lia.
    + lia.
Qed.

(** X12.  When the inner [try] block of [convert_events] returns, on a
    connected store, with a positive batch size and an empty buffer at the
    start, the batches handed to the driver are, put end to end, the
    records of the events the normalisation accepted, in the order of the
    events: none is lost, none written twice.  Every batch has exactly
    [batch_size] records but the last, which may have fewer and is never
    empty.  [total_processed] and the store's [events_processed] grow by
    the number of records, [batches_processed] by the number of batches,
    and [skipped_events] by the number of events that were not accepted. *)
Theorem ingest_batches source w w' :
  0 < ConversionConfig.batch_size cfg ->
  connected cfg w ->
  events_batch (locals w) = [] ->
  Main.ingest cfg source w = (Ok tt, w') ->
  exists new,
    Spec.writes (Sqlite3.journal (database w'))
      = Spec.writes (Sqlite3.journal (database w)) ++ new /\
    List.concat new
      = accepted (ConversionConfig.validate_data cfg) (Main.stream source) /\
    batched (ConversionConfig.batch_size cfg) new /\
    total_processed (locals w')
      = total_processed (locals w) + Main.len (List.concat new) /\
    skipped_events (locals w')
      = skipped_events (locals w)
        + (Z.of_nat (List.length (Main.stream source))
           - Main.len (List.concat new)) /\
    events_processed (db w')
      = events_processed (db w) + Main.len (List.concat new) /\
    batches_processed (db w')
      = batches_processed (db w) + Z.of_nat (List.length new).
Proof.
  intros Hpos Hc Hempty E.
  destruct (@ingest_progress source w w' Hpos Hc Hempty E)
    as (_ & new & H & _).
  exists new. exact H.
Qed.

End Batching.

(* ================================================================== *)
(** * Opening and closing *)
(* ================================================================== *)

Ltac run_store Hio :=
  repeat (progress (cbv beta iota zeta delta
            [bind ret raise get set_db driver try_except try_finally time
               SQLiteEventStore.with_connection
               SQLiteEventStore.update_conversion_metadata
               Sqlite3.connect Sqlite3.execute Sqlite3.commit Sqlite3.close
               Sqlite3.select_events_table Sqlite3.driver_call
               Sqlite3.log_call Sqlite3.set_view
               Sqlite3.closed Sqlite3.io_fault Sqlite3.journal
               Sqlite3.view Sqlite3.disk Sqlite3.events
               Sqlite3.conversion_metadata
               db database locals clock ticks st_size reader_stops
               client_closed config connection events_processed
               batches_processed is_sqlite3_error fst snd];
          rewrite ?Hio)).

Section Closing.

(** X13.  On a connected store whose database has the metadata table
    and refuses nothing, [close] commits the pending rows, records
    [last_conversion], the integer of the current time, and
    [total_events], the number of events of the session, commits again,
    closes the connection and forgets it: five calls of the driver, in
    that order. *)
Theorem close_commits_and_records w rows m :
  connection (db w) = Some the_connection ->
  Sqlite3.closed (database w) = false ->
  Spec.no_fault w ->
  Sqlite3.view (database w)
    = {| Sqlite3.events := rows; Sqlite3.conversion_metadata := Some m |} ->
  let last_conversion := int_str (py_int (clock w (ticks w))) in
  let total_events := int_str (events_processed (db w)) in
  let w' := snd (SQLiteEventStore.close w) in
  Sqlite3.disk (database w')
    = {| Sqlite3.events := rows;
         Sqlite3.conversion_metadata :=
           Some (Sqlite3.replace_metadata (lit "total_events") total_events
                   (Sqlite3.replace_metadata (lit "last_conversion")
                      last_conversion m)) |} /\
  Sqlite3.closed (database w') = true /\
  connection (db w') = None /\
  Sqlite3.journal (database w')
    = Sqlite3.journal (database w)
        ++ [ Sqlite3.Commit;
             Sqlite3.Execute
               (Sqlite3.ReplaceMetadata (lit "last_conversion") last_conversion);
             Sqlite3.Execute
               (Sqlite3.ReplaceMetadata (lit "total_events") total_events);
             Sqlite3.Commit;
             Sqlite3.Close ].
Proof.
  destruct w as [[cf cn ep bp] [dk vw cl io j] l c t sz rs cc].
  unfold Spec.no_fault.
  cbn [db database connection Sqlite3.closed Sqlite3.io_fault Sqlite3.view
       clock ticks events_processed Sqlite3.journal].
  intros -> -> Hio ->. cbv zeta.
  unfold SQLiteEventStore.close. run_store Hio.
  rewrite <- !List.app_assoc. cbn [app]. repeat split; reflexivity.
Qed.

(** X14.  On a database without the table [conversion_metadata] (a file
    that had the table [events] already), [close] still returns and the
    first commit makes the pending rows durable; the update of
    [last_conversion] fails, the error is swallowed, and the rest is
    skipped: [total_events] is not recorded and [connection.close()] is
    never called, although the store forgets the connection. *)
Theorem close_without_metadata_table w rows :
  connection (db w) = Some the_connection ->
  Sqlite3.closed (database w) = false ->
  Spec.no_fault w ->
  Sqlite3.view (database w)
    = {| Sqlite3.events := rows; Sqlite3.conversion_metadata := None |} ->
  let w' := snd (SQLiteEventStore.close w) in
  fst (SQLiteEventStore.close w) = Ok tt /\
  Sqlite3.disk (database w') = Sqlite3.view (database w) /\
  Sqlite3.closed (database w') = false /\
  connection (db w') = None /\
  Sqlite3.journal (database w')
    = Sqlite3.journal (database w)
        ++ [ Sqlite3.Commit;
             Sqlite3.Execute
               (Sqlite3.ReplaceMetadata (lit "last_conversion")
                  (int_str (py_int (clock w (ticks w))))) ].
Proof.
  destruct w as [[cf cn ep bp] [dk vw cl io j] l c t sz rs cc].
  unfold Spec.no_fault.
  cbn [db database connection Sqlite3.closed Sqlite3.io_fault Sqlite3.view
       clock ticks events_processed Sqlite3.journal].
  intros -> -> Hio ->. cbv zeta.
  unfold SQLiteEventStore.close. run_store Hio.
  rewrite <- !List.app_assoc. cbn [app]. repeat split; reflexivity.
Qed.

End Closing.

Section Connecting.

(** X15.  [connect] on a database that refuses nothing: the connection
    is opened, the four PRAGMAs are run, and the table [events] is looked
    up.  When it is there, the tables are left as they are; when neither
    table is there, both are created, empty, and committed; when only
    [conversion_metadata] is there, its creation fails and [connect]
    raises [sqlite3.OperationalError], the store keeping the open
    connection.  The four indexes are created, and committed, only when
    [create_indexes] is set. *)
Theorem connect_schema cfg w :
  Spec.no_fault w ->
  let file := Sqlite3.disk (database w) in
  let r := SQLiteEventStore.connect (snd (SQLiteEventStore.__init__ cfg w)) in
  let opening :=
    [ Sqlite3.Connect;
      Sqlite3.Execute (Sqlite3.Pragma "journal_mode=WAL");
      Sqlite3.Execute (Sqlite3.Pragma "synchronous=NORMAL");
      Sqlite3.Execute (Sqlite3.Pragma "cache_size=10000");
      Sqlite3.Execute (Sqlite3.Pragma "temp_store=MEMORY");
      Sqlite3.Execute Sqlite3.SelectEventsTable ] in
  let indexes :=
    if ConversionConfig.create_indexes cfg
    then [ Sqlite3.Execute (Sqlite3.CreateIndex "idx_events_recorded_at");
           Sqlite3.Execute (Sqlite3.CreateIndex "idx_events_type");
           Sqlite3.Execute (Sqlite3.CreateIndex "idx_events_stream");
           Sqlite3.Execute (Sqlite3.CreateIndex "idx_events_processed_at");
           Sqlite3.Commit ]
    else [] in
  connection (db (snd r)) = Some the_connection /\
  Sqlite3.closed (database (snd r)) = false /\
  match Sqlite3.events file, Sqlite3.conversion_metadata file with
  | Some _, _ =>
      fst r = Ok tt /\
      Sqlite3.view (database (snd r)) = file /\
      Sqlite3.disk (database (snd r)) = file /\
      Sqlite3.journal (database (snd r))
        = Sqlite3.journal (database w) ++ opening ++ indexes
  | None, None =>
      fst r = Ok tt /\
      Sqlite3.view (database (snd r))
        = {| Sqlite3.events := Some [];
             Sqlite3.conversion_metadata := Some [] |} /\
      Sqlite3.disk (database (snd r)) = Sqlite3.view (database (snd r)) /\
      Sqlite3.journal (database (snd r))
        = Sqlite3.journal (database w) ++ opening
            ++ [ Sqlite3.Execute Sqlite3.CreateEvents;
                 Sqlite3.Execute Sqlite3.CreateConversionMetadata;
                 Sqlite3.Commit ]
            ++ indexes
  | None, Some _ =>
      fst r = Raise (Sqlite3Error OperationalError) /\
      Sqlite3.journal (database (snd r))
        = Sqlite3.journal (database w) ++ opening
            ++ [ Sqlite3.Execute Sqlite3.CreateEvents;
                 Sqlite3.Execute Sqlite3.CreateConversionMetadata ]
  end.
Proof.
  destruct w as [s [[ev md] vw cl io j] l c t sz rs cc].
  unfold Spec.no_fault.
  cbn [database Sqlite3.io_fault Sqlite3.disk Sqlite3.events
       Sqlite3.conversion_metadata Sqlite3.journal].
  intros Hio. cbv zeta.
  unfold SQLiteEventStore.__init__, SQLiteEventStore.connect,
    SQLiteEventStore._create_schema, SQLiteEventStore._create_indexes.
  destruct ev as [tbl|]; [|destruct md as [m|]];
    destruct (ConversionConfig.create_indexes cfg) eqn:Hidx;
    run_store Hio; rewrite ?Hidx; run_store Hio;
    rewrite <- ?List.app_assoc; cbn [app];
    repeat split; reflexivity.
Qed.

(** X16.  A run against a file that has the table [conversion_metadata]
    but not the table [events] fails with [sqlite3.OperationalError]
    before any event is read; the client is closed, but the connection to
    the database is not: [__exit__] does not run when [__enter__] raises,
    and nothing else calls [close]. *)
Theorem run_on_partial_schema cfg source file io readings size m :
  (forall k, io k = false) ->
  Main.connect_error source = None ->
  Sqlite3.events file = None ->
  Sqlite3.conversion_metadata file = Some m ->
  let r := Main.convert_events cfg source
             (Main.initial_world cfg file io readings size) in
  fst r = Raise (Sqlite3Error OperationalError) /\
  client_closed (snd r) = true /\
  reader_stops (snd r) = 0%nat /\
  connection (db (snd r)) = Some the_connection /\
  Sqlite3.closed (database (snd r)) = false /\
  ~ In Sqlite3.Close (Sqlite3.journal (database (snd r))).
Proof.
  intros Hio Hsrc Hev Hmd. destruct file as [ev md].
  cbn [Sqlite3.events Sqlite3.conversion_metadata] in Hev, Hmd. subst ev md.
  cbv zeta.
  unfold Main.convert_events, Main.initial_world, Main.eventstore_client.
  rewrite Hsrc.
  unfold SQLiteEventStore.with_store, SQLiteEventStore.__init__,
    SQLiteEventStore.connect, SQLiteEventStore._create_schema.
  run_store Hio. cbn [Main.is_connection_failure client_close].
  run_store Hio.
  repeat split; try reflexivity.
  cbn. intros H. repeat (destruct H as [H | H]; [discriminate H|]). exact H.
Qed.

End Connecting.

(* ================================================================== *)
(** * Failures while writing *)
(* ================================================================== *)

Section Failing.

(** X17.  When [save_events_batch] raises, the store was connected and
    the batch was handed to the driver, nothing was committed (the file is
    as before) and the local variables of the caller are untouched; the
    exception is a [sqlite3.Error], the [UnicodeEncodeError] or
    [OverflowError] of a value that cannot be bound, or
    [ZeroDivisionError] when the commit frequency is 0. *)
Theorem failed_save_not_durable b w e :
  fst (SQLiteEventStore.save_events_batch b w) = Raise e ->
  Sqlite3.disk (database (snd (SQLiteEventStore.save_events_batch b w)))
    = Sqlite3.disk (database w) /\
  connection (db (snd (SQLiteEventStore.save_events_batch b w)))
    = Some the_connection /\
  locals (snd (SQLiteEventStore.save_events_batch b w)) = locals w /\
  Spec.writes (Sqlite3.journal
                 (database (snd (SQLiteEventStore.save_events_batch b w))))
    = Spec.writes (Sqlite3.journal (database w)) ++ [b] /\
  (is_sqlite3_error e = true \/ e = UnicodeEncodeError \/ e = OverflowError \/
   (e = ZeroDivisionError /\
    ConversionConfig.commit_frequency (config (db w)) = 0%Z)).
Proof.
  intros H.
  destruct (save_events_batch_frame b w) as (_ & Hc & Hl & _ & Hf).
  destruct (Hf e H) as [Hd He].
  assert (Hb : b <> []).
  { intros ->. rewrite save_empty_batch in H. discriminate. }
  assert (Hcn : connection (db w) = Some the_connection).
  { destruct (connection (db w)) as [[]|] eqn:E; [reflexivity|].
    revert H. unfold SQLiteEventStore.save_events_batch, bind, get.
    rewrite E. destruct b; discriminate. }
  destruct (@save_events_batch_writes b w Hb Hcn) as (Hw & _ & _).
  rewrite Hc. auto.
Qed.


End Failing.

(* ================================================================== *)
(** * What a run stores *)
(* ================================================================== *)

Section Inversion.

Lemma bind_ok A B (m : M A) (k : A -> M B) w b w' :
  bind m k w = (Ok b, w') ->
  exists a w1, m w = (Ok a, w1) /\ k a w1 = (Ok b, w').
Proof.
  unfold bind. destruct (m w) as [[a|e] w1]; [eauto | discriminate].
Qed.

Lemma try_except_reraise_ok A (body : M A) caught (f : exn -> exn) w a w' :
  try_except body caught (fun e => raise (f e)) w = (Ok a, w') ->
  body w = (Ok a, w').
Proof.
  unfold try_except. destruct (body w) as [[a0|e] w1]; [auto|].
  destruct (caught e); discriminate.
Qed.

Lemma try_finally_ok A (body : M A) cleanup w a w' :
  try_finally body cleanup w = (Ok a, w') ->
  exists w1, body w = (Ok a, w1) /\ cleanup w1 = (Ok tt, w').
Proof.
  unfold try_finally. destruct (body w) as [[a0|e] w1];
    destruct (cleanup w1) as [[[]|e'] w2] eqn:Hc; try discriminate.
  intros H; injection H as <- <-. eauto.
Qed.

End Inversion.

Section EndToEnd.
Import Props.

Lemma connect_opens cfg w :
  Spec.no_fault w ->
  usable (Sqlite3.disk (database w)) ->
  exists w1,
    SQLiteEventStore.connect (snd (SQLiteEventStore.__init__ cfg w)) = (Ok tt, w1) /\
    connected cfg w1 /\
    events_processed (db w1) = 0%Z /\ batches_processed (db w1) = 0%Z /\
    Sqlite3.closed (database w1) = false /\
    Spec.no_fault w1 /\
    Sqlite3.view (database w1)
      = {| Sqlite3.events := Some (rows_of (Sqlite3.disk (database w)));
           Sqlite3.conversion_metadata :=
             Some (metadata_of (Sqlite3.disk (database w))) |} /\
    Spec.writes (Sqlite3.journal (database w1))
      = Spec.writes (Sqlite3.journal (database w)).
Proof.
  destruct w as [s [[ev md] vw cl io j] l c t sz rs cc].
  unfold Spec.no_fault, usable, rows_of, metadata_of, connected.
  cbn [database Sqlite3.io_fault Sqlite3.disk Sqlite3.events
       Sqlite3.conversion_metadata Sqlite3.journal].
  intros Hio Hfile.
  unfold SQLiteEventStore.__init__, SQLiteEventStore.connect,
    SQLiteEventStore._create_schema, SQLiteEventStore._create_indexes.
  destruct ev as [tbl|], md as [m|]; try contradiction;
    destruct (ConversionConfig.create_indexes cfg) eqn:Hidx;
    run_store Hio; rewrite ?Hidx; run_store Hio;
    (eexists; split; [reflexivity|]); run_store Hio;
    unfold Spec.writes; rewrite !flat_map_app; cbn [flat_map app];
    rewrite ?List.app_nil_r; repeat split; auto.
Qed.

Lemma get_stats_reads w tbl :
  connection (db w) = Some the_connection ->
  Sqlite3.closed (database w) = false ->
  Spec.no_fault w ->
  Sqlite3.events (Sqlite3.view (database w)) = Some tbl ->
  exists range w1,
    SQLiteEventStore.get_stats w
    = (Ok [ ("total_events"%string, Stats.Int (Z.of_nat (List.length tbl)));
            ("events_processed_this_session"%string,
             Stats.Int (events_processed (db w)));
            ("batches_processed"%string,
             Stats.Int (batches_processed (db w)));
            ("date_range"%string, range);
            ("database_size_mb"%string,
             Stats.Float (inject_Z (st_size w) / inject_Z (1024 * 1024))%Q) ],
       w1) /\
    db w1 = db w /\ locals w1 = locals w /\
    Sqlite3.closed (database w1) = false /\
    Spec.no_fault w1 /\
    Sqlite3.view (database w1) = Sqlite3.view (database w) /\
    Spec.writes (Sqlite3.journal (database w1))
      = Spec.writes (Sqlite3.journal (database w)).
Proof.
  destruct w as [[cf cn ep bp] [dk [ev md] cl io j] l c t sz rs cc].
  unfold Spec.no_fault.
  cbn [db database connection Sqlite3.closed Sqlite3.io_fault Sqlite3.view
       Sqlite3.events Sqlite3.journal events_processed batches_processed
       st_size locals].
  intros -> -> Hio ->.
  unfold SQLiteEventStore.get_stats.
  repeat (progress (cbv beta iota zeta delta
            [bind ret get driver Sqlite3.select_count Sqlite3.select_range
               Sqlite3.driver_call Sqlite3.log_call
               Sqlite3.closed Sqlite3.io_fault Sqlite3.journal
               Sqlite3.view Sqlite3.disk Sqlite3.events
               db database locals clock ticks st_size reader_stops
               client_closed config connection events_processed
               batches_processed fst snd];
          rewrite ?Hio)).
  eexists. eexists. split; [reflexivity|].
  cbn [db database locals Sqlite3.closed Sqlite3.io_fault Sqlite3.view
       Sqlite3.journal].
  unfold Spec.writes; rewrite !flat_map_app; cbn [flat_map app];
    rewrite ?List.app_nil_r; repeat split; auto.
Qed.

Lemma close_records w rows m :
  connection (db w) = Some the_connection ->
  Sqlite3.closed (database w) = false ->
  Spec.no_fault w ->
  Sqlite3.view (database w)
    = {| Sqlite3.events := rows; Sqlite3.conversion_metadata := Some m |} ->
  exists stamp w1,
    SQLiteEventStore.close w = (Ok tt, w1) /\
    Sqlite3.disk (database w1)
      = {| Sqlite3.events := rows;
           Sqlite3.conversion_metadata :=
             Some (Sqlite3.replace_metadata (lit "total_events")
                     (int_str (events_processed (db w)))
                     (Sqlite3.replace_metadata (lit "last_conversion")
                        stamp m)) |} /\
    Sqlite3.closed (database w1) = true /\
    Spec.writes (Sqlite3.journal (database w1))
      = Spec.writes (Sqlite3.journal (database w)).
Proof.
  destruct w as [[cf cn ep bp] [dk vw cl io j] l c t sz rs cc].
  unfold Spec.no_fault.
  cbn [db database connection Sqlite3.closed Sqlite3.io_fault Sqlite3.view
       clock ticks events_processed Sqlite3.journal].
  intros -> -> Hio ->.
  unfold SQLiteEventStore.close. run_store Hio.
  eexists. eexists. split; [reflexivity|].
  cbn [database Sqlite3.disk Sqlite3.closed Sqlite3.journal].
  unfold Spec.writes; rewrite !flat_map_app; cbn [flat_map app];
    rewrite ?List.app_nil_r; repeat split; auto.
Qed.

(** The effect of a run that returns, on a file it can use. *)
Lemma run_effect cfg source file io readings size stats w' :
  (0 < ConversionConfig.batch_size cfg)%Z ->
  (forall k, io k = false) ->
  usable file ->
  Main.convert_events cfg source
    (Main.initial_world cfg file io readings size) = (Ok stats, w') ->
  let records :=
    accepted (ConversionConfig.validate_data cfg) (Main.stream source) in
  let table := fold_left Spec.upsert records (rows_of file) in
  Sqlite3.events (Sqlite3.disk (database w')) = Some table /\
  (exists stamp,
     Sqlite3.conversion_metadata (Sqlite3.disk (database w'))
     = Some (Sqlite3.replace_metadata (lit "total_events")
               (int_str (Main.len records))
               (Sqlite3.replace_metadata (lit "last_conversion") stamp
                  (metadata_of file)))) /\
  Sqlite3.closed (database w') = true /\
  List.concat (Spec.writes (Sqlite3.journal (database w'))) = records /\
  batched (ConversionConfig.batch_size cfg)
          (Spec.writes (Sqlite3.journal (database w'))) /\
  Stats.get "total_events" stats = Some (Stats.Int (Main.len table)) /\
  Stats.get "events_processed_this_session" stats
    = Some (Stats.Int (Main.len records)) /\
  Stats.get "batches_processed" stats
    = Some (Stats.Int (Z.of_nat (List.length
                                   (Spec.writes (Sqlite3.journal (database w')))))) /\
  Stats.get "skipped_events" stats
    = Some (Stats.Int (Z.of_nat (List.length (Main.stream source))
                       - Main.len records)) /\
  Forall (handled (ConversionConfig.validate_data cfg)) (Main.stream source).
Proof.
  intros Hpos Hio Hfile E. cbv zeta.
  assert (Hsrc : Main.connect_error source = None).
  { destruct (Main.connect_error source) as [e|] eqn:Hs; [|reflexivity].
    revert E. unfold Main.convert_events, Main.eventstore_client. rewrite Hs.
    cbn [bind time]. destruct (Main.is_connection_failure e); discriminate. }
  unfold Main.convert_events in E.
  apply bind_ok in E as (start & w0 & Et & E).
  unfold Main.eventstore_client in E. rewrite Hsrc in E.
  apply try_finally_ok in E as (w6 & E & Ecc).
  apply (@try_except_reraise_ok _ _ _ (fun _ => ConnectionError)) in E.
  unfold SQLiteEventStore.with_store in E.
  apply bind_ok in E as ([] & w1 & Ei & E).
  apply bind_ok in E as ([] & w2 & Ec & E).
  apply try_finally_ok in E as (w5 & E & Ecl).
  apply (@try_except_reraise_ok _ _ _ (fun e => e)) in E.
  (* the connection *)
  assert (Hw0 : Spec.no_fault w0 /\ Sqlite3.disk (database w0) = file /\
                Spec.writes (Sqlite3.journal (database w0)) = []).
  { unfold time, Main.initial_world in Et. injection Et as _ <-.
    repeat split. exact Hio. }
  destruct Hw0 as (Hio0 & Hd0 & Hj0).
  destruct (@connect_opens cfg w0 Hio0) as (w2' & Ec' & Hc2 & Hep2 & Hbp2 & Hcl2 & Hio2 & Hv2 & Hj2).
  { rewrite Hd0. exact Hfile. }
  assert (w1 = snd (SQLiteEventStore.__init__ cfg w0)) as -> by (rewrite Ei; reflexivity).
  rewrite Ec' in Ec. injection Ec as ->.
  rewrite Hd0 in Hv2. rewrite Hj0 in Hj2.
  (* the conversion *)
  unfold Main.conversion in E.
  apply bind_ok in E as ([] & w2a & Es & E).
  apply bind_ok in E as ([] & w3 & Eg & E).
  apply bind_ok in E as (stats0 & w4 & Est & E).
  assert (Hw2a : connected cfg w2a /\ events_batch (locals w2a) = [] /\
                 total_processed (locals w2a) = 0%Z /\
                 skipped_events (locals w2a) = 0%Z /\
                 db w2a = db w2 /\ database w2a = database w2).
  { unfold set_locals in Es. injection Es as <-. repeat split; apply Hc2. }
  destruct Hw2a as (Hc2a & Hb2a & Ht2a & Hs2a & Hdb2a & Hd2a).
  destruct (@ingest_progress cfg source w2a w3 Hpos Hc2a Hb2a Eg)
    as (Hc3 & new & (A1 & A2 & A3 & A4 & A5 & A6 & A7)
        & (P1 & P2 & P3 & P4) & Hh).
  rewrite Hd2a in *. rewrite Hdb2a, Hep2 in A6. rewrite Hdb2a, Hbp2 in A7.
  cbn [Z.add] in A6, A7.
  rewrite Ht2a in A4. rewrite Hs2a in A5. rewrite Hj2 in A1. cbn [app] in A1.
  rewrite Hv2 in P3, P4. cbn [Sqlite3.events Sqlite3.conversion_metadata] in P3, P4.
  specialize (P4 _ eq_refl). rewrite A2 in *.
  assert (Hio3 : Spec.no_fault w3).
  { intros k. unfold Spec.no_fault in Hio2. rewrite P2. apply Hio2. }
  rewrite Hcl2 in P1.
  destruct (@get_stats_reads w3 _ (proj1 Hc3) P1 Hio3 P4)
    as (range & w4' & Est' & Hdb4 & Hl4 & Hcl4 & Hio4 & Hv4 & Hj4).
  rewrite Est' in Est. injection Est as <- <-.
  cbn [bind time get] in E.
  match type of E with
  | context [Main.events_per_second ?t ?d] =>
      destruct (events_per_second_total t d) as (v & Hv)
  end.
  rewrite Hv in E. cbn [bind lift ret] in E. injection E as <- <-.
  (* the end *)
  assert (Hview : Sqlite3.view (database w4')
                  = {| Sqlite3.events :=
                         Some (fold_left Spec.upsert
                                 (accepted (ConversionConfig.validate_data cfg)
                                           (Main.stream source))
                                 (rows_of file));
                       Sqlite3.conversion_metadata := Some (metadata_of file) |}).
  { rewrite Hv4. destruct (Sqlite3.view (database w3)) as [ev md].
    cbn [Sqlite3.events Sqlite3.conversion_metadata] in P3, P4. congruence. }
  match type of Ecl with
  | SQLiteEventStore.close ?w = _ =>
      destruct (@close_records w _ _
                  (eq_trans (f_equal connection Hdb4) (proj1 Hc3))
                  Hcl4 Hio4 Hview)
        as (stamp & w5' & Ecl' & Hd5 & Hcl5 & Hj5)
  end.
  rewrite Ecl' in Ecl. injection Ecl as ->.
  unfold client_close in Ecc. injection Ecc as <-. cbn [database].
  cbn [db] in Hd5. rewrite Hdb4, A6 in Hd5. cbn [Z.add] in Hd5.
  cbn [database Sqlite3.journal] in Hj5. rewrite Hj4, A1 in Hj5.
  rewrite Hd5, Hj5, A2. cbn [Sqlite3.events Sqlite3.conversion_metadata].
  cbn [locals skipped_events] .
  refine (conj eq_refl (conj (ex_intro _ stamp eq_refl) (conj Hcl5
            (conj eq_refl (conj A3 (conj eq_refl (conj _ (conj _ (conj _ Hh))))))))).
  - cbn. rewrite A6. reflexivity.
  - cbn. rewrite A7. reflexivity.
  - cbn. rewrite Hl4, A5. reflexivity.
Qed.

End EndToEnd.

Section Tables.
Import Props.






Lemma upsert_NoDup t r :
  NoDup (List.map SQLiteEvent.id t) ->
  NoDup (List.map SQLiteEvent.id (Spec.upsert t r)).
Proof.
  intros H. unfold Spec.upsert. rewrite List.map_app. apply NoDup_app.
  - now apply NoDup_map_filter.
  - cbn. constructor; [intros [] | constructor].
  - intros a Ha [<- | []].
    apply in_map_iff in Ha as (x & Hx & Hin).
    apply filter_In in Hin as [_ Hn]. apply negb_true_iff in Hn.
    unfold Sqlite3.same_id in Hn. apply pystr_eqb_neq in Hn. congruence.
Qed.

Lemma fold_upsert_NoDup rows : forall t,
  NoDup (List.map SQLiteEvent.id t) ->
  NoDup (List.map SQLiteEvent.id (fold_left Spec.upsert rows t)).
Proof.
  induction rows as [|r rows IH]; intros t H; [exact H|].
  cbn [fold_left]. apply IH. now apply upsert_NoDup.
Qed.

(** X19.  A run that returns, with a positive batch size, against a file
    that is new or has the two tables and a database that refuses nothing:
    the table [events] of the file is the table it was, with the accepted
    records inserted or replaced in the order of the events, and it has no
    two rows with the same id if it had none; the metadata table records
    [last_conversion] and [total_events], the number of accepted records;
    the connection is closed; the batches written are the accepted
    records, in full batches but the last.  The statistics give the number
    of rows of the table, of accepted records, of batches, and of events
    skipped. *)
Theorem run_stores_accepted cfg source file io readings size stats w' :
  (0 < ConversionConfig.batch_size cfg)%Z ->
  (forall k, io k = false) ->
  usable file ->
  Main.convert_events cfg source
    (Main.initial_world cfg file io readings size) = (Ok stats, w') ->
  let records :=
    accepted (ConversionConfig.validate_data cfg) (Main.stream source) in
  let table := fold_left Spec.upsert records (rows_of file) in
  Sqlite3.events (Sqlite3.disk (database w')) = Some table /\
  (NoDup (List.map SQLiteEvent.id (rows_of file)) ->
   NoDup (List.map SQLiteEvent.id table)) /\
  (exists stamp,
     Sqlite3.conversion_metadata (Sqlite3.disk (database w'))
     = Some (Sqlite3.replace_metadata (lit "total_events")
               (int_str (Main.len records))
               (Sqlite3.replace_metadata (lit "last_conversion") stamp
                  (metadata_of file)))) /\
  Sqlite3.closed (database w') = true /\
  List.concat (Spec.writes (Sqlite3.journal (database w'))) = records /\
  batched (ConversionConfig.batch_size cfg)
          (Spec.writes (Sqlite3.journal (database w'))) /\
  Stats.get "total_events" stats = Some (Stats.Int (Main.len table)) /\
  Stats.get "events_processed_this_session" stats
    = Some (Stats.Int (Main.len records)) /\
  Stats.get "batches_processed" stats
    = Some (Stats.Int (Z.of_nat (List.length
                                   (Spec.writes (Sqlite3.journal (database w')))))) /\
  Stats.get "skipped_events" stats
    = Some (Stats.Int (Z.of_nat (List.length (Main.stream source))
                       - Main.len records)).
Proof.
  intros Hpos Hio Hfile E. cbv zeta.
  destruct (@run_effect cfg source file io readings size stats w'
              Hpos Hio Hfile E)
    as (H1 & H2 & H3 & H4 & H5 & H6 & H7 & H8 & H9 & _).
  refine (conj H1 (conj _ (conj H2 (conj H3 (conj H4 (conj H5
            (conj H6 (conj H7 (conj H8 H9))))))))).
  apply fold_upsert_NoDup.
Qed.


(** X21.  [connect] raises nothing but [sqlite3.Error], and when it
    returns the store refers to a connection and has the configuration it
    had.  The [RuntimeError] of [_create_schema] and [_create_indexes]
    arises only when they are called on a store without a connection,
    which [connect] never does. *)
Theorem connect_failures w :
  (forall e, fst (SQLiteEventStore.connect w) = Raise e ->
             is_sqlite3_error e = true) /\
  (fst (SQLiteEventStore.connect w) = Ok tt ->
   connection (db (snd (SQLiteEventStore.connect w))) = Some the_connection /\
   config (db (snd (SQLiteEventStore.connect w))) = config (db w)) /\
  (connection (db w) = None ->
   SQLiteEventStore._create_schema w = (Raise RuntimeError, w) /\
   SQLiteEventStore._create_indexes w = (Raise RuntimeError, w)).
Proof.
  pose proof (@connect_running (config (db w)) (handles w) w eq_refl eq_refl)
    as H.
  destruct (SQLiteEventStore.connect w) as [[[]|e] w1];
    cbn [outcome fst snd] in *.
  - split; [discriminate|]. split.
    + intros _. exact (proj1 H).
    + intros Hn. unfold SQLiteEventStore._create_schema,
        SQLiteEventStore._create_indexes, bind, get. rewrite Hn. auto.
  - split; [intros e0 E; injection E as <-; exact (proj1 H)|].
    split; [discriminate|].
    intros Hn. unfold SQLiteEventStore._create_schema,
      SQLiteEventStore._create_indexes, bind, get. rewrite Hn. auto.
Qed.

Lemma accepted_all validate events :
  Forall (fun event => exists r, SQLiteEvent.__init__ event validate = Ok r)
         events ->
  List.length (accepted validate events) = List.length events.
Proof.
  induction 1 as [|event rest [r Hr] _ IH]; [reflexivity|].
  rewrite accepted_cons, List.length_app, IH. unfold accepted.
  cbn [flat_map]. rewrite Hr. reflexivity.
Qed.

(** X22.  Without validation, a run that returns has skipped no event:
    every event gave a record, whose payload is the text the payload
    resolves to, or none when it is absent, not UTF-8 or not
    serialisable; [skipped_events] is 0 and the events processed are as
    many as the events read. *)
Theorem unvalidated_run_skips_nothing cfg source file io readings size stats w' :
  ConversionConfig.validate_data cfg = false ->
  (0 < ConversionConfig.batch_size cfg)%Z ->
  (forall k, io k = false) ->
  usable file ->
  Main.convert_events cfg source
    (Main.initial_world cfg file io readings size) = (Ok stats, w') ->
  Stats.get "skipped_events" stats = Some (Stats.Int 0) /\
  Stats.get "events_processed_this_session" stats
    = Some (Stats.Int (Z.of_nat (List.length (Main.stream source)))) /\
  Forall (fun event =>
            exists r,
              SQLiteEvent.__init__ event false = Ok r /\
              SQLiteEvent.data r
                = Spec.payload_text (RecordedEvent.data event))
         (Main.stream source).
Proof.
  intros Hv Hpos Hio Hfile E.
  destruct (@run_effect cfg source file io readings size stats w'
              Hpos Hio Hfile E)
    as (_ & _ & _ & _ & _ & _ & H7 & _ & H9 & Hh).
  rewrite Hv in *.
  assert (Hall : Forall (fun event =>
                           exists r,
                             SQLiteEvent.__init__ event false = Ok r /\
                             SQLiteEvent.data r
                               = Spec.payload_text (RecordedEvent.data event))
                        (Main.stream source)).
  { eapply Forall_impl; [|exact Hh]. intros event. unfold handled.
    unfold SQLiteEvent.__init__. rewrite unvalidated_payload.
    cbn [SQLiteEvent.bind].
    destruct (SQLiteEvent._serialize_metadata event) as [m|e] eqn:Hm;
      cbn [SQLiteEvent.bind].
    - intros _. eexists. split; reflexivity.
    - apply serialize_metadata_raises in Hm as [-> _]. discriminate. }
  assert (Hlen : Main.len (accepted false (Main.stream source))
                 = Z.of_nat (List.length (Main.stream source))).
  { unfold Main.len. f_equal. apply accepted_all.
    eapply Forall_impl; [|exact Hall]. intros event (r & Hr & _). eauto. }
  rewrite Hlen in H7, H9. rewrite Z.sub_diag in H9. auto.
Qed.

End Tables.

Section PartialBatch.

Lemma insert_rows_prefix good bad rest e : forall tbl,
  Forall (fun r => Sqlite3.bind_parameters r = Ok tt /\
                   Sqlite3.check_constraints r = true) good ->
  Sqlite3.insert_or_replace bad (fold_left Spec.upsert good tbl) = Raise e ->
  Sqlite3.insert_rows (good ++ bad :: rest) tbl
  = (Raise e, fold_left Spec.upsert good tbl).
Proof.
  induction good as [|r good IH]; intros tbl Hg Hb; cbn [app Sqlite3.insert_rows fold_left] in *.
  - rewrite Hb. reflexivity.
  - inversion Hg as [|? ? [Hp Hc] Hg']; subst.
    unfold Sqlite3.insert_or_replace at 1. rewrite Hp, Hc.
    apply IH; assumption.
Qed.

(** X23.  When a row of a batch is refused, by a constraint of the table
    or because a value cannot be bound, [save_events_batch] raises and
    counts nothing, neither events nor the batch; the rows before the
    refused one stay in the open transaction, and the [close] that follows
    commits them: the file then holds them, while [total_events] records
    the count without them. *)
Theorem failed_batch_partly_stored w good bad rest tbl m e :
  connection (db w) = Some the_connection ->
  Sqlite3.closed (database w) = false ->
  Spec.no_fault w ->
  Sqlite3.view (database w)
    = {| Sqlite3.events := Some tbl; Sqlite3.conversion_metadata := Some m |} ->
  Forall (fun r => Sqlite3.bind_parameters r = Ok tt /\
                   Sqlite3.check_constraints r = true) good ->
  Sqlite3.insert_or_replace bad (fold_left Spec.upsert good tbl) = Raise e ->
  let failed := SQLiteEventStore.save_events_batch (good ++ bad :: rest) w in
  let closed := SQLiteEventStore.close (snd failed) in
  fst failed = Raise e /\
  events_processed (db (snd failed)) = events_processed (db w) /\
  batches_processed (db (snd failed)) = batches_processed (db w) /\
  Sqlite3.disk (database (snd failed)) = Sqlite3.disk (database w) /\
  Sqlite3.events (Sqlite3.disk (database (snd closed)))
    = Some (fold_left Spec.upsert good tbl) /\
  exists stamp,
    Sqlite3.conversion_metadata (Sqlite3.disk (database (snd closed)))
    = Some (Sqlite3.replace_metadata (lit "total_events")
              (int_str (events_processed (db w)))
              (Sqlite3.replace_metadata (lit "last_conversion") stamp m)).
Proof.
  destruct w as [[cf cn ep bp] [dk vw cl io j] l c t sz rs cc].
  unfold Spec.no_fault.
  cbn [db database connection Sqlite3.closed Sqlite3.io_fault Sqlite3.view
       clock ticks events_processed batches_processed Sqlite3.journal
       Sqlite3.disk].
  intros -> -> Hio -> Hg Hb. cbv zeta.
  assert (Hs : SQLiteEventStore.save_events_batch (good ++ bad :: rest)
                 {| db := {| config := cf; connection := Some the_connection;
                             events_processed := ep; batches_processed := bp |};
                    database := {| Sqlite3.disk := dk;
                                   Sqlite3.view :=
                                     {| Sqlite3.events := Some tbl;
                                        Sqlite3.conversion_metadata := Some m |};
                                   Sqlite3.closed := false;
                                   Sqlite3.io_fault := io;
                                   Sqlite3.journal := j |};
                    locals := l; clock := c; ticks := t; st_size := sz;
                    reader_stops := rs; client_closed := cc |}
               = (Raise e,
                  {| db := {| config := cf; connection := Some the_connection;
                              events_processed := ep; batches_processed := bp |};
                     database := {| Sqlite3.disk := dk;
                                    Sqlite3.view :=
                                      {| Sqlite3.events :=
                                           Some (fold_left Spec.upsert good tbl);
                                         Sqlite3.conversion_metadata := Some m |};
                                    Sqlite3.closed := false;
                                    Sqlite3.io_fault := io;
                                    Sqlite3.journal :=
                                      j ++ [Sqlite3.ExecuteMany
                                              (good ++ bad :: rest)] |};
                     locals := l; clock := c; ticks := t; st_size := sz;
                     reader_stops := rs; client_closed := cc |})).
  { unfold SQLiteEventStore.save_events_batch.
    destruct (good ++ bad :: rest) as [|r0 b0] eqn:Hrows.
    { destruct good; discriminate. }
    rewrite <- Hrows. clear Hrows.
    cbv beta iota zeta delta
      [bind get driver try_except Sqlite3.executemany Sqlite3.driver_call
         Sqlite3.log_call Sqlite3.set_view Sqlite3.closed Sqlite3.io_fault
         Sqlite3.journal Sqlite3.view Sqlite3.disk Sqlite3.events
         Sqlite3.conversion_metadata db database connection].
    rewrite Hio, (@insert_rows_prefix good bad rest e tbl Hg Hb).
    destruct (is_sqlite3_error e); reflexivity. }
  rewrite Hs. cbn [fst snd db database events_processed batches_processed
                   Sqlite3.disk].
  refine (conj eq_refl (conj eq_refl (conj eq_refl (conj eq_refl _)))).
  unfold SQLiteEventStore.close. run_store Hio.
  split; [reflexivity|]. eexists. reflexivity.
Qed.

End PartialBatch.

(* ================================================================== *)
(** * Text sent as bytes *)
(* ================================================================== *)

Section Utf8Decoding.
Local Open Scope N_scope.

Lemma to_N_byte_of n : n < 256 -> Byte.to_N (byte_of n) = n.
Proof.
  intros H. unfold byte_of. destruct (Byte.of_N n) as [b|] eqn:E.
  - exact (Byte.to_of_N _ E).
  - apply Byte.of_N_None_iff in E. lia.
Qed.

Lemma in_range_true lo hi n : lo <= n <= hi -> in_range lo hi n = true.
Proof. intros H. now apply in_range_spec. Qed.

Lemma in_range_false lo hi n : n < lo \/ hi < n -> in_range lo hi n = false.
Proof.
  intros H. destruct (in_range lo hi n) eqn:E; [|reflexivity].
  apply in_range_spec in E. lia.
Qed.

Lemma is_cont_true n : 0x80 <= n <= 0xBF -> is_cont n = true.
Proof. intros H. now apply is_cont_spec. Qed.

Lemma decode_one b0 rest :
  Byte.to_N b0 < 0x80 ->
  utf8_decode (b0 :: rest) = option_map (cons (Byte.to_N b0)) (utf8_decode rest).
Proof.
  intros H. cbn [utf8_decode]. cbv zeta.
  destruct (N.ltb_spec (Byte.to_N b0) 0x80); [reflexivity | lia].
Qed.

Lemma decode_two b0 b1 rest :
  0xC2 <= Byte.to_N b0 <= 0xDF -> 0x80 <= Byte.to_N b1 <= 0xBF ->
  utf8_decode (b0 :: b1 :: rest)
  = option_map (cons ((Byte.to_N b0 - 0xC0) * 64 + (Byte.to_N b1 - 0x80)))
               (utf8_decode rest).
Proof.
  intros H0 H1. cbn [utf8_decode]. cbv zeta.
  destruct (N.ltb_spec (Byte.to_N b0) 0x80); [lia|].
  rewrite (@in_range_true 0xC2 0xDF _ H0).
  rewrite (@is_cont_true _ H1). reflexivity.
Qed.

Lemma decode_three b0 b1 b2 rest :
  0xE0 <= Byte.to_N b0 <= 0xEF ->
  (if Byte.to_N b0 =? 0xE0 then 0xA0 else 0x80) <= Byte.to_N b1
    <= (if Byte.to_N b0 =? 0xED then 0x9F else 0xBF) ->
  0x80 <= Byte.to_N b2 <= 0xBF ->
  utf8_decode (b0 :: b1 :: b2 :: rest)
  = option_map (cons ((Byte.to_N b0 - 0xE0) * 4096
                      + (Byte.to_N b1 - 0x80) * 64 + (Byte.to_N b2 - 0x80)))
               (utf8_decode rest).
Proof.
  intros H0 H1 H2. cbn [utf8_decode]. cbv zeta.
  destruct (N.ltb_spec (Byte.to_N b0) 0x80); [lia|].
  rewrite (@in_range_false 0xC2 0xDF (Byte.to_N b0)) by lia.
  rewrite (@in_range_true 0xE0 0xEF _ H0).
  rewrite (@in_range_true _ _ _ H1).
  rewrite (@is_cont_true _ H2). reflexivity.
Qed.

Lemma decode_four b0 b1 b2 b3 rest :
  0xF0 <= Byte.to_N b0 <= 0xF4 ->
  (if Byte.to_N b0 =? 0xF0 then 0x90 else 0x80) <= Byte.to_N b1
    <= (if Byte.to_N b0 =? 0xF4 then 0x8F else 0xBF) ->
  0x80 <= Byte.to_N b2 <= 0xBF -> 0x80 <= Byte.to_N b3 <= 0xBF ->
  utf8_decode (b0 :: b1 :: b2 :: b3 :: rest)
  = option_map (cons ((Byte.to_N b0 - 0xF0) * 262144
                      + (Byte.to_N b1 - 0x80) * 4096
                      + (Byte.to_N b2 - 0x80) * 64 + (Byte.to_N b3 - 0x80)))
               (utf8_decode rest).
Proof.
  intros H0 H1 H2 H3. cbn [utf8_decode]. cbv zeta.
  destruct (N.ltb_spec (Byte.to_N b0) 0x80); [lia|].
  rewrite (@in_range_false 0xC2 0xDF (Byte.to_N b0)) by lia.
  rewrite (@in_range_false 0xE0 0xEF (Byte.to_N b0)) by lia.
  rewrite (@in_range_true 0xF0 0xF4 _ H0).
  rewrite (@in_range_true _ _ _ H1).
  rewrite (@is_cont_true _ H2), (@is_cont_true _ H3). reflexivity.
Qed.

Lemma some_eq A (x y : A) : Some x = Some y -> x = y.
Proof. congruence. Qed.

(** The bytes of one character are read back as that character. *)
Lemma decode_char c bs rest :
  utf8_encode_char c = Some bs ->
  utf8_decode (bs ++ rest) = option_map (cons c) (utf8_decode rest).
Proof.
  unfold utf8_encode_char.
  destruct (N.ltb_spec c 0x80) as [H1|H1].
  { intros H; apply some_eq in H; subst bs.
    change ([byte_of c] ++ rest) with (byte_of c :: rest).
    rewrite decode_one; rewrite to_N_byte_of by lia; [reflexivity | exact H1]. }
  destruct (N.ltb_spec c 0x800) as [H2|H2].
  { intros H; apply some_eq in H; subst bs.
    set (n0 := 0xC0 + c / 64). set (n1 := 0x80 + c mod 64).
    change ([byte_of n0; byte_of n1] ++ rest)
      with (byte_of n0 :: byte_of n1 :: rest).
    assert (E0 : Byte.to_N (byte_of n0) = n0)
      by (apply to_N_byte_of; unfold n0; div_lia).
    assert (E1 : Byte.to_N (byte_of n1) = n1)
      by (apply to_N_byte_of; unfold n1; div_lia).
    rewrite decode_two; rewrite ?E0, ?E1; try (unfold n0, n1; div_lia).
    replace ((n0 - 0xC0) * 64 + (n1 - 0x80)) with c
      by (unfold n0, n1; div_lia).
    reflexivity. }
  destruct (N.ltb_spec c 0x10000) as [H3|H3].
  { assert (Hs : is_surrogate c = true \/
                 (is_surrogate c = false /\ (c < 0xD800 \/ 0xDFFF < c))).
    { unfold is_surrogate.
      destruct (N.leb_spec 0xD800 c), (N.leb_spec c 0xDFFF); cbn [andb];
        auto; right; split; auto; lia. }
    destruct Hs as [-> | [-> Hs]]; [discriminate|].
    intros H; apply some_eq in H; subst bs.
    set (n0 := 0xE0 + c / 4096). set (n1 := 0x80 + (c / 64) mod 64).
    set (n2 := 0x80 + c mod 64).
    change ([byte_of n0; byte_of n1; byte_of n2] ++ rest)
      with (byte_of n0 :: byte_of n1 :: byte_of n2 :: rest).
    assert (E0 : Byte.to_N (byte_of n0) = n0)
      by (apply to_N_byte_of; unfold n0; div_lia).
    assert (E1 : Byte.to_N (byte_of n1) = n1)
      by (apply to_N_byte_of; unfold n1; div_lia).
    assert (E2 : Byte.to_N (byte_of n2) = n2)
      by (apply to_N_byte_of; unfold n2; div_lia).
    rewrite decode_three; rewrite ?E0, ?E1, ?E2.
    - replace ((n0 - 0xE0) * 4096 + (n1 - 0x80) * 64 + (n2 - 0x80)) with c
        by (unfold n0, n1, n2; div_lia).
      reflexivity.
    - unfold n0; div_lia.
    - destruct (N.eqb_spec n0 0xE0), (N.eqb_spec n0 0xED);
        unfold n0, n1 in *; div_lia.
    - unfold n2; div_lia. }
  destruct (N.ltb_spec c 0x110000) as [H4|H4]; [|discriminate].
  intros H; apply some_eq in H; subst bs.
  set (n0 := 0xF0 + c / 262144). set (n1 := 0x80 + (c / 4096) mod 64).
  set (n2 := 0x80 + (c / 64) mod 64). set (n3 := 0x80 + c mod 64).
  change ([byte_of n0; byte_of n1; byte_of n2; byte_of n3] ++ rest)
    with (byte_of n0 :: byte_of n1 :: byte_of n2 :: byte_of n3 :: rest).
  assert (E0 : Byte.to_N (byte_of n0) = n0)
    by (apply to_N_byte_of; unfold n0; div_lia).
  assert (E1 : Byte.to_N (byte_of n1) = n1)
    by (apply to_N_byte_of; unfold n1; div_lia).
  assert (E2 : Byte.to_N (byte_of n2) = n2)
    by (apply to_N_byte_of; unfold n2; div_lia).
  assert (E3 : Byte.to_N (byte_of n3) = n3)
    by (apply to_N_byte_of; unfold n3; div_lia).
  rewrite decode_four; rewrite ?E0, ?E1, ?E2, ?E3.
  - replace ((n0 - 0xF0) * 262144 + (n1 - 0x80) * 4096
             + (n2 - 0x80) * 64 + (n3 - 0x80)) with c
      by (unfold n0, n1, n2, n3; div_lia).
    reflexivity.
  - unfold n0; div_lia.
  - destruct (N.eqb_spec n0 0xF0), (N.eqb_spec n0 0xF4);
      unfold n0, n1 in *; div_lia.
  - unfold n2; div_lia.
  - unfold n3; div_lia.
Qed.

Lemma utf8_encode_decode s : forall b,
  utf8_encode s = Some b -> utf8_decode b = Some s.
Proof.
  induction s as [|c s IH]; intros b; cbn [utf8_encode].
  - intros H; injection H as <-. reflexivity.
  - destruct (utf8_encode_char c) as [bs|] eqn:Hc; [|discriminate].
    destruct (utf8_encode s) as [r|]; [|discriminate].
    intros H; injection H as <-.
    rewrite (@decode_char c bs r Hc), (IH r eq_refl). reflexivity.
Qed.

End Utf8Decoding.

Section EncodedText.
Import SQLiteEvent.

(** X24.  Bytes that are the UTF-8 encoding of a text are decoded to that
    text, so a payload that was sent as [text.encode()] is processed, in
    either mode, exactly as the text itself would be; without validation
    it is kept as the text. *)
Theorem encoded_text_recovered s b validate :
  utf8_encode s = Some b ->
  utf8_decode b = Some s /\
  _process_event_data (PBytes b) validate = _process_event_data (PStr s) validate /\
  _process_event_data (PBytes b) false = Ok (Some s).
Proof.
  intros H. apply utf8_encode_decode in H.
  split; [exact H|]. unfold _process_event_data. rewrite H.
  split; reflexivity.
Qed.

End EncodedText.

(* ================================================================== *)
(** * Further sample runs *)
(* ================================================================== *)


Lemma metadata_roundtrip_witness :
  Json.loads
    (match SQLiteEvent._serialize_metadata
             (Spec.sample_event (lit "e1") None PNone None None) with
     | Ok text => text
     | Raise _ => []
     end)
  = Some (PDict (SQLiteEvent.cleaned_metadata
                   (Spec.sample_event (lit "e1") None PNone None None))).
Proof.
  refine (proj2 (@metadata_roundtrip
                   (Spec.sample_event (lit "e1") None PNone None None) _ _ _)).
  - vm_compute. reflexivity.
  - intros k v Hin.
    assert (F : forallb (fun kv => Spec.json_native (snd kv)
                                   && Spec.distinct_keys (snd kv))
                  (SQLiteEvent.cleaned_metadata
                     (Spec.sample_event (lit "e1") None PNone None None))
                = true) by (vm_compute; reflexivity).
    rewrite forallb_forall in F. specialize (F _ Hin). cbn [snd] in F.
    apply andb_true_iff in F. exact F.
Defined.


Lemma failed_save_not_durable_witness :
  Sqlite3.disk
    (database (snd (SQLiteEventStore.save_events_batch [Props.early_record]
                      Spec.connected_world)))
  = Sqlite3.disk (database Spec.connected_world).
Proof.
  refine (proj1 (@failed_save_not_durable [Props.early_record]
                   Spec.connected_world (Sqlite3Error IntegrityError) _)).
  vm_compute. reflexivity.
Defined.

Lemma connect_schema_witness :
  connection (db Spec.connected_world) = Some the_connection /\
  Sqlite3.closed (database Spec.connected_world) = false.
Proof.
  pose proof (@connect_schema Spec.sample_config (Spec.sample_world Spec.new_file)
                (fun k => eq_refl)) as H.
  cbv zeta in H. exact (conj (proj1 H) (proj1 (proj2 H))).
Defined.

Lemma run_on_partial_schema_witness :
  fst (Props.sample_run Spec.sample_config Props.partial_file)
  = Raise (Sqlite3Error OperationalError).
Proof.
  exact (proj1 (@run_on_partial_schema Spec.sample_config Props.sample_source
                  Props.partial_file (fun _ => false) Spec.sample_clock 4096 []
                  (fun k => eq_refl) eq_refl eq_refl eq_refl)).
Defined.

Lemma close_commits_and_records_witness :
  Sqlite3.closed (database (snd (SQLiteEventStore.close Spec.connected_world)))
  = true.
Proof.
  refine (proj1 (proj2 (@close_commits_and_records Spec.connected_world
                          (Some []) [] _ _ _ _))).
  - vm_compute. reflexivity.
  - vm_compute. reflexivity.
  - intros k. reflexivity.
  - vm_compute. reflexivity.
Defined.

Lemma close_without_metadata_table_witness :
  Sqlite3.closed
    (database (snd (SQLiteEventStore.close
                      (Props.connected_to Props.legacy_file))))
  = false.
Proof.
  refine (proj1 (proj2 (proj2 (@close_without_metadata_table
                                 (Props.connected_to Props.legacy_file)
                                 (Some []) _ _ _ _)))).
  - vm_compute. reflexivity.
  - vm_compute. reflexivity.
  - intros k. reflexivity.
  - vm_compute. reflexivity.
Defined.

Lemma ingest_batches_witness :
  exists new,
    Spec.writes
      (Sqlite3.journal
         (database (snd (Main.ingest Spec.sample_config Props.sample_source
                           Spec.connected_world))))
    = Spec.writes (Sqlite3.journal (database Spec.connected_world)) ++ new /\
    List.concat new = Props.accepted true Props.sample_stream /\
    Props.batched 2 new.
Proof.
  destruct (@ingest_batches Spec.sample_config Props.sample_source
              Spec.connected_world
              (snd (Main.ingest Spec.sample_config Props.sample_source
                      Spec.connected_world)))
    as (new & H1 & H2 & H3 & _).
  - reflexivity.
  - split; vm_compute; reflexivity.
  - vm_compute. reflexivity.
  - vm_compute. reflexivity.
  - exists new. exact (conj H1 (conj H2 H3)).
Defined.

Lemma run_cleanup_witness :
  client_closed (snd (Props.sample_run Spec.sample_config Spec.new_file)) = true.
Proof.
  exact (proj1 (@run_cleanup Spec.sample_config Props.sample_source
                  (Main.initial_world Spec.sample_config Spec.new_file
                     (fun _ => false) Spec.sample_clock 4096) eq_refl)).
Defined.


Lemma run_statistics_witness :
  Cli.print_summary
    (Props.statistics_of (Props.sample_run Spec.sample_config Spec.new_file))
  = Some tt.
Proof.
  refine (proj2 (@run_statistics Spec.sample_config Props.sample_source
                   (Main.initial_world Spec.sample_config Spec.new_file
                      (fun _ => false) Spec.sample_clock 4096)
                   (Props.statistics_of
                      (Props.sample_run Spec.sample_config Spec.new_file))
                   (snd (Props.sample_run Spec.sample_config Spec.new_file))
                   _)).
  vm_compute. reflexivity.
Defined.

Lemma run_stores_accepted_witness :
  Sqlite3.events
    (Props.file_after (Props.sample_run Spec.sample_config Spec.new_file))
  = Some (fold_left Spec.upsert (Props.accepted true Props.sample_stream) []).
Proof.
  refine (proj1 (@run_stores_accepted Spec.sample_config Props.sample_source
                   Spec.new_file (fun _ => false) Spec.sample_clock 4096
                   (Props.statistics_of
                      (Props.sample_run Spec.sample_config Spec.new_file))
                   (snd (Props.sample_run Spec.sample_config Spec.new_file))
                   _ _ _ _)).
  - reflexivity.
  - reflexivity.
  - exact I.
  - vm_compute. reflexivity.
Defined.


Lemma unvalidated_run_skips_nothing_witness :
  Stats.get "skipped_events"
    (Props.statistics_of
       (Props.sample_run Props.unvalidated_config Spec.new_file))
  = Some (Stats.Int 0).
Proof.
  refine (proj1 (@unvalidated_run_skips_nothing Props.unvalidated_config
                   Props.sample_source Spec.new_file (fun _ => false)
                   Spec.sample_clock 4096
                   (Props.statistics_of
                      (Props.sample_run Props.unvalidated_config Spec.new_file))
                   (snd (Props.sample_run Props.unvalidated_config
                           Spec.new_file))
                   _ _ _ _ _)).
  - reflexivity.
  - reflexivity.
  - reflexivity.
  - exact I.
  - vm_compute. reflexivity.
Defined.

Lemma failed_batch_partly_stored_witness :
  Sqlite3.events
    (Sqlite3.disk
       (database
          (snd (SQLiteEventStore.close
                  (snd (SQLiteEventStore.save_events_batch
                          [Spec.sample_record (lit "a") (lit "1");
                           Props.early_record]
                          Spec.connected_world))))))
  = Some [Spec.sample_record (lit "a") (lit "1")].
Proof.
  refine (proj1 (proj2 (proj2 (proj2 (proj2
            (@failed_batch_partly_stored Spec.connected_world
               [Spec.sample_record (lit "a") (lit "1")] Props.early_record []
               [] [] (Sqlite3Error IntegrityError) _ _ _ _ _ _)))))).
  - vm_compute. reflexivity.
  - vm_compute. reflexivity.
  - intros k. reflexivity.
  - vm_compute. reflexivity.
  - repeat constructor.
  - vm_compute. reflexivity.
Defined.

Lemma encoded_text_recovered_witness :
  SQLiteEvent._process_event_data
    (PBytes (List.map byte_of (lit "event_data_1"))) false
  = Ok (Some (lit "event_data_1")).
Proof.
  exact (proj2 (proj2 (@encoded_text_recovered (lit "event_data_1")
                         (List.map byte_of (lit "event_data_1")) false
                         eq_refl))).
Defined.
